(** * ICL evaluation in llm-foundry: task resolution, metric keys,
      composite scores and the markdown report

    A shallow embedding of
      - [build_icl_evaluators] and its local [_validate_cfg],
        [build_icl_data_and_gauntlet] and the factories [build_callback],
        [build_logger], [build_algorithm], [build_optimizer] and
        [build_scheduler] (llmfoundry/utils/builders.py),
      - [load_model], [load_peft_model], [calculate_markdown_results] and
        the two tables [main] builds around the report
        (scripts/eval/eval.py),
      - [MockState] (tests/test_model_gauntlet.py),
    together with a model of the gauntlet scorer that
    tests/test_model_gauntlet.py exercises.

    Python values are modelled as follows: [str] as [string], [int] as [Z],
    a [DictConfig] task entry as a record of optional fields,
    insertion-ordered dicts that are iterated as association lists, dicts
    that are only looked up as [gmap], and raised exceptions as the [Raise]
    case of a result type.  The values the report averages keep their own
    arithmetic: the report is stated over any type with the three
    operations it uses, and the examples run it on IEEE 754 binary64
    floats.  The scorer model, which follows the specification, computes
    with exact rationals [Q]. *)

From Stdlib Require Import ZArith QArith Qfield Lia.
From Stdlib Require Import Ascii String DecimalString DecimalPos DecimalZ.
From Corelib Require PrimFloat.
From stdpp Require Import base option list strings gmap.

Local Open Scope string_scope.
Local Open Scope list_scope.

(** ** Python primitives *)

Module Py.

(** Exceptions raised by the modelled code.  [AssertionError] is what a
    bare [assert cond] raises: it carries no message. *)
Inductive exn : Type :=
| AssertionError
| ValueError (msg : string)
| IndexError (msg : string)
| KeyError (key : string)
| ImportError (msg : string)
| AttributeError (name : string)
| ZeroDivisionError
| OtherError (cls msg : string).

(** [str(e)] *)
Definition str_exn (e : exn) : string :=
  match e with
  | AssertionError => ""
  | ValueError msg => msg
  | IndexError msg => msg
  | KeyError key => "'" +:+ key +:+ "'"
  | ImportError msg => msg
  | AttributeError name => name
  | ZeroDivisionError => "division by zero"
  | OtherError _ msg => msg
  end.

Inductive result (A : Type) : Type :=
| Ok (a : A)
| Raise (e : exn).
Arguments Ok {A} a.
Arguments Raise {A} e.

Definition bind {A B} (m : result A) (k : A -> result B) : result B :=
  match m with
  | Ok a => k a
  | Raise e => Raise e
  end.

Definition fmap_result {A B} (f : A -> B) (m : result A) : result B :=
  bind m (fun a => Ok (f a)).

(** [assert b] *)
Definition assert (b : bool) : result unit :=
  if b then Ok tt else Raise AssertionError.

(** The comprehension [[y for x in l for y in f(x)]] when [f] may
    raise. *)
Fixpoint flat_mapM {A B} (f : A -> result (list B)) (l : list A)
  : result (list B) :=
  match l with
  | [] => Ok []
  | x :: l' =>
      bind (f x) (fun ys => bind (flat_mapM f l') (fun zs => Ok (ys ++ zs)))
  end.

(** A [for] loop whose body may raise, threading the loop state. *)
Fixpoint for_each {S A} (body : S -> A -> result S) (l : list A) (s : S)
  : result S :=
  match l with
  | [] => Ok s
  | x :: l' => bind (body s x) (for_each body l')
  end.

(** [s.split(sep)] for a one-character separator. *)
Fixpoint split (sep : ascii) (s : string) : list string :=
  match s with
  | EmptyString => [EmptyString]
  | String c rest =>
      if Ascii.eqb c sep then EmptyString :: split sep rest
      else match split sep rest with
           | [] => [String c EmptyString]
           | w :: ws => String c w :: ws
           end
  end.

(** [sep.join(l)] *)
Definition join (sep : string) (l : list string) : string :=
  String.concat sep l.

(** [sub in s] *)
Fixpoint contains (sub s : string) : bool :=
  String.prefix sub s ||
  match s with
  | EmptyString => false
  | String _ rest => contains sub rest
  end.

(** [str(z)] for an int *)
Definition str_int (z : Z) : string :=
  NilZero.string_of_int (Z.to_int z).

(** [l[1:-1]] *)
Definition slice_1_m1 {A} (l : list A) : list A :=
  removelast (tl l).

(** [l[-1]] *)
Definition last_item {A} (l : list A) : result A :=
  match rev l with
  | x :: _ => Ok x
  | [] => Raise (IndexError "list index out of range")
  end.

(** [l[i]] for a non-negative index *)
Definition item {A} (l : list A) (i : nat) : result A :=
  match nth_error l i with
  | Some x => Ok x
  | None => Raise (IndexError "list index out of range")
  end.

End Py.

Import Py.

(** The result type is a monad; stdpp's [x ← m; k] notation sequences
    statements that may raise. *)
#[global] Instance result_ret : MRet result := @Ok.
#[global] Instance result_bind : MBind result :=
  fun A B k m => bind m k.
#[global] Instance result_fmap : FMap result := @fmap_result.

(** ** llmfoundry/utils/builders.py *)

(** One entry of the ICL task list, an OmegaConf [DictConfig].  A field is
    [None] when the key is absent from the entry ([key in icl_cfg] is
    false); [dataset_uri] can be present and hold Python's [None].  The
    other fields, when present, hold a value of the type the code expects:
    an entry that sets [num_fewshot] or [metric_names] to null, on which
    [list(...)] raises after validation, is not represented. *)
Module IclCfg.
Record t : Type := mk {
  label : option string;
  dataset_uri : option (option string);
  icl_task_type : option string;
  num_fewshot : option (list Z);
  metric_names : option (list string);
  prompt_string : option string;
  example_delimiter : option string;
  continuation_delimiter : option string;
  max_seq_len : option Z;
  batch_size : option Z;
  pass_at_k : option Z;
  num_beams : option Z;
  has_categories : option bool
}.

Definition set_metric_names (v : list string) (c : t) : t :=
  mk (label c) (dataset_uri c) (icl_task_type c) (num_fewshot c) (Some v)
     (prompt_string c) (example_delimiter c) (continuation_delimiter c)
     (max_seq_len c) (batch_size c) (pass_at_k c) (num_beams c)
     (has_categories c).
Definition set_prompt_string (v : string) (c : t) : t :=
  mk (label c) (dataset_uri c) (icl_task_type c) (num_fewshot c)
     (metric_names c) (Some v) (example_delimiter c)
     (continuation_delimiter c) (max_seq_len c) (batch_size c)
     (pass_at_k c) (num_beams c) (has_categories c).
Definition set_example_delimiter (v : string) (c : t) : t :=
  mk (label c) (dataset_uri c) (icl_task_type c) (num_fewshot c)
     (metric_names c) (prompt_string c) (Some v)
     (continuation_delimiter c) (max_seq_len c) (batch_size c)
     (pass_at_k c) (num_beams c) (has_categories c).
Definition set_continuation_delimiter (v : string) (c : t) : t :=
  mk (label c) (dataset_uri c) (icl_task_type c) (num_fewshot c)
     (metric_names c) (prompt_string c) (example_delimiter c) (Some v)
     (max_seq_len c) (batch_size c) (pass_at_k c) (num_beams c)
     (has_categories c).
Definition set_max_seq_len (v : Z) (c : t) : t :=
  mk (label c) (dataset_uri c) (icl_task_type c) (num_fewshot c)
     (metric_names c) (prompt_string c) (example_delimiter c)
     (continuation_delimiter c) (Some v) (batch_size c) (pass_at_k c)
     (num_beams c) (has_categories c).
Definition set_batch_size (v : Z) (c : t) : t :=
  mk (label c) (dataset_uri c) (icl_task_type c) (num_fewshot c)
     (metric_names c) (prompt_string c) (example_delimiter c)
     (continuation_delimiter c) (max_seq_len c) (Some v) (pass_at_k c)
     (num_beams c) (has_categories c).
Definition set_pass_at_k (v : Z) (c : t) : t :=
  mk (label c) (dataset_uri c) (icl_task_type c) (num_fewshot c)
     (metric_names c) (prompt_string c) (example_delimiter c)
     (continuation_delimiter c) (max_seq_len c) (batch_size c) (Some v)
     (num_beams c) (has_categories c).
Definition set_num_beams (v : Z) (c : t) : t :=
  mk (label c) (dataset_uri c) (icl_task_type c) (num_fewshot c)
     (metric_names c) (prompt_string c) (example_delimiter c)
     (continuation_delimiter c) (max_seq_len c) (batch_size c)
     (pass_at_k c) (Some v) (has_categories c).

(** [icl_cfg.name] on a key that may be absent. *)
Definition getattr {A} (name : string) (field : option A) : result A :=
  match field with
  | Some v => Ok v
  | None => Raise (AttributeError name)
  end.

(** [if name not in icl_cfg: icl_cfg.name = v] *)
Definition setdefault {A} (field : t -> option A) (set : A -> t -> t)
    (v : A) (c : t) : t :=
  match field c with
  | Some _ => c
  | None => set v c
  end.
End IclCfg.

(** The tokenizer, as far as [build_icl_evaluators] reads it. *)
Module Tokenizer.
Record t : Type := mk {
  pad_token_id : option Z;
  eos_token_id : option Z
}.
End Tokenizer.

(** The keyword arguments of composer's [get_icl_task_dataloader]. *)
Module LoaderArgs.
Record t : Type := mk {
  icl_task_type : string;
  dataset_uri : option string;
  tokenizer : Tokenizer.t;
  batch_size : Z;
  max_seq_len : Z;
  pad_tok_id : option Z;
  num_fewshot : Z;
  prompt_string : string;
  example_delimiter : string;
  continuation_delimiter : string;
  destination_path : string;
  pass_at_k : Z;
  generations_per_sample : Z;
  has_categories : bool
}.
End LoaderArgs.

(** What [get_icl_task_dataloader] returns: one dataloader, or a dict from
    category name to dataloader (iterated in insertion order). *)
Inductive dataloaders (DataLoader : Type) : Type :=
| SingleLoader (dl : DataLoader)
| LoaderDict (d : list (string * DataLoader)).
Arguments SingleLoader {DataLoader} dl.
Arguments LoaderDict {DataLoader} d.

(** composer's [Evaluator]; [subset_num_batches] is [None] when the keyword
    is not passed or is passed as [None]. *)
Module Evaluator.
Record t (DataLoader : Type) : Type := mk {
  label : string;
  dataloader : DataLoader;
  metric_names : list string;
  subset_num_batches : option Z
}.
Arguments mk {DataLoader}.
Arguments label {DataLoader}.
Arguments dataloader {DataLoader}.
Arguments metric_names {DataLoader}.
Arguments subset_num_batches {DataLoader}.
End Evaluator.

Module Builders.

(** The default metric of each ICL task type (the [if]/[elif] chain of
    [_validate_cfg]). *)
Definition default_metric_names (icl_task_type : string)
  : option (list string) :=
  if String.eqb icl_task_type "language_modeling" then
    Some ["InContextLearningLMAccuracy"]
  else if String.eqb icl_task_type "multiple_choice" then
    Some ["InContextLearningMultipleChoiceAccuracy"]
  else if String.eqb icl_task_type "schema" then
    Some ["InContextLearningMultipleChoiceAccuracy"]
  else if String.eqb icl_task_type "question_answering" then
    Some ["InContextLearningQAAccuracy"]
  else if String.eqb icl_task_type "code_evaluation" then
    Some ["InContextLearningCodeEvalAccuracy"]
  else None.

Definition no_metric_names_msg (icl_task_type : string) : string :=
  "No metric_names defined, unable to build default metrics for icl_task_type="
    +:+ icl_task_type +:+ ".".

Section BuildIclEvaluators.
Context {DataLoader : Type}.
(** The external dataset loader; it may raise. *)
Variable get_icl_task_dataloader :
  LoaderArgs.t -> result (dataloaders DataLoader).
Variable tokenizer : Tokenizer.t.
Variables default_max_seq_len default_batch_size : Z.
Variable destination_dir : string.
Variable icl_subset_num_batches : option Z.

(** [_validate_cfg] mutates the entry in place; here it returns the
    updated entry. *)
Definition _validate_cfg (icl_cfg : IclCfg.t) : result IclCfg.t :=
  _ ← assert (bool_decide (is_Some (IclCfg.label icl_cfg)));
  _ ← assert (match IclCfg.dataset_uri icl_cfg with
              | Some (Some _) => true
              | _ => false
              end);
  _ ← assert (bool_decide (is_Some (IclCfg.icl_task_type icl_cfg)));
  _ ← assert (bool_decide (is_Some (IclCfg.num_fewshot icl_cfg)));
  icl_cfg ←
    match IclCfg.metric_names icl_cfg with
    | Some _ => Ok icl_cfg
    | None =>
        ty ← IclCfg.getattr "icl_task_type" (IclCfg.icl_task_type icl_cfg);
        match default_metric_names ty with
        | Some ms => Ok (IclCfg.set_metric_names ms icl_cfg)
        | None => Raise (ValueError (no_metric_names_msg ty))
        end
    end;
  let icl_cfg :=
    IclCfg.setdefault IclCfg.prompt_string IclCfg.set_prompt_string
      "" icl_cfg in
  let icl_cfg :=
    IclCfg.setdefault IclCfg.example_delimiter
      IclCfg.set_example_delimiter (String "010" "") icl_cfg in
  let icl_cfg :=
    IclCfg.setdefault IclCfg.continuation_delimiter
      IclCfg.set_continuation_delimiter " " icl_cfg in
  let icl_cfg :=
    IclCfg.setdefault IclCfg.max_seq_len IclCfg.set_max_seq_len
      default_max_seq_len icl_cfg in
  let icl_cfg :=
    IclCfg.setdefault IclCfg.batch_size IclCfg.set_batch_size
      default_batch_size icl_cfg in
  let icl_cfg :=
    IclCfg.setdefault IclCfg.pass_at_k IclCfg.set_pass_at_k 1%Z icl_cfg in
  let icl_cfg :=
    IclCfg.setdefault IclCfg.num_beams IclCfg.set_num_beams 20%Z icl_cfg in
  Ok icl_cfg.

(** The two lists the function builds up and returns. *)
Definition loop_state : Type :=
  list (Evaluator.t (dataloaders DataLoader)) * list string.

(** Body of [for category in dataloaders.keys()]. *)
Definition category_body (label : string) (metric_names : list string)
    (st : loop_state) (entry : string * DataLoader) : loop_state :=
  let '(evaluators, logger_keys) := st in
  let '(category, dl) := entry in
  let logger_keys :=
    logger_keys ++
    map (fun m => "metrics/" +:+ label +:+ "/" +:+ category +:+ "/" +:+ m)
        metric_names in
  let evaluators :=
    evaluators ++
    [Evaluator.mk (label +:+ "/" +:+ category) (SingleLoader dl)
       metric_names None] in
  (evaluators, logger_keys).

(** The keyword arguments of the call to [get_icl_task_dataloader]. *)
Definition loader_kwargs (icl_cfg : IclCfg.t) (num_fewshot : Z)
  : result LoaderArgs.t :=
  let pad_tok_id :=
    match Tokenizer.pad_token_id tokenizer with
    | None => Tokenizer.eos_token_id tokenizer
    | Some p => Some p
    end in
  base_label ← IclCfg.getattr "label" (IclCfg.label icl_cfg);
  let destination_path :=
    destination_dir +:+ "/" +:+ base_label +:+ "-" +:+ str_int num_fewshot
      +:+ ".jsonl" in
  icl_task_type ←
    IclCfg.getattr "icl_task_type" (IclCfg.icl_task_type icl_cfg);
  dataset_uri ←
    IclCfg.getattr "dataset_uri" (IclCfg.dataset_uri icl_cfg);
  batch_size ← IclCfg.getattr "batch_size" (IclCfg.batch_size icl_cfg);
  max_seq_len ← IclCfg.getattr "max_seq_len" (IclCfg.max_seq_len icl_cfg);
  prompt_string ←
    IclCfg.getattr "prompt_string" (IclCfg.prompt_string icl_cfg);
  example_delimiter ←
    IclCfg.getattr "example_delimiter" (IclCfg.example_delimiter icl_cfg);
  continuation_delimiter ←
    IclCfg.getattr "continuation_delimiter"
      (IclCfg.continuation_delimiter icl_cfg);
  pass_at_k ← IclCfg.getattr "pass_at_k" (IclCfg.pass_at_k icl_cfg);
  num_beams ← IclCfg.getattr "num_beams" (IclCfg.num_beams icl_cfg);
  Ok (LoaderArgs.mk icl_task_type dataset_uri tokenizer batch_size
        max_seq_len pad_tok_id num_fewshot prompt_string
        example_delimiter continuation_delimiter destination_path
        pass_at_k num_beams
        (default false (IclCfg.has_categories icl_cfg))).

(** Body of [for num_fewshot in list(icl_cfg.num_fewshot)].  Removing a
    stale [destination_path] on local rank 0 and the barrier that
    follows touch the file system and the process group only; they are
    not part of the state modelled here, and are taken to pass.  The
    [Evaluator] constructor is taken to return: the checks composer makes
    on its arguments (it rejects a dict of dataloaders) are outside the
    model, which therefore says which evaluators and keys are built, and
    nothing about failures after the call to the dataset loader. *)
Definition fewshot_body (icl_cfg : IclCfg.t) (st : loop_state)
    (num_fewshot : Z) : result loop_state :=
  base_label ← IclCfg.getattr "label" (IclCfg.label icl_cfg);
  let label := base_label +:+ "/" +:+ str_int num_fewshot +:+ "-shot" in
  metric_names ←
    IclCfg.getattr "metric_names" (IclCfg.metric_names icl_cfg);
  kwargs ← loader_kwargs icl_cfg num_fewshot;
  dataloaders ← get_icl_task_dataloader kwargs;
  match IclCfg.has_categories icl_cfg, dataloaders with
  | Some true, LoaderDict d =>
      Ok (fold_left (category_body label metric_names) d st)
  | _, _ =>
      let '(evaluators, logger_keys) := st in
      let logger_keys :=
        logger_keys ++
        map (fun m => "metrics/" +:+ label +:+ "/" +:+ m) metric_names in
      let evaluators :=
        evaluators ++
        [Evaluator.mk label dataloaders metric_names
           icl_subset_num_batches] in
      Ok (evaluators, logger_keys)
  end.

(** Body of [for icl_cfg in icl_tasks_list]. *)
Definition task_body (st : loop_state) (icl_cfg : IclCfg.t)
  : result loop_state :=
  icl_cfg ← _validate_cfg icl_cfg;
  nums ← IclCfg.getattr "num_fewshot" (IclCfg.num_fewshot icl_cfg);
  for_each (fewshot_body icl_cfg) nums st.

(** [build_icl_evaluators], on a task list given inline (a path is
    first read into such a list by OmegaConf). *)
Definition build_icl_evaluators (icl_tasks_list : list IclCfg.t)
  : result loop_state :=
  for_each task_body icl_tasks_list ([], []).
End BuildIclEvaluators.
End Builders.

(** ** scripts/eval/eval.py *)

(** An insertion-ordered [dict] with string keys: iteration follows the
    order in which keys were first inserted. *)
Module ODict.
Definition t (V : Type) : Type := list (string * V).

Fixpoint get {V} (k : string) (d : t V) : option V :=
  match d with
  | [] => None
  | (k', v) :: d' => if String.eqb k' k then Some v else get k d'
  end.

(** [if k not in d: d[k] = dflt] followed by an in-place update [f] of
    [d[k]]. *)
Fixpoint upsert {V} (k : string) (dflt : V) (f : V -> V) (d : t V) : t V :=
  match d with
  | [] => [(k, f dflt)]
  | (k', v) :: d' =>
      if String.eqb k' k then (k', f v) :: d'
      else (k', v) :: upsert k dflt f d'
  end.
End ODict.

Module Eval.

(** *** Model loading with retries *)

(** What the process has done so far: how many times the model
    constructor was entered, and the lines printed. *)
Record world : Type := mk_world {
  attempts : nat;
  stdout : list string
}.

Definition retry_msg (e : exn) (model_name : string)
    (num_retries retries : Z) : string :=
  "Got exception " +:+ str_exn e +:+ " while loading model " +:+ model_name
    +:+ ". " +:+ str_int (num_retries - retries) +:+ " retries remaining".

Section Retry.
Context {Model : Type}.
(** The body of the [try] block; its outcome depends on the number of
    earlier attempts only through the outside world. *)
Variable attempt : nat -> result Model.
(** [model_cfg.name] as the [except] block reads it for the line it
    prints; a config without that key makes the read raise. *)
Variable model_name : result string.
Variable num_retries : Z.

(** The [while retries < num_retries] loop shared, statement for
    statement, by [load_model] and [load_peft_model].  [None] means the
    fuel ran out; [Ok None] is Python's implicit [return None] when the
    loop ends without returning.  An exception raised inside the [except]
    block, while the line to print is formatted, leaves the loop. *)
Fixpoint retry_loop (fuel : nat) (retries : Z) (w : world)
  : option (result (option Model) * world) :=
  if (retries <? num_retries)%Z then
    match fuel with
    | O => None
    | S fuel' =>
        let w' := mk_world (S (attempts w)) (stdout w) in
        match attempt (attempts w) with
        | Ok composer_model => Some (Ok (Some composer_model), w')
        | Raise e =>
            let retries := (retries + 1)%Z in
            if (retries >=? num_retries)%Z then Some (Raise e, w')
            else
              match model_name with
              | Raise e' => Some (Raise e', w')
              | Ok model_name =>
                  retry_loop fuel' retries
                    (mk_world (attempts w')
                       (stdout w' ++
                        [retry_msg e model_name num_retries retries]))
              end
        end
    end
  else Some (Ok None, w).
End Retry.

Section LoadModel.
Context {Model ModelCfg : Type}.
(** [COMPOSER_MODEL_REGISTRY[...](model_cfg, tokenizer)], the lookup in
    the registry and the call, on its n-th call. *)
Variable construct : nat -> ModelCfg -> Tokenizer.t -> result Model.
(** [model_cfg.name] *)
Variable name : ModelCfg -> result string.

(** The [try] block of [load_model]: [model_cfg.name] is read first. *)
Definition model_attempt (model_cfg : ModelCfg) (tokenizer : Tokenizer.t)
    (n : nat) : result Model :=
  _ ← name model_cfg;
  construct n model_cfg tokenizer.

(** [load_model].  [process_init_device] yields a context manager that
    lets exceptions through, so the [with] block is transparent. *)
Definition load_model (model_cfg : ModelCfg) (tokenizer : Tokenizer.t)
    (num_retries : Z) (w : world)
  : option (result (option Model) * world) :=
  retry_loop (model_attempt model_cfg tokenizer) (name model_cfg)
    num_retries (Z.to_nat num_retries) 0%Z w.
End LoadModel.

Definition peft_model_registry : list string :=
  ["mpt_causal_lm"; "hf_causal_lm"; "hf_prefix_lm"; "hf_t5"].

Definition peft_import_msg (e : exn) : string :=
  "Error importing from peft. Run `pip install -e .[gpu,peft]`. "
    +:+ String "010" (" " +:+ str_exn e).

Section LoadPeftModel.
Context {Model ModelCfg Underlying Peft : Type}.
(** [from peft import PeftModel] *)
Variable import_peft : result unit.
Variable from_pretrained : nat -> ModelCfg -> result Underlying.
Variable peft_from_pretrained : nat -> Underlying -> ModelCfg -> result Peft.
Variable wrap : nat -> Peft -> Tokenizer.t -> result Model.
(** [model_cfg.name] *)
Variable name : ModelCfg -> result string.

(** The [try] block of [load_peft_model]. *)
Definition peft_attempt (model_cfg : ModelCfg) (tokenizer : Tokenizer.t)
    (n : nat) : result Model :=
  model_name ← name model_cfg;
  _ ← (if bool_decide (model_name ∈ peft_model_registry) then Ok tt
       else Raise (KeyError model_name));
  underlying_model ← from_pretrained n model_cfg;
  peft_model ← peft_from_pretrained n underlying_model model_cfg;
  wrap n peft_model tokenizer.

Definition load_peft_model (model_cfg : ModelCfg)
    (tokenizer : Tokenizer.t) (num_retries : Z) (w : world)
  : option (result (option Model) * world) :=
  match import_peft with
  | Raise e => Some (Raise (ImportError (peft_import_msg e)), w)
  | Ok _ =>
      retry_loop (peft_attempt model_cfg tokenizer) (name model_cfg)
        num_retries (Z.to_nat num_retries) 0%Z w
  end.
End LoadPeftModel.

(** *** The markdown report *)

(** The arithmetic of the values [metric.compute()] returns (Python
    floats, torch tensors), as far as the report uses it: [i + x] for an
    int [i], [x + y], and [x / n] for an int [n]. *)
Class Arith (Num : Type) : Type := {
  radd_int : Z -> Num -> Num;
  add_num : Num -> Num -> Num;
  truediv_int : Num -> Z -> Num
}.

(** One entry of a [results[num_shot][benchmark][metric]] list. *)
Record subscore (Num : Type) : Type := mk_subscore {
  val : Num;
  subcat : string
}.
Arguments mk_subscore {Num}.
Arguments val {Num}.
Arguments subcat {Num}.

(** A row of the results [DataFrame]. *)
Record ReportRow (Num : Type) : Type := mk_row {
  Category : string;
  Benchmark : option string;
  Subtask : option string;
  Accuracy : Num;
  Number_few_shot : string;
  Model : string
}.
Arguments mk_row {Num}.
Arguments Category {Num}.
Arguments Benchmark {Num}.
Arguments Subtask {Num}.
Arguments Accuracy {Num}.
Arguments Number_few_shot {Num}.
Arguments Model {Num}.

(** [results]: num_shot -> benchmark -> metric name -> subscores. *)
Definition results_t (Num : Type) : Type :=
  ODict.t (ODict.t (ODict.t (list (subscore Num)))).

Section Report.
Context {Num : Type} {arith : Arith Num}.

(** One step of [sum]: the running total, the int [0] at the start, plus
    the next value. *)
Definition py_add (total : Z + Num) (v : Num) : Z + Num :=
  match total with
  | inl i => inr (radd_int i v)
  | inr x => inr (add_num x v)
  end.

(** [sum(values)]: from the int [0], the values are added one by one from
    left to right. *)
Definition py_sum (values : list Num) : Z + Num :=
  fold_left py_add values (inl 0%Z).

(** [sum(s['val'] for s in subscores) / len(subscores)]; the sum of no
    values is the int [0], and [0 / 0] raises. *)
Definition mean_vals (subscores : list (subscore Num)) : result Num :=
  match py_sum (map val subscores) with
  | inl _ => Raise ZeroDivisionError
  | inr total => Ok (truediv_int total (Z.of_nat (length subscores)))
  end.

(** [trainer.state.eval_metrics]: dataloader label -> metric name ->
    metric, a metric being represented by what [compute()] returns. *)
Variable eval_metrics : gmap string (gmap string Num).
Variable benchmark_to_taxonomy : gmap string string.
Variable model_name : string.

(** Body of [for key in metric_keys]. *)
Definition collect_body (results : results_t Num) (key : string)
  : result (results_t Num) :=
  let parts := split "/" key in
  let dl_name := slice_1_m1 parts in
  metric_name ← last_item parts;
  if negb (contains "Accuracy" metric_name) then Ok results
  else
    match default ∅ (eval_metrics !! join "/" dl_name) !! metric_name with
    | None => Ok results
    | Some metric =>
        num_shot ← item dl_name 1;
        benchmark ← item dl_name 0;
        let record :=
          mk_subscore metric
            (if Nat.eqb (length dl_name) 3 then List.last dl_name ""
             else "no_subcat") in
        Ok (ODict.upsert num_shot []
              (ODict.upsert benchmark []
                 (ODict.upsert metric_name [] (fun l => l ++ [record])))
              results)
    end.

Definition collect (metric_keys : list string) : result (results_t Num) :=
  for_each collect_body metric_keys [].

Definition category_of (benchmark : string) : string :=
  default "" (benchmark_to_taxonomy !! benchmark).

(** Body of [for sub in subscores]. *)
Definition sub_body (num_shot benchmark : string) (df : list (ReportRow Num))
    (sub : subscore Num) : list (ReportRow Num) :=
  df ++ [mk_row (category_of benchmark) None (Some (subcat sub))
           (val sub) num_shot model_name].

(** Body of [for metric in results[num_shot][benchmark]]. *)
Definition metric_body (num_shot benchmark : string)
    (df : list (ReportRow Num)) (entry : string * list (subscore Num))
  : result (list (ReportRow Num)) :=
  let subscores := snd entry in
  match subscores with
  | [s] =>
      Ok (df ++ [mk_row (category_of benchmark) (Some benchmark) None
                   (val s) num_shot model_name])
  | _ =>
      avg ← mean_vals subscores;
      let df :=
        df ++ [mk_row (category_of benchmark) (Some benchmark)
                 (Some "Average") avg num_shot model_name] in
      Ok (fold_left (sub_body num_shot benchmark) subscores df)
  end.

Definition benchmark_body (num_shot : string) (df : list (ReportRow Num))
    (entry : string * ODict.t (list (subscore Num)))
  : result (list (ReportRow Num)) :=
  for_each (metric_body num_shot (fst entry)) (snd entry) df.

Definition num_shot_body (df : list (ReportRow Num))
    (entry : string * ODict.t (ODict.t (list (subscore Num))))
  : result (list (ReportRow Num)) :=
  for_each (benchmark_body (fst entry)) (snd entry) df.

Definition render (results : results_t Num) : result (list (ReportRow Num)) :=
  for_each num_shot_body results [].

Definition calculate_markdown_results (metric_keys : list string)
  : result (list (ReportRow Num)) :=
  results ← collect metric_keys;
  render results.
End Report.
End Eval.

(** ** The gauntlet scorer (llmfoundry/callbacks, class [ModelGauntlet]) *)

Module ModelGauntlet.

(** Modelled from the spec: [ModelGauntlet] is imported by eval.py and
    exercised by the test, but its source is not among the files at hand.
    The only weighting of spec 3. *)
Inductive Weighting : Type := EQUAL.

(** Modelled from the spec: [ModelGauntlet] is not among the source
    files.  A taxonomy leaf (spec 3). *)
Record BenchmarkDescriptor : Type := mk_benchmark {
  name : string;
  num_fewshot : Z;
  random_baseline : Q
}.

(** Modelled from the spec: [ModelGauntlet] is not among the source
    files.  A category and its benchmarks, in order (spec 3). *)
Record CategoryDescriptor : Type := mk_category {
  category_name : string;
  benchmarks : list BenchmarkDescriptor
}.

(** Modelled from the spec: [ModelGauntlet] is not among the source
    files.  The taxonomy configuration (spec 3 and 6). *)
Record Taxonomy : Type := mk_taxonomy {
  categories : list CategoryDescriptor;
  weighting : Weighting;
  subtract_random_baseline : bool;
  rescale_accuracy : bool
}.

(** Modelled from the spec: [ModelGauntlet] is not among the source
    files.  A decomposed metric key (spec 3). *)
Record MetricKey : Type := mk_key {
  benchmark_name : string;
  fewshot : Z;
  subcategory : option string;
  metric_name : string
}.

#[global] Instance MetricKey_eq_dec : EqDecision MetricKey.
Proof. solve_decision. Defined.

(** Modelled from the spec: [ModelGauntlet] is not among the source
    files.  [s] without its ending [suffix], if it ends with it. *)
Fixpoint strip_suffix (suffix s : string) : option string :=
  if String.eqb s suffix then Some ""
  else match s with
       | EmptyString => None
       | String c rest => String c <$> strip_suffix suffix rest
       end.

(** Modelled from the spec: [ModelGauntlet] is not among the source
    files.  Reads ["{n}-shot"] back into [n]; only the canonical decimal
    form that [str_int] prints is accepted, so that decomposition loses
    nothing (spec 3). *)
Definition parse_fewshot (s : string) : option Z :=
  digits ← strip_suffix "-shot" s;
  d ← NilZero.int_of_string digits;
  let n := Z.of_int d in
  if String.eqb (str_int n) digits then Some n else None.

(** Modelled from the spec: [ModelGauntlet] is not among the source
    files.  Decomposition of the wire format
    [metrics/{label}/{fewshot}-shot[/{subcategory}]/{metric_name}]
    (spec 3 and 4.3 step 1); a string of another shape has no
    decomposition. *)
Definition decompose (key : string) : option MetricKey :=
  match split "/" key with
  | [m; label; shot; metric] =>
      if String.eqb m "metrics" then
        n ← parse_fewshot shot; Some (mk_key label n None metric)
      else None
  | [m; label; shot; sub; metric] =>
      if String.eqb m "metrics" then
        n ← parse_fewshot shot; Some (mk_key label n (Some sub) metric)
      else None
  | _ => None
  end.

(** Modelled from the spec: [ModelGauntlet] is not among the source
    files.  The label under which the evaluation loop stores a key's
    metrics (spec 3). *)
Definition dataloader_label (k : MetricKey) : string :=
  benchmark_name k +:+ "/" +:+ str_int (fewshot k) +:+ "-shot" +:+
  match subcategory k with
  | Some sub => "/" +:+ sub
  | None => ""
  end.

(** The sum of a list of rationals. *)
Definition sum_Q (l : list Q) : Q := fold_right Qplus 0%Q l.

(** Modelled from the spec: [ModelGauntlet] is not among the source
    files.  The equal-weight mean of spec 4.3; undefined on the empty
    list. *)
Definition mean (l : list Q) : option Q :=
  match l with
  | [] => None
  | _ => Some (sum_Q l / inject_Z (Z.of_nat (length l)))%Q
  end.

(** Modelled from the spec: [ModelGauntlet] is not among the source
    files.  The prefix of the keys of the composite result (spec 4.3). *)
Definition result_prefix : string := "icl/metrics/model_gauntlet/".

Section Scorer.
Variable taxonomy : Taxonomy.
Variable logger_keys : list string.
(** The metric store: dataloader label -> metric name -> the value
    [compute()] returns. *)
Variable metric_store : gmap string (gmap string Q).

(** Modelled from the spec: [ModelGauntlet] is not among the source
    files.  Step 1 of spec 4.3: the index from (benchmark_name,
    fewshot) to the set of decomposed keys that match. *)
Definition index (benchmark : string) (n : Z) : list MetricKey :=
  remove_dups
    (filter (fun k => benchmark_name k = benchmark ∧ fewshot k = n)
       (omap decompose logger_keys)).

(** Modelled from the spec: [ModelGauntlet] is not among the source
    files.  [MetricStore[dataloader_label][metric_name].compute()];
    subscripting a missing entry is an error. *)
Definition raw_value (k : MetricKey) : result Q :=
  match metric_store !! dataloader_label k with
  | None => Raise (KeyError (dataloader_label k))
  | Some metrics =>
      match metrics !! metric_name k with
      | None => Raise (KeyError (metric_name k))
      | Some v => Ok v
      end
  end.

(** Modelled from the spec: [ModelGauntlet] is not among the source
    files.  Step 3 of spec 4.3, with the error of spec 7 for a baseline
    of 1 under rescaling.  The spec gives the rescaling formula for
    both flags set, the subtraction for [subtract_random_baseline]
    alone; in every other case the value is unchanged. *)
Definition rescale (b : BenchmarkDescriptor) (value : Q) : result Q :=
  if subtract_random_baseline taxonomy then
    if rescale_accuracy taxonomy then
      if Qeq_bool (random_baseline b) 1 then Raise ZeroDivisionError
      else Ok ((value - random_baseline b) / (1 - random_baseline b))%Q
    else Ok (value - random_baseline b)%Q
  else Ok value.

(** Modelled from the spec: [ModelGauntlet] is not among the source
    files.  The rescaled value of one matched key (spec 4.3 step 3). *)
Definition key_score (b : BenchmarkDescriptor) (k : MetricKey)
  : result Q :=
  value ← raw_value k;
  rescale b value.

(** Modelled from the spec: [ModelGauntlet] is not among the source
    files.  Steps 2 and 4 of spec 4.3: [Ok None] is a skipped
    benchmark; one matched key gives its value, several give their
    mean. *)
Definition benchmark_score (b : BenchmarkDescriptor)
  : result (option Q) :=
  match index (name b) (num_fewshot b) with
  | [] => Ok None
  | [k] => Some <$> key_score b k
  | ks => mean <$> mapM (key_score b) ks
  end.

(** Modelled from the spec: [ModelGauntlet] is not among the source
    files.  Step 5 of spec 4.3: the mean over the benchmarks that were
    matched; [Ok None] when none was. *)
Definition category_score (c : CategoryDescriptor) : result (option Q) :=
  scores ← mapM benchmark_score (benchmarks c);
  Ok (mean (omap id scores)).

(** Modelled from the spec: [ModelGauntlet] is not among the source
    files.  The categories that have a score, in taxonomy order (spec 4.3
    step 5). *)
Definition scored_categories : result (list (string * Q)) :=
  scores ←
    mapM (fun c => s ← category_score c; Ok (category_name c, s))
         (categories taxonomy);
  Ok (omap (fun e => pair (fst e) <$> snd e) scores).

(** Modelled from the spec: [ModelGauntlet] is not among the source
    files.  Step 6 and the output of spec 4.3: one entry per scored
    category and the overall average, which is the mean of the
    category scores and therefore exists only when some category was
    scored. *)
Definition eval_after_all : result (gmap string Q) :=
  scored ← scored_categories;
  let composite : gmap string Q :=
    fold_left (fun r e => <[result_prefix +:+ fst e := snd e]> r)
              scored ∅ in
  Ok match mean (map snd scored) with
     | Some average => <[result_prefix +:+ "average" := average]> composite
     | None => composite
     end.
End Scorer.
End ModelGauntlet.

(** ** More of llmfoundry/utils/builders.py *)

(** The factories [build_callback], [build_logger], [build_algorithm],
    [build_optimizer] and [build_scheduler]. *)
Module Factories.

(** Python values that occur as keyword arguments. *)
#[warnings="-register-all"] Inductive pyval : Type :=
| PNone
| PBool (b : bool)
| PInt (z : Z)
| PStr (s : string)
| PList (l : list pyval).

(** A constructor call: the class, the positional arguments and the
    keyword arguments it is given. *)
Record call (P : Type) : Type := mk_call {
  cls : string;
  positional : list P;
  keywords : gmap string pyval
}.
Arguments mk_call {P}.
Arguments cls {P}.
Arguments positional {P}.
Arguments keywords {P}.

(** [list(v)] *)
Definition py_list (v : pyval) : result pyval :=
  match v with
  | PList l => Ok (PList l)
  | PStr s =>
      Ok (PList (map (fun c => PStr (String c "")) (list_ascii_of_string s)))
  | PNone => Raise (OtherError "TypeError" "'NoneType' object is not iterable")
  | PBool _ => Raise (OtherError "TypeError" "'bool' object is not iterable")
  | PInt _ => Raise (OtherError "TypeError" "'int' object is not iterable")
  end.

Section Build.
Context {P Obj : Type}.
(** Running a constructor of composer or llmfoundry; it may raise. *)
Variable new : call P -> result Obj.

(** [build_callback].  The [kwargs] dict belongs to the caller and
    [kwargs.pop] changes it, so the function also returns the dict as it
    leaves it. *)
Definition build_callback (name : string) (kwargs : gmap string pyval)
  : result Obj * gmap string pyval :=
  if String.eqb name "lr_monitor" then
    (new (mk_call "LRMonitor" [] ∅), kwargs)
  else if String.eqb name "memory_monitor" then
    (new (mk_call "MemoryMonitor" [] ∅), kwargs)
  else if String.eqb name "speed_monitor" then
    (new (mk_call "SpeedMonitor" []
            {["window_size" := default (PInt 1) (kwargs !! "window_size");
              "gpu_flops_available" :=
                default PNone (kwargs !! "gpu_flops_available")]}),
     kwargs)
  else if String.eqb name "fdiff" then
    (new (mk_call "FDiffMetrics" [] kwargs), kwargs)
  else if String.eqb name "runtime_estimator" then
    (new (mk_call "RuntimeEstimator" [] ∅), kwargs)
  else if String.eqb name "optimizer_monitor" then
    (new (mk_call "OptimizerMonitor" []
            {["log_optimizer_metrics" :=
                default (PBool true) (kwargs !! "log_optimizer_metrics")]}),
     kwargs)
  else if String.eqb name "generate_callback" then
    match kwargs !! "prompts" with
    | None => (Raise (KeyError "prompts"), kwargs)
    | Some prompts =>
        let kwargs := delete "prompts" kwargs in
        (prompts ← py_list prompts;
         new (mk_call "Generate" [] (<["prompts" := prompts]> kwargs)),
         kwargs)
    end
  else if String.eqb name "global_lr_scaling" then
    (new (mk_call "GlobalLRScaling" [] kwargs), kwargs)
  else if String.eqb name "layer_freezing" then
    (new (mk_call "LayerFreezing" [] kwargs), kwargs)
  else if String.eqb name "mono_ckpt_saver" then
    (new (mk_call "MonolithicCheckpointSaver" [] kwargs), kwargs)
  else if String.eqb name "scheduled_gc" then
    (new (mk_call "ScheduledGarbageCollector" [] kwargs), kwargs)
  else if String.eqb name "early_stopper" then
    (new (mk_call "EarlyStopper" [] kwargs), kwargs)
  else
    (Raise (ValueError ("Not sure how to build callback: " +:+ name)), kwargs).

Definition build_logger (name : string) (kwargs : gmap string pyval)
  : result Obj :=
  if String.eqb name "wandb" then new (mk_call "WandBLogger" [] kwargs)
  else if String.eqb name "tensorboard" then
    new (mk_call "TensorboardLogger" [] kwargs)
  else if String.eqb name "mlflow" then new (mk_call "MLFlowLogger" [] kwargs)
  else if String.eqb name "inmemory" then
    new (mk_call "InMemoryLogger" [] kwargs)
  else Raise (ValueError ("Not sure how to build logger: " +:+ name)).

Definition build_algorithm (name : string) (kwargs : gmap string pyval)
  : result Obj :=
  if String.eqb name "gradient_clipping" then
    new (mk_call "algorithms.GradientClipping" [] kwargs)
  else if String.eqb name "alibi" then
    new (mk_call "algorithms.Alibi" [] kwargs)
  else if String.eqb name "fused_layernorm" then
    new (mk_call "algorithms.FusedLayerNorm" [] kwargs)
  else if String.eqb name "gated_linear_units" then
    new (mk_call "algorithms.GatedLinearUnits" [] kwargs)
  else if String.eqb name "low_precision_layernorm" then
    new (mk_call "algorithms.LowPrecisionLayerNorm" [] kwargs)
  else Raise (ValueError ("Not sure how to build algorithm: " +:+ name)).

(** [build_optimizer]; [parameters] is [model.parameters()], which is
    evaluated only in a branch that builds an optimizer. *)
Definition build_optimizer (parameters : P) (name : string)
    (optimizer_config : gmap string pyval) : result Obj :=
  if String.eqb name "decoupled_adamw" then
    new (mk_call "DecoupledAdamW" [parameters] optimizer_config)
  else if String.eqb name "decoupled_lionw" then
    new (mk_call "DecoupledLionW" [parameters] optimizer_config)
  else if String.eqb name "clip_lion" then
    new (mk_call "DecoupledClipLion" [parameters] optimizer_config)
  else if String.eqb name "adalr_lion" then
    new (mk_call "DecoupledAdaLRLion" [parameters] optimizer_config)
  else if String.eqb name "decoupled_lionw_8b" then
    new (mk_call "DecoupledLionW_8bit" [parameters] optimizer_config)
  else Raise (ValueError ("Not sure how to build optimizer: " +:+ name)).

Definition build_scheduler (name : string)
    (scheduler_config : gmap string pyval) : result Obj :=
  if String.eqb name "constant_with_warmup" then
    new (mk_call "ConstantWithWarmupScheduler" [] scheduler_config)
  else if String.eqb name "cosine_with_warmup" then
    new (mk_call "CosineAnnealingWithWarmupScheduler" [] scheduler_config)
  else if String.eqb name "linear_decay_with_warmup" then
    new (mk_call "LinearWithWarmupScheduler" [] scheduler_config)
  else Raise (ValueError ("Not sure how to build scheduler: " +:+ name)).
End Build.
End Factories.

(** The gauntlet configuration, a [DictConfig] with the shape of the YAML
    in tests/test_model_gauntlet.py. *)
Module GauntletCfg.
Record benchmark : Type := mk_benchmark {
  name : string;
  num_fewshot : Z;
  random_baseline : Q
}.

Record category : Type := mk_category {
  category_name : string;
  benchmarks : list benchmark
}.

Record t : Type := mk {
  weighting : string;
  subtract_random_baseline : bool;
  rescale_accuracy : bool;
  categories : list category
}.
End GauntletCfg.

(** [build_icl_data_and_gauntlet] *)
Module GauntletSetup.
Import Builders.

(** The [icl_tasks] argument: a path to a YAML file or an inline list. *)
Inductive tasks_config : Type :=
| TasksPath (path : string)
| TasksList (icl_tasks : list IclCfg.t).

(** The [eval_gauntlet_config] argument: a path, an inline [DictConfig],
    or a value of another type, of which only [type(...)] is printed. *)
Inductive gauntlet_config : Type :=
| GauntletPath (path : string)
| GauntletDict (cfg : GauntletCfg.t)
| GauntletOther (type_repr : string).

Section Setup.
Context {DataLoader Callback : Type}.
Variable get_icl_task_dataloader :
  LoaderArgs.t -> result (dataloaders DataLoader).
(** [om.load(path).icl_tasks] and [om.load(path).eval_gauntlet] *)
Variable load_icl_tasks : string -> result (list IclCfg.t).
Variable load_eval_gauntlet : string -> result GauntletCfg.t.
(** [dataloader.num_samples] of a dataloader *)
Variable num_samples : DataLoader -> Z.
(** The [EvalGauntlet] constructor, called with the configuration as
    keyword arguments after [logger_keys] and [benchmark_sizes] were
    stored in it *)
Variable EvalGauntlet :
  GauntletCfg.t -> list string -> gmap string Z -> result Callback.
(** [os.getcwd()] *)
Variable cwd : string.

(** [build_icl_evaluators] with its [icl_tasks] argument as the code
    accepts it, and [destination_dir] left at its default. *)
Definition build_icl_evaluators_from (icl_tasks : tasks_config)
    (tokenizer : Tokenizer.t) (default_max_seq_len default_batch_size : Z)
    (icl_subset_num_batches : option Z)
  : result (list (Evaluator.t (dataloaders DataLoader)) * list string) :=
  icl_tasks_list ←
    match icl_tasks with
    | TasksPath path => load_icl_tasks path
    | TasksList l => Ok l
    end;
  build_icl_evaluators get_icl_task_dataloader tokenizer default_max_seq_len
    default_batch_size cwd icl_subset_num_batches icl_tasks_list.

(** [e.dataloader.num_samples]; a dict has no such attribute.  The
    evaluators the program builds hold single dataloaders, composer's
    [Evaluator] accepting no dict. *)
Definition evaluator_num_samples (e : Evaluator.t (dataloaders DataLoader))
  : result Z :=
  match Evaluator.dataloader e with
  | SingleLoader dl => Ok (num_samples dl)
  | LoaderDict _ => Raise (AttributeError "num_samples")
  end.

(** [{e.label: e.dataloader.num_samples for e in icl_evaluators}] *)
Definition benchmark_sizes
    (icl_evaluators : list (Evaluator.t (dataloaders DataLoader)))
  : result (gmap string Z) :=
  for_each
    (fun sizes e =>
       n ← evaluator_num_samples e; Ok (<[Evaluator.label e := n]> sizes))
    icl_evaluators ∅.

Definition build_icl_data_and_gauntlet (icl_tasks_config : tasks_config)
    (eval_gauntlet_config : option gauntlet_config) (tokenizer : Tokenizer.t)
    (device_eval_batch_size icl_seq_len : Z)
    (icl_subset_num_batches : option Z)
  : result (list (Evaluator.t (dataloaders DataLoader)) * list string
            * option Callback) :=
  built ←
    build_icl_evaluators_from icl_tasks_config tokenizer icl_seq_len
      device_eval_batch_size icl_subset_num_batches;
  let icl_evaluators := fst built in
  let logger_keys := snd built in
  match eval_gauntlet_config with
  | None => Ok (icl_evaluators, logger_keys, None)
  | Some config =>
      eval_gauntlet ←
        match config with
        | GauntletPath path => load_eval_gauntlet path
        | GauntletDict cfg => Ok cfg
        | GauntletOther type_repr =>
            Raise (ValueError
                     ("Got invalid type for eval_gauntlet_config: "
                        +:+ type_repr))
        end;
      sizes ← benchmark_sizes icl_evaluators;
      eval_gauntlet_cb ← EvalGauntlet eval_gauntlet logger_keys sizes;
      Ok (icl_evaluators, logger_keys, Some eval_gauntlet_cb)
  end.
End Setup.
End GauntletSetup.

(** ** More of scripts/eval/eval.py: the tables [main] builds *)

Module EvalMain.

(** The loop of [main] that fills [benchmark_to_taxonomy]; without a
    gauntlet the dict stays empty. *)
Definition benchmark_to_taxonomy (model_gauntlet : option GauntletCfg.t)
  : gmap string string :=
  match model_gauntlet with
  | None => ∅
  | Some g =>
      fold_left
        (fun m t =>
           fold_left
             (fun m b =>
                <[GauntletCfg.name b := GauntletCfg.category_name t]> m)
             (GauntletCfg.benchmarks t) m)
        (GauntletCfg.categories g) ∅
  end.

(** A cell of the gauntlet results row. *)
Inductive cell : Type :=
| CStr (s : string)
| CNum (q : Q).

(** [composite_scores[key]] *)
Definition subscript (composite_scores : gmap string Q) (key : string)
  : result Q :=
  match composite_scores !! key with
  | Some v => Ok v
  | None => Raise (KeyError key)
  end.

(** [row.update({k: v})] for one pair. *)
Definition row_set (k : string) (v : cell) (row : ODict.t cell)
  : ODict.t cell :=
  ODict.upsert k v (fun _ => v) row.

(** The row [main] appends to [model_gauntlet_df]: the dict comprehension
    over the categories is evaluated first, then merged into the row, then
    the average is merged. *)
Definition gauntlet_row (model_name : string)
    (categories : list GauntletCfg.category)
    (composite_scores : gmap string Q) : result (ODict.t cell) :=
  let row := [("model_name", CStr model_name)] in
  scores ←
    for_each
      (fun d t =>
         v ← subscript composite_scores
               ("icl/metrics/model_gauntlet/"
                  +:+ GauntletCfg.category_name t);
         Ok (row_set (GauntletCfg.category_name t) (CNum v) d))
      categories [];
  let row := fold_left (fun row e => row_set (fst e) (snd e) row) scores row in
  average ← subscript composite_scores "icl/metrics/model_gauntlet/average";
  Ok (row_set "average" (CNum average) row).
End EvalMain.

(** ** tests/test_model_gauntlet.py: [MockState] *)

Module MockState.

(** An [InContextLearningLMAccuracy] metric as the test sets it up: the
    two tensors assigned to it. *)
Record lm_accuracy (Tensor : Type) : Type := mk_lm_accuracy {
  correct : Tensor;
  total : Tensor
}.
Arguments mk_lm_accuracy {Tensor}.
Arguments correct {Tensor}.
Arguments total {Tensor}.

Section Mock.
Context {Float Tensor : Type}.
(** [x * i] for a float [x] and an int [i] *)
Variable mul_int : Float -> Z -> Float.
(** [torch.tensor(x)] for a float and for an int *)
Variable tensor : Float -> Tensor.
Variable tensor_int : Z -> Tensor.

(** [MockState.__init__]: every key's dataloader label gets a fresh dict
    with one metric, whose [correct] and [total] are
    [torch.tensor(accuracy * 100)] and [torch.tensor(100)]. *)
Definition eval_metrics (logger_keys : list string) (accuracy : Float)
  : gmap string (gmap string (lm_accuracy Tensor)) :=
  fold_left
    (fun metrics key =>
       let dl_name := join "/" (slice_1_m1 (split "/" key)) in
       <[dl_name :=
           <["InContextLearningLMAccuracy" :=
               mk_lm_accuracy (tensor (mul_int accuracy 100%Z))
                 (tensor_int 100%Z)]> ∅]> metrics)
    logger_keys ∅.
End Mock.
End MockState.

(** * Specification-side definitions *)

(** ** Task resolution *)

Module ResolverSpec.
Import Builders.

(** The four required keys are present and [dataset_uri] is not null. *)
Definition required_present (c : IclCfg.t) : bool :=
  bool_decide (is_Some (IclCfg.label c)) &&
  match IclCfg.dataset_uri c with Some (Some _) => true | _ => false end &&
  bool_decide (is_Some (IclCfg.icl_task_type c)) &&
  bool_decide (is_Some (IclCfg.num_fewshot c)).

(** The documented default metric of each task type. *)
Definition documented_metric_names : ODict.t (list string) :=
  [("language_modeling", ["InContextLearningLMAccuracy"]);
   ("multiple_choice", ["InContextLearningMultipleChoiceAccuracy"]);
   ("schema", ["InContextLearningMultipleChoiceAccuracy"]);
   ("question_answering", ["InContextLearningQAAccuracy"]);
   ("code_evaluation", ["InContextLearningCodeEvalAccuracy"])].

(** An entry with no key at all. *)
Definition empty_cfg : IclCfg.t :=
  IclCfg.mk None None None None None None None None None None None None
    None.

(** An entry with the four required keys and a task type outside the
    table. *)
Definition cfg_unknown_type : IclCfg.t :=
  IclCfg.mk (Some "jeopardy") (Some (Some "data/jeopardy.jsonl"))
    (Some "ranking") (Some [0%Z]) None None None None None None None None
    None.

(** A minimal well-formed entry. *)
Definition cfg_minimal : IclCfg.t :=
  IclCfg.mk (Some "jeopardy") (Some (Some "data/jeopardy.jsonl"))
    (Some "language_modeling") (Some [10%Z]) None None None None None None
    None None None.
End ResolverSpec.

(** ** Evaluator units and their canonical keys *)

Module KeyIndex.
Import Builders.

(** An evaluator unit: one (task, fewshot) pair, or one (task, fewshot,
    subcategory) triple of a categorized task, with the task's metric
    names and the dataloader it evaluates. *)
Record eval_unit (DataLoader : Type) : Type := mk_unit {
  base_label : string;
  fewshot : Z;
  subcategory : option string;
  unit_metric_names : list string;
  unit_dataloader : dataloaders DataLoader
}.
Arguments mk_unit {DataLoader}.
Arguments base_label {DataLoader}.
Arguments fewshot {DataLoader}.
Arguments subcategory {DataLoader}.
Arguments unit_metric_names {DataLoader}.
Arguments unit_dataloader {DataLoader}.

(** The canonical key of one metric of a unit. *)
Definition canonical_key {DataLoader} (u : eval_unit DataLoader)
    (metric_name : string) : string :=
  match subcategory u with
  | None =>
      "metrics/" +:+ base_label u +:+ "/" +:+ str_int (fewshot u)
        +:+ "-shot/" +:+ metric_name
  | Some sub =>
      "metrics/" +:+ base_label u +:+ "/" +:+ str_int (fewshot u)
        +:+ "-shot/" +:+ sub +:+ "/" +:+ metric_name
  end.

(** The keys of a unit: one per metric name, in the task's order. *)
Definition canonical_keys {DataLoader} (u : eval_unit DataLoader)
  : list string :=
  map (canonical_key u) (unit_metric_names u).

(** The label of the evaluator of a unit. *)
Definition unit_label {DataLoader} (u : eval_unit DataLoader) : string :=
  match subcategory u with
  | None => base_label u +:+ "/" +:+ str_int (fewshot u) +:+ "-shot"
  | Some sub =>
      base_label u +:+ "/" +:+ str_int (fewshot u) +:+ "-shot/" +:+ sub
  end.

Section Units.
Context {DataLoader : Type}.
Variable loader : LoaderArgs.t -> result (dataloaders DataLoader).
Variable tok : Tokenizer.t.
Variables dms dbs : Z.
Variable dir : string.

(** The units of one (resolved task, fewshot) pair: the loader is asked
    for the data; a task with [has_categories] set whose data comes
    back as a dict has one unit per subcategory, any other task has a
    single unit. *)
Definition fewshot_units (c : IclCfg.t) (n : Z)
  : result (list (eval_unit DataLoader)) :=
  base ← IclCfg.getattr "label" (IclCfg.label c);
  ms ← IclCfg.getattr "metric_names" (IclCfg.metric_names c);
  kwargs ← loader_kwargs tok dir c n;
  dls ← loader kwargs;
  Ok match IclCfg.has_categories c, dls with
     | Some true, LoaderDict d =>
         map (fun e => mk_unit base n (Some (fst e)) ms
                         (SingleLoader (snd e))) d
     | _, _ => [mk_unit base n None ms dls]
     end.

(** The units of one raw task entry: resolve it, then expand it over
    its [num_fewshot] list. *)
Definition task_units (c : IclCfg.t)
  : result (list (eval_unit DataLoader)) :=
  c' ← _validate_cfg dms dbs c;
  nums ← IclCfg.getattr "num_fewshot" (IclCfg.num_fewshot c');
  flat_mapM (fewshot_units c') nums.

Definition all_units (tasks : list IclCfg.t)
  : result (list (eval_unit DataLoader)) :=
  flat_mapM task_units tasks.

(** The evaluator built for a unit; only an uncategorized unit is
    given the subset cap. *)
Definition evaluator_of (sub : option Z) (u : eval_unit DataLoader)
  : Evaluator.t (dataloaders DataLoader) :=
  Evaluator.mk (unit_label u) (unit_dataloader u) (unit_metric_names u)
    (match subcategory u with None => sub | Some _ => None end).
End Units.

(** A stand-in for the dataset loader: a categorized task gets two
    subcategories, any other task a single dataloader, named after the
    destination file. *)
Definition demo_loader (a : LoaderArgs.t) : result (dataloaders string) :=
  if LoaderArgs.has_categories a then
    Ok (LoaderDict [("science", "dl-science"); ("history", "dl-history")])
  else Ok (SingleLoader (LoaderArgs.destination_path a)).

Definition demo_tokenizer : Tokenizer.t := Tokenizer.mk None (Some 0%Z).

(** The first two tasks of the gauntlet test, the second one at two
    few-shot settings. *)
Definition demo_tasks : list IclCfg.t :=
  [IclCfg.mk (Some "jeopardy")
     (Some (Some "eval/local_data/world_knowledge/jeopardy_all.jsonl"))
     (Some "language_modeling") (Some [10%Z]) None None None
     (Some (String "010" "Answer: ")) None None None None (Some true);
   IclCfg.mk (Some "bigbench_qa_wikidata")
     (Some (Some "eval/local_data/world_knowledge/bigbench_qa_wikidata.jsonl"))
     (Some "language_modeling") (Some [0%Z; 10%Z]) None None None None None
     None None None None].
End KeyIndex.

(** ** Model configs and constructors of the examples *)

Module RetryExample.

(** A model config of the examples holds at most a name; reading the
    name of a config without one raises. *)
Definition read_name (model_cfg : option string) : result string :=
  match model_cfg with
  | Some name => Ok name
  | None => Raise (AttributeError "name")
  end.

(** The model constructor of the example: the n-th call raises a
    [RuntimeError] that carries n. *)
Definition failing_construct (n : nat) (_ : option string)
    (_ : Tokenizer.t) : result unit :=
  Raise (OtherError "RuntimeError" (str_int (Z.of_nat n))).
End RetryExample.

(** ** Groups of the report *)

Module ReportSpec.
Import Eval.

Section Groups.
Context {Num : Type} {arith : Arith Num}.

(** A group of accuracy records: the few-shot label, the benchmark, the
    metric name and the records collected under them. *)
Definition group : Type := string * string * string * list (subscore Num).

(** The groups of a [results] dict, in iteration order. *)
Definition groups (results : results_t Num) : list group :=
  flat_map (fun e1 =>
    flat_map (fun e2 =>
      map (fun e3 => (fst e1, fst e2, fst e3, snd e3)) (snd e2))
      (snd e1))
    results.

(** The mean of a non-empty list of values in their own arithmetic: zero
    plus the first value, then the other values added one after the other
    in list order, and the total divided by the number of values.  No
    other order of summation is meant. *)
Definition mean_of (l : list Num) : option Num :=
  match l with
  | [] => None
  | x :: rest =>
      Some (truediv_int (fold_left add_num rest (radd_int 0 x))
              (Z.of_nat (length l)))
  end.

(** A dict whose keys are distinct and whose values satisfy [P]. *)
Definition wf_dict {V} (P : V -> Prop) (d : ODict.t V) : Prop :=
  NoDup (map fst d) /\ Forall (fun e => P (snd e)) d.

(** Keys are unique at each level of a [results] dict and no group is
    empty. *)
Definition wf_results (results : results_t Num) : Prop :=
  wf_dict (wf_dict (wf_dict (fun subscores => subscores <> []))) results.

(** The rows the report shows for one group. *)
Definition group_rows (category_of : string -> string) (model_name : string)
    (g : group) : list (ReportRow Num) :=
  let '(num_shot, benchmark, _, subscores) := g in
  match subscores with
  | [] => []
  | [s] =>
      [mk_row (category_of benchmark) (Some benchmark) None (val s) num_shot
         model_name]
  | s :: rest =>
      mk_row (category_of benchmark) (Some benchmark) (Some "Average")
        (truediv_int
           (fold_left add_num (map val rest) (radd_int 0 (val s)))
           (Z.of_nat (length subscores)))
        num_shot model_name
      :: map (fun sub =>
                mk_row (category_of benchmark) None (Some (subcat sub))
                  (val sub) num_shot model_name)
             subscores
  end.

(** The rows [blk] shown for a group have the expected subtasks and
    accuracies: a single row without subtask for a single record; for
    several records the average row, then one row per record. *)
Definition rows_match_group (g : group) (blk : list (ReportRow Num))
  : Prop :=
  let subscores := snd g in
  (forall s, subscores = [s] ->
     exists row,
       blk = [row] /\ Subtask row = None /\ Accuracy row = val s) /\
  ((1 < length subscores)%nat ->
     exists average rest,
       blk = average :: rest /\
       length blk = S (length subscores) /\
       Subtask average = Some "Average" /\
       mean_of (map val subscores) = Some (Accuracy average) /\
       map Subtask rest = map (fun s => Some (subcat s)) subscores /\
       map Accuracy rest = map val subscores).

(** The rows [blk] shown for a group of several records have the expected
    benchmark column: the name on the average row, nothing after it. *)
Definition benchmark_column_ok (g : group) (blk : list (ReportRow Num))
  : Prop :=
  let '(_, benchmark, _, subscores) := g in
  (1 < length subscores)%nat ->
  exists average rest,
    blk = average :: rest /\
    Subtask average = Some "Average" /\
    Benchmark average = Some benchmark /\
    length rest = length subscores /\
    Forall (fun row => Benchmark row = None) rest.
End Groups.

(** A key with at least a benchmark and a few-shot component between
    its first and its last component. *)
Definition long_key (key : string) : Prop :=
  (4 <= length (split "/" key))%nat.

(** The arithmetic of the examples: Python floats, that is IEEE 754
    binary64 numbers.  An int enters an operation as the float of the same
    value, which is exact below 2^53. *)
Fixpoint float_of_pos (p : positive) : PrimFloat.float :=
  match p with
  | xH => PrimFloat.one
  | xO p => PrimFloat.mul PrimFloat.two (float_of_pos p)
  | xI p =>
      PrimFloat.add (PrimFloat.mul PrimFloat.two (float_of_pos p))
        PrimFloat.one
  end.

Definition float_of_int (z : Z) : PrimFloat.float :=
  match z with
  | Z0 => PrimFloat.zero
  | Zpos p => float_of_pos p
  | Zneg p => PrimFloat.opp (float_of_pos p)
  end.

#[export] Instance float_arith : Arith PrimFloat.float := {
  radd_int i x := PrimFloat.add (float_of_int i) x;
  add_num := PrimFloat.add;
  truediv_int x n := PrimFloat.div x (float_of_int n)
}.

(** The float [n / d]. *)
Definition ratio (n d : Z) : PrimFloat.float :=
  PrimFloat.div (float_of_int n) (float_of_int d).

(** An evaluation state for the keys of the example task list. *)
Definition demo_metrics : gmap string (gmap string PrimFloat.float) :=
  list_to_map
    [("jeopardy/10-shot/science",
      {["InContextLearningLMAccuracy" := ratio 1 2]});
     ("jeopardy/10-shot/history",
      {["InContextLearningLMAccuracy" := ratio 1 4]});
     ("bigbench_qa_wikidata/0-shot",
      {["InContextLearningLMAccuracy" := ratio 1 8]});
     ("bigbench_qa_wikidata/10-shot",
      {["InContextLearningLMAccuracy" := ratio 3 8]})].

Definition demo_keys : list string :=
  ["metrics/jeopardy/10-shot/science/InContextLearningLMAccuracy";
   "metrics/jeopardy/10-shot/history/InContextLearningLMAccuracy";
   "metrics/bigbench_qa_wikidata/0-shot/InContextLearningLMAccuracy";
   "metrics/bigbench_qa_wikidata/10-shot/InContextLearningLMAccuracy"].

Definition demo_taxonomy_map : gmap string string :=
  {["jeopardy" := "world_knowledge"]}.

Definition demo_report : list (ReportRow PrimFloat.float) :=
  [mk_row "world_knowledge" (Some "jeopardy") (Some "Average")
     (ratio 3 8) "10-shot" "mpt-7b";
   mk_row "world_knowledge" None (Some "science") (ratio 1 2) "10-shot"
     "mpt-7b";
   mk_row "world_knowledge" None (Some "history") (ratio 1 4) "10-shot"
     "mpt-7b";
   mk_row "" (Some "bigbench_qa_wikidata") None (ratio 3 8) "10-shot"
     "mpt-7b";
   mk_row "" (Some "bigbench_qa_wikidata") None (ratio 1 8) "0-shot"
     "mpt-7b"].

(** Three values whose float sum depends on the order of addition. *)
Definition order_sensitive : list PrimFloat.float :=
  [ratio 1 10; ratio 2 10; ratio 3 10].
End ReportSpec.

(** ** Raw means and the run of the gauntlet test *)

Module GauntletSpec.
Import ModelGauntlet.

(** Two outcomes agree: the same exception, or results related by [R]. *)
Inductive res_rel {A} (R : A -> A -> Prop) : result A -> result A -> Prop :=
| res_rel_Ok a b : R a b -> res_rel R (Ok a) (Ok b)
| res_rel_Raise e : res_rel R (Raise e) (Raise e).

(** Modelled from the spec: [ModelGauntlet] is not among the source
    files.  The mean of the raw values of a benchmark's matched keys, with
    no rescaling at all. *)
Definition raw_benchmark_mean (logger_keys : list string)
    (metric_store : gmap string (gmap string Q)) (b : BenchmarkDescriptor)
  : result (option Q) :=
  match index logger_keys (name b) (num_fewshot b) with
  | [] => Ok None
  | ks => mean <$> mapM (raw_value metric_store) ks
  end.

(** Modelled from the spec: [ModelGauntlet] is not among the source
    files.  The mean, over the matched benchmarks of a category, of the
    means of their raw values. *)
Definition raw_category_mean (logger_keys : list string)
    (metric_store : gmap string (gmap string Q)) (c : CategoryDescriptor)
  : result (option Q) :=
  scores ← mapM (raw_benchmark_mean logger_keys metric_store) (benchmarks c);
  Ok (mean (omap id scores)).

(** The benchmark is matched by no key of the run. *)
Definition unmatched (logger_keys : list string) (b : BenchmarkDescriptor)
  : Prop :=
  index logger_keys (name b) (num_fewshot b) = [].

(** Every matched benchmark of the taxonomy has baseline 0 and every
    matched key reports the raw value [q]. *)
Definition reports_constant (taxonomy : Taxonomy) (logger_keys : list string)
    (metric_store : gmap string (gmap string Q)) (q : Q) : Prop :=
  forall c b, c ∈ categories taxonomy -> b ∈ benchmarks c ->
    (~ unmatched logger_keys b -> (random_baseline b == 0)%Q) /\
    (forall k, k ∈ index logger_keys (name b) (num_fewshot b) ->
               exists v, raw_value metric_store k = Ok v /\ (v == q)%Q).

(** A boolean rendering of [reports_constant], for checking it on a
    concrete run. *)
Definition reports_constantb (taxonomy : Taxonomy)
    (logger_keys : list string) (metric_store : gmap string (gmap string Q))
    (q : Q) : bool :=
  forallb (fun c =>
    forallb (fun b =>
      let ks := index logger_keys (name b) (num_fewshot b) in
      (match ks with [] => true | _ => Qeq_bool (random_baseline b) 0 end) &&
      forallb (fun k =>
                 match raw_value metric_store k with
                 | Ok v => Qeq_bool v q
                 | Raise _ => false
                 end) ks)
      (benchmarks c))
    (categories taxonomy).

(** The taxonomy of the gauntlet test. *)
Definition test_taxonomy : Taxonomy :=
  mk_taxonomy
    [mk_category "world_knowledge"
       [mk_benchmark "jeopardy" 10 0;
        mk_benchmark "bigbench_qa_wikidata" 10 0;
        mk_benchmark "arc_easy" 10 (1 # 4);
        mk_benchmark "arc_challenge" 10 (1 # 4);
        mk_benchmark "mmlu" 10 (1 # 4);
        mk_benchmark "bigbench_misconceptions" 10 (1 # 2)];
     mk_category "commonsense_reasoning"
       [mk_benchmark "copa" 0 (1 # 2);
        mk_benchmark "piqa" 10 (1 # 2);
        mk_benchmark "openbook_qa" 0 (1 # 4);
        mk_benchmark "bigbench_novel_concepts" 10 (1 # 4);
        mk_benchmark "bigbench_strange_stories" 10 (1 # 2);
        mk_benchmark "bigbench_strategy_qa" 10 (1 # 2)];
     mk_category "language_understanding"
       [mk_benchmark "lambada_openai" 0 0;
        mk_benchmark "hellaswag" 10 (1 # 4);
        mk_benchmark "winograd" 0 (1 # 2);
        mk_benchmark "winogrande" 0 (1 # 2);
        mk_benchmark "bigbench_conlang_translation" 0 0;
        mk_benchmark "bigbench_language_identification" 10 (1 # 4);
        mk_benchmark "bigbench_conceptual_combinations" 10 (1 # 4)];
     mk_category "symbolic_problem_solving"
       [mk_benchmark "bigbench_elementary_math_qa" 10 (1 # 4);
        mk_benchmark "bigbench_dyck_languages" 10 0;
        mk_benchmark "bigbench_cs_algorithms" 10 0;
        mk_benchmark "bigbench_logical_deduction" 10 (1 # 4);
        mk_benchmark "bigbench_operators" 10 0;
        mk_benchmark "bigbench_repeat_copy_logic" 10 0;
        mk_benchmark "simple_arithmetic_withspaces" 10 0;
        mk_benchmark "simple_arithmetic_nospaces" 10 0;
        mk_benchmark "math_qa" 10 (1 # 4);
        mk_benchmark "logi_qa" 10 (1 # 4)];
     mk_category "reading_comprehension"
       [mk_benchmark "pubmed_qa_labeled" 10 0;
        mk_benchmark "squad" 10 0;
        mk_benchmark "bigbench_understanding_fables" 10 (1 # 4);
        mk_benchmark "boolq" 10 (1 # 2)]]
    EQUAL true true.

(** The dataloader labels of the test's twelve tasks; [jeopardy] is
    categorized (two of its subcategories are listed). *)
Definition test_labels : list string :=
  ["jeopardy/10-shot/science"; "jeopardy/10-shot/world_history";
   "bigbench_qa_wikidata/10-shot"; "lambada_openai/0-shot";
   "bigbench_conlang_translation/0-shot"; "bigbench_dyck_languages/10-shot";
   "bigbench_cs_algorithms/10-shot"; "bigbench_operators/10-shot";
   "bigbench_repeat_copy_logic/10-shot";
   "simple_arithmetic_nospaces/10-shot";
   "simple_arithmetic_withspaces/10-shot"; "pubmed_qa_labeled/10-shot";
   "squad/10-shot"].

Definition test_logger_keys : list string :=
  map (fun l => "metrics/" +:+ l +:+ "/InContextLearningLMAccuracy")
      test_labels.

(** [MockState]: every dataloader label reports 25 correct out of 100. *)
Definition test_store : gmap string (gmap string Q) :=
  list_to_map
    (map (fun l => (l, {["InContextLearningLMAccuracy" := (25 # 100)%Q]}))
         test_labels).
End GauntletSpec.

(** ** Further notions used to state properties of the code *)

Module ExtraSpec.
Import Builders.

(** Every key [_validate_cfg] reads or fills is present, and
    [dataset_uri] is not null. *)
Definition complete (c : IclCfg.t) : Prop :=
  is_Some (IclCfg.label c) /\
  (exists uri, IclCfg.dataset_uri c = Some (Some uri)) /\
  is_Some (IclCfg.icl_task_type c) /\
  is_Some (IclCfg.num_fewshot c) /\
  is_Some (IclCfg.metric_names c) /\
  is_Some (IclCfg.prompt_string c) /\
  is_Some (IclCfg.example_delimiter c) /\
  is_Some (IclCfg.continuation_delimiter c) /\
  is_Some (IclCfg.max_seq_len c) /\
  is_Some (IclCfg.batch_size c) /\
  is_Some (IclCfg.pass_at_k c) /\
  is_Some (IclCfg.num_beams c).

(** The character [c] occurs in [s]. *)
Fixpoint has_char (c : ascii) (s : string) : bool :=
  match s with
  | EmptyString => false
  | String a rest => Ascii.eqb a c || has_char c rest
  end.

End ExtraSpec.

(** ** Further notions used to state properties of the report *)

Module ReportExtraSpec.
Import Eval ReportSpec.

Section Keys.
Context {Num : Type}.

(** The key is one the report uses: its last component contains
    ["Accuracy"] and the evaluation state has a metric of that name under
    the key's dataloader label. *)
Definition accepted (eval_metrics : gmap string (gmap string Num))
    (key : string) : bool :=
  let parts := split "/" key in
  match last_item parts with
  | Ok metric_name =>
      contains "Accuracy" metric_name &&
      bool_decide
        (is_Some (default ∅ (eval_metrics !! join "/" (slice_1_m1 parts))
                    !! metric_name))
  | Raise _ => false
  end.

(** The key has fewer than four components. *)
Definition short_key (key : string) : bool :=
  Nat.ltb (length (split "/" key)) 4.

(** The group a key belongs to: its third component, its second component
    and its last component. *)
Definition key_group (key : string) : string * string * string :=
  let parts := split "/" key in
  (nth 2 parts "", nth 1 parts "", List.last parts "").

(** The record a key contributes: the value of its metric and, when the
    key has exactly five components, its fourth component as
    subcategory.  [missing] fills in for a key the state has no metric
    for; the report uses no such key. *)
Definition key_subscore (missing : Num)
    (eval_metrics : gmap string (gmap string Num)) (key : string)
  : subscore Num :=
  let parts := split "/" key in
  mk_subscore
    (default missing
       (default ∅ (eval_metrics !! join "/" (slice_1_m1 parts))
          !! List.last parts ""))
    (if Nat.eqb (length parts) 5 then nth 3 parts "" else "no_subcat").

Definition same_group (g1 g2 : string * string * string) : bool :=
  String.eqb (fst (fst g1)) (fst (fst g2)) &&
  String.eqb (snd (fst g1)) (snd (fst g2)) &&
  String.eqb (snd g1) (snd g2).

(** [results[num_shot][benchmark][metric]], empty when a key is
    missing. *)
Definition lookup_group (results : results_t Num)
    (g : string * string * string) : list (subscore Num) :=
  default []
    (d1 ← ODict.get (fst (fst g)) results;
     d2 ← ODict.get (snd (fst g)) d1;
     ODict.get (snd g) d2).

(** The number of rows the report shows for a group of [n] records. *)
Definition rows_of_size (n : nat) : nat :=
  match n with
  | O => 0
  | 1 => 1
  | _ => S n
  end.

(** [results[g1][g2][g3].append(record)], the missing levels being
    created on the way. *)
Definition add_record (g : string * string * string)
    (record : subscore Num) (results : results_t Num) : results_t Num :=
  ODict.upsert (fst (fst g)) []
    (ODict.upsert (snd (fst g)) []
       (ODict.upsert (snd g) [] (fun l => l ++ [record])))
    results.
End Keys.

(** An evaluation state and a key list in which one key lacks the
    few-shot component. *)
Definition stray_metrics : gmap string (gmap string PrimFloat.float) :=
  {["lambada_openai" := {["InContextLearningLMAccuracy" := ratio 1 2]}]}.

Definition stray_keys : list string :=
  ["metrics/lambada_openai/InContextLearningLMAccuracy"].
End ReportExtraSpec.

(** ** Further notions used to state properties of model loading *)

Module RetryExtraSpec.
Import Eval.

(** The lines printed after the first [k] attempts failed with the
    exceptions [e 0], ..., [e (k - 1)]. *)
Definition diagnostics (e : nat -> exn) (model_name : string)
    (num_retries : Z) (k : nat) : list string :=
  map (fun i => retry_msg (e i) model_name num_retries (Z.of_nat (S i)))
      (seq 0 k).

(** A constructor that fails twice, then returns. *)
Definition flaky_construct (n : nat) (_ : option string)
    (_ : Tokenizer.t) : result string :=
  if Nat.ltb n 2 then Raise (OtherError "OSError" "connection reset")
  else Ok "model".
End RetryExtraSpec.

(** ** The identifiers the factories know *)

Module FactorySpec.

Definition callback_names : list string :=
  ["lr_monitor"; "memory_monitor"; "speed_monitor"; "fdiff";
   "runtime_estimator"; "optimizer_monitor"; "generate_callback";
   "global_lr_scaling"; "layer_freezing"; "mono_ckpt_saver"; "scheduled_gc";
   "early_stopper"].

Definition logger_names : list string :=
  ["wandb"; "tensorboard"; "mlflow"; "inmemory"].

Definition algorithm_names : list string :=
  ["gradient_clipping"; "alibi"; "fused_layernorm"; "gated_linear_units";
   "low_precision_layernorm"].

Definition optimizer_names : list string :=
  ["decoupled_adamw"; "decoupled_lionw"; "clip_lion"; "adalr_lion";
   "decoupled_lionw_8b"].

Definition scheduler_names : list string :=
  ["constant_with_warmup"; "cosine_with_warmup"; "linear_decay_with_warmup"].

(** A constructor stand-in that records the call it was given. *)
Definition record_call (c : Factories.call unit)
  : result (Factories.call unit) := Ok c.
End FactorySpec.

(** ** The tables of [main] *)

Module MainSpec.

(** The category lists the benchmark. *)
Definition lists (t : GauntletCfg.category) (n : string) : Prop :=
  n ∈ map GauntletCfg.name (GauntletCfg.benchmarks t).

(** The assignments of the two loops, in the order they are run. *)
Definition assignments (cats : list GauntletCfg.category)
  : list (string * string) :=
  flat_map
    (fun t =>
       map (fun b => (GauntletCfg.name b, GauntletCfg.category_name t))
           (GauntletCfg.benchmarks t))
    cats.

(** One assignment [d[k] = v]. *)
Definition assign {V} (m : gmap string V) (p : string * V) : gmap string V :=
  <[p.1 := p.2]> m.

(** The key under which the composite score of a category is read. *)
Definition score_key (t : GauntletCfg.category) : string :=
  "icl/metrics/model_gauntlet/" +:+ GauntletCfg.category_name t.

Definition average_key : string := "icl/metrics/model_gauntlet/average".

Definition demo_gauntlet : GauntletCfg.t :=
  GauntletCfg.mk "EQUAL" true false
    [GauntletCfg.mk_category "world_knowledge"
       [GauntletCfg.mk_benchmark "jeopardy" 10 0;
        GauntletCfg.mk_benchmark "triviaqa" 5 0];
     GauntletCfg.mk_category "reading_comprehension"
       [GauntletCfg.mk_benchmark "boolq" 10 (1 # 2);
        GauntletCfg.mk_benchmark "jeopardy" 10 0]].

Definition demo_scores : gmap string Q :=
  <["icl/metrics/model_gauntlet/world_knowledge" := (1 # 4)%Q]>
    (<["icl/metrics/model_gauntlet/reading_comprehension" := (1 # 2)%Q]>
       (<["icl/metrics/model_gauntlet/average" := (3 # 8)%Q]> ∅)).
End MainSpec.

(** ** Setting up the gauntlet *)

Module SetupSpec.
Import GauntletSetup.

(** The configuration the gauntlet callback is built from. *)
Definition gauntlet_source
    (load_eval_gauntlet : string -> result GauntletCfg.t)
    (config : gauntlet_config) (g : GauntletCfg.t) : Prop :=
  match config with
  | GauntletPath path => load_eval_gauntlet path = Ok g
  | GauntletDict cfg => cfg = g
  | GauntletOther _ => False
  end.

(** The evaluator holds one dataloader, not a dict of them. *)
Definition single {DataLoader}
    (e : Evaluator.t (dataloaders DataLoader)) : Prop :=
  exists dl, Evaluator.dataloader e = SingleLoader dl.

(** Stand-ins for the example: a dataloader is named by a string and has
    as many samples as the name has characters; the callback records the
    benchmark sizes it was given. *)
Definition demo_num_samples (dl : string) : Z := Z.of_nat (String.length dl).

Definition demo_EvalGauntlet (g : GauntletCfg.t) (logger_keys : list string)
    (benchmark_sizes : gmap string Z) : result (gmap string Z) :=
  Ok benchmark_sizes.

Definition demo_load_icl_tasks (path : string) : result (list IclCfg.t) :=
  Raise (OtherError "FileNotFoundError" path).

Definition demo_load_eval_gauntlet (path : string) : result GauntletCfg.t :=
  Raise (OtherError "FileNotFoundError" path).
End SetupSpec.

(** ** The mock evaluation state *)

Module MockSpec.
Import MockState.

(** The dataloader label [MockState] reads off a logger key. *)
Definition dl_name (key : string) : string :=
  join "/" (slice_1_m1 (split "/" key)).

(** The entry [MockState] stores for a label. *)
Definition mock_entry {Float Tensor} (mul_int : Float -> Z -> Float)
    (tensor : Float -> Tensor) (tensor_int : Z -> Tensor) (accuracy : Float)
  : gmap string (lm_accuracy Tensor) :=
  <["InContextLearningLMAccuracy" :=
      mk_lm_accuracy (tensor (mul_int accuracy 100%Z)) (tensor_int 100%Z)]> ∅.

(** Stand-ins for the example: floats are binary64 numbers, and a tensor
    is represented by the number it was made from. *)
Definition demo_mul_int (x : PrimFloat.float) (i : Z) : PrimFloat.float :=
  PrimFloat.mul x (ReportSpec.float_of_int i).

Definition demo_tensor (x : PrimFloat.float) : PrimFloat.float + Z := inl x.

Definition demo_tensor_int (i : Z) : PrimFloat.float + Z := inr i.
End MockSpec.

(** * Properties *)

(** ** Python primitives on examples *)

Example split_key :
  split "/" "metrics/jeopardy/10-shot/Acc" = ["metrics"; "jeopardy"; "10-shot"; "Acc"].
Proof. reflexivity. Qed.

Example split_empty : split "/" "" = [""].
Proof. reflexivity. Qed.

Example str_int_examples :
  str_int 0 = "0" /\ str_int 10 = "10" /\ str_int (-3) = "-3".
Proof. repeat split; reflexivity. Qed.

Example contains_examples :
  contains "Accuracy" "InContextLearningLMAccuracy" = true /\
  contains "Accuracy" "Perplexity" = false.
Proof. split; reflexivity. Qed.

(** ** Task resolution: [_validate_cfg] *)

Module ResolverFacts.
Import Builders ResolverSpec.

Lemma default_metric_names_table ty :
  default_metric_names ty = ODict.get ty documented_metric_names.
Proof.
  unfold default_metric_names, documented_metric_names; simpl.
  rewrite !(String.eqb_sym ty).
  repeat (destruct (String.eqb _ ty); [reflexivity|]).
  reflexivity.
Qed.

Lemma validate_missing dms dbs c :
  required_present c = false -> _validate_cfg dms dbs c = Raise AssertionError.
Proof.
  unfold required_present, _validate_cfg.
  destruct c as [l u t n ms ps ed cd msl bs pk nb hc]; simpl.
  destruct l; [|reflexivity].
  destruct u as [[u|]|]; try reflexivity.
  destruct t; [|reflexivity].
  destruct n; [|reflexivity].
  rewrite !bool_decide_eq_true_2 by eauto. discriminate.
Qed.

(** C5, as stated, fails: an entry without [label] is rejected by a bare
    [assert], and the [AssertionError] it raises has an empty message,
    which does not name the field. *)
Lemma validate_error_does_not_name_field :
  IclCfg.label empty_cfg = None /\
  ~ (exists e, _validate_cfg 2048 8 empty_cfg = Raise e /\
               contains "label" (str_exn e) = true).
Proof.
  split; [reflexivity|].
  intros (e & He & Hn). vm_compute in He. inversion He; subst.
  vm_compute in Hn. discriminate.
Qed.

(** C5 (amended): an entry in which [label], a non-null [dataset_uri],
    [icl_task_type] or [num_fewshot] is absent makes [_validate_cfg]
    raise an [AssertionError], which carries no message; a task list that
    starts with such an entry makes [build_icl_evaluators] raise it
    before any dataloader is requested. *)
Theorem validate_cfg_missing_required_field
    {DataLoader} (loader : LoaderArgs.t -> result (dataloaders DataLoader))
    tok dms dbs dir sub (c : IclCfg.t) (rest : list IclCfg.t) :
  required_present c = false ->
  _validate_cfg dms dbs c = Raise AssertionError /\
  str_exn AssertionError = "" /\
  build_icl_evaluators loader tok dms dbs dir sub (c :: rest)
    = Raise AssertionError.
Proof.
  intros H. pose proof (validate_missing dms dbs c H) as Hv.
  split; [exact Hv|]. split; [reflexivity|].
  unfold build_icl_evaluators; simpl. unfold task_body.
  unfold mbind, result_bind. rewrite Hv. reflexivity.
Qed.

Lemma validate_cfg_missing_required_field_witness :
  required_present empty_cfg = false /\
  _validate_cfg 2048 8 empty_cfg = Raise AssertionError.
Proof.
  split; [reflexivity|].
  apply (validate_cfg_missing_required_field
           (fun _ => Ok (SingleLoader tt)) (Tokenizer.mk None None)
           2048 8 "." None empty_cfg []).
  reflexivity.
Defined.

(** C6, as stated, fails: an entry with all four required keys, no
    [metric_names] and a task type outside the table is not resolved at
    all; [_validate_cfg] raises a [ValueError]. *)
Lemma validate_unknown_task_type_raises :
  required_present cfg_unknown_type = true /\
  ~ (exists c', _validate_cfg 2048 8 cfg_unknown_type = Ok c') /\
  _validate_cfg 2048 8 cfg_unknown_type
    = Raise (ValueError "No metric_names defined, unable to build default metrics for icl_task_type=ranking.").
Proof.
  split; [reflexivity|]. split; [|reflexivity].
  intros (c' & Hc). vm_compute in Hc. discriminate.
Qed.

(** C6 (amended): for an entry with all required keys present and either
    [metric_names] present or a task type that is in the table,
    [_validate_cfg] succeeds, fills every absent optional key with its
    documented default ([metric_names] from the task-type table, [""],
    newline, [" "], the caller's two defaults, 1 and 20) and leaves every
    key that is present unchanged; [has_categories] is never filled.  For
    an entry without [metric_names] whose task type is not in the table
    it raises a [ValueError] instead. *)
Theorem validate_cfg_fills_defaults dms dbs (c : IclCfg.t) (ty : string) :
  required_present c = true ->
  IclCfg.icl_task_type c = Some ty ->
  (is_Some (IclCfg.metric_names c) \/
   is_Some (ODict.get ty documented_metric_names)
   -> exists c',
     _validate_cfg dms dbs c = Ok c' /\
     IclCfg.metric_names c' =
       Some (default (default [] (ODict.get ty documented_metric_names))
                     (IclCfg.metric_names c)) /\
     IclCfg.prompt_string c' = Some (default "" (IclCfg.prompt_string c)) /\
     IclCfg.example_delimiter c' =
       Some (default (String "010" "") (IclCfg.example_delimiter c)) /\
     IclCfg.continuation_delimiter c' =
       Some (default " " (IclCfg.continuation_delimiter c)) /\
     IclCfg.max_seq_len c' = Some (default dms (IclCfg.max_seq_len c)) /\
     IclCfg.batch_size c' = Some (default dbs (IclCfg.batch_size c)) /\
     IclCfg.pass_at_k c' = Some (default 1%Z (IclCfg.pass_at_k c)) /\
     IclCfg.num_beams c' = Some (default 20%Z (IclCfg.num_beams c)) /\
     IclCfg.label c' = IclCfg.label c /\
     IclCfg.dataset_uri c' = IclCfg.dataset_uri c /\
     IclCfg.icl_task_type c' = IclCfg.icl_task_type c /\
     IclCfg.num_fewshot c' = IclCfg.num_fewshot c /\
     IclCfg.has_categories c' = IclCfg.has_categories c) /\
  (IclCfg.metric_names c = None ->
   ODict.get ty documented_metric_names = None ->
   _validate_cfg dms dbs c = Raise (ValueError (no_metric_names_msg ty))).
Proof.
  rewrite <- !default_metric_names_table.
  unfold required_present, _validate_cfg.
  remember (default_metric_names ty) as dm eqn:Hdm.
  destruct c as [l u t n ms ps ed cd msl bs pk nb hc]; simpl.
  intros Hreq Hty; subst t.
  destruct l; [|discriminate Hreq].
  destruct u as [[u|]|]; try discriminate Hreq.
  destruct n; [|rewrite andb_false_r in Hreq; discriminate Hreq].
  clear Hreq. rewrite !bool_decide_eq_true_2 by eauto.
  unfold mbind, result_bind; simpl. rewrite <- Hdm.
  split.
  - intros Hms.
    destruct ms as [ms|]; simpl.
    + eexists; split; [reflexivity|].
      destruct ps, ed, cd, msl, bs, pk, nb; simpl; repeat split; reflexivity.
    + destruct Hms as [[? ?]|[ms' ->]]; [discriminate|]. simpl.
      eexists; split; [reflexivity|].
      destruct ps, ed, cd, msl, bs, pk, nb; simpl; repeat split; reflexivity.
  - intros -> ->. reflexivity.
Qed.

Lemma validate_cfg_fills_defaults_witness :
  exists c',
    _validate_cfg 2048 8 cfg_minimal = Ok c' /\
    IclCfg.metric_names c' = Some ["InContextLearningLMAccuracy"] /\
    IclCfg.num_beams c' = Some 20%Z.
Proof.
  destruct (validate_cfg_fills_defaults 2048 8 cfg_minimal
              "language_modeling" eq_refl eq_refl) as [H _].
  destruct H as (c' & Hok & Hm & _ & _ & _ & _ & _ & _ & Hb & _).
  - right. vm_compute. eauto.
  - exists c'. split; [exact Hok|]. split; [exact Hm | exact Hb].
Defined.
End ResolverFacts.

(** ** Evaluator units and their metric keys *)

Module KeyIndexFacts.
Import Builders KeyIndex.

Lemma append_cons a s t :
  String a s +:+ t = String a (s +:+ t).
Proof. reflexivity. Qed.

Lemma append_assoc (s t u : string) :
  (s +:+ t) +:+ u = s +:+ (t +:+ u).
Proof.
  induction s as [|a s IH]; [reflexivity|].
  rewrite !append_cons, IH. reflexivity.
Qed.

Lemma bind_Ok {A B} (a : A) (k : A -> result B) : (Ok a ≫= k) = k a.
Proof. reflexivity. Qed.

Section Units.
Context {DataLoader : Type}.
Variable loader : LoaderArgs.t -> result (dataloaders DataLoader).
Variable tok : Tokenizer.t.
Variables dms dbs : Z.
Variable dir : string.

Lemma key_of_categorized base n cat ms dl m :
  "metrics/" +:+ (base +:+ "/" +:+ str_int n +:+ "-shot") +:+ "/" +:+ cat
    +:+ "/" +:+ m
  = canonical_key (mk_unit base n (Some cat) ms dl : eval_unit DataLoader) m.
Proof. unfold canonical_key; simpl. rewrite !append_assoc. reflexivity. Qed.

Lemma key_of_uncategorized base n ms dl m :
  "metrics/" +:+ (base +:+ "/" +:+ str_int n +:+ "-shot") +:+ "/" +:+ m
  = canonical_key (mk_unit base n None ms dl : eval_unit DataLoader) m.
Proof. unfold canonical_key; simpl. rewrite !append_assoc. reflexivity. Qed.

Lemma label_of_categorized base n cat ms dl :
  (base +:+ "/" +:+ str_int n +:+ "-shot") +:+ "/" +:+ cat
  = unit_label (mk_unit base n (Some cat) ms dl : eval_unit DataLoader).
Proof. unfold unit_label; simpl. rewrite !append_assoc. reflexivity. Qed.

Lemma category_loop base n ms (d : list (string * DataLoader)) evs keys :
  let units :=
    map (fun e => mk_unit base n (Some (fst e)) ms (SingleLoader (snd e)))
        d in
  fold_left
    (category_body (base +:+ "/" +:+ str_int n +:+ "-shot") ms) d
    (evs, keys)
  = (evs ++ map (evaluator_of None) units,
     keys ++ flat_map canonical_keys units).
Proof.
  simpl. revert evs keys.
  induction d as [|[cat dl] d IH]; intros evs keys.
  - simpl. rewrite !app_nil_r. reflexivity.
  - simpl. rewrite IH. rewrite <- !app_assoc. simpl.
    rewrite (label_of_categorized base n cat ms (SingleLoader dl)).
    rewrite (map_ext _ _
               (fun m => key_of_categorized base n cat ms (SingleLoader dl) m)).
    reflexivity.
Qed.

(** One pass of the [num_fewshot] loop appends the evaluators and the
    keys of the units of that pair, in order. *)
Lemma fewshot_step sub c n evs keys :
  fewshot_body loader tok dir sub c (evs, keys) n
  = (us ← fewshot_units loader tok dir c n;
     Ok (evs ++ map (evaluator_of sub) us,
         keys ++ flat_map canonical_keys us)).
Proof.
  unfold fewshot_body, fewshot_units.
  destruct (IclCfg.getattr "label" (IclCfg.label c)) as [base|e];
    [|reflexivity].
  rewrite !bind_Ok.
  destruct (IclCfg.getattr "metric_names" (IclCfg.metric_names c))
    as [ms|e]; [|reflexivity].
  rewrite !bind_Ok.
  destruct (loader_kwargs tok dir c n) as [kw|e]; [|reflexivity].
  rewrite !bind_Ok.
  destruct (loader kw) as [dls|e]; [|reflexivity].
  rewrite !bind_Ok.
  assert (Huncat :
    (evs ++ [Evaluator.mk (base +:+ "/" +:+ str_int n +:+ "-shot") dls ms sub],
     keys ++ map (fun m => "metrics/" +:+
                    (base +:+ "/" +:+ str_int n +:+ "-shot") +:+ "/" +:+ m) ms)
    = (evs ++ map (evaluator_of sub) [mk_unit base n None ms dls],
       keys ++ flat_map canonical_keys [mk_unit base n None ms dls])).
  { simpl. rewrite app_nil_r.
    rewrite (map_ext _ _ (fun m => key_of_uncategorized base n ms dls m)).
    reflexivity. }
  destruct (IclCfg.has_categories c) as [[|]|], dls as [dl|d];
    try (rewrite Huncat; reflexivity).
  rewrite category_loop. rewrite !map_map. reflexivity.
Qed.
Lemma fewshot_loop sub c nums evs keys :
  for_each (fewshot_body loader tok dir sub c) nums (evs, keys)
  = (us ← flat_mapM (fewshot_units loader tok dir c) nums;
     Ok (evs ++ map (evaluator_of sub) us,
         keys ++ flat_map canonical_keys us)).
Proof.
  revert evs keys. induction nums as [|n nums IH]; intros evs keys.
  - simpl. rewrite !app_nil_r. reflexivity.
  - simpl. rewrite fewshot_step.
    unfold mbind, result_bind, bind.
    destruct (fewshot_units loader tok dir c n) as [us|e]; [|reflexivity].
    rewrite IH. unfold mbind, result_bind, bind.
    destruct (flat_mapM (fewshot_units loader tok dir c) nums) as [us'|e]; [|reflexivity].
    rewrite map_app, flat_map_app, <- !app_assoc. reflexivity.
Qed.

Lemma task_step sub c evs keys :
  task_body loader tok dms dbs dir sub (evs, keys) c
  = (us ← task_units loader tok dms dbs dir c;
     Ok (evs ++ map (evaluator_of sub) us,
         keys ++ flat_map canonical_keys us)).
Proof.
  unfold task_body, task_units, mbind, result_bind, bind.
  destruct (_validate_cfg dms dbs c) as [c'|e]; [|reflexivity].
  destruct (IclCfg.getattr "num_fewshot" (IclCfg.num_fewshot c'))
    as [nums|e]; [|reflexivity].
  apply fewshot_loop.
Qed.

Lemma task_loop sub tasks evs keys :
  for_each (task_body loader tok dms dbs dir sub) tasks (evs, keys)
  = (us ← all_units loader tok dms dbs dir tasks;
     Ok (evs ++ map (evaluator_of sub) us,
         keys ++ flat_map canonical_keys us)).
Proof.
  unfold all_units. revert evs keys.
  induction tasks as [|c tasks IH]; intros evs keys.
  - simpl. rewrite !app_nil_r. reflexivity.
  - simpl. rewrite task_step.
    unfold mbind, result_bind, bind.
    destruct (task_units loader tok dms dbs dir c) as [us|e]; [|reflexivity].
    rewrite IH. unfold mbind, result_bind, bind.
    destruct (flat_mapM (task_units loader tok dms dbs dir) tasks) as [us'|e]; [|reflexivity].
    rewrite map_app, flat_map_app, <- !app_assoc. reflexivity.
Qed.

(** The accumulating loops of [build_icl_evaluators] compute the
    evaluators and the keys of the units, unit by unit. *)
Lemma build_by_units sub tasks :
  build_icl_evaluators loader tok dms dbs dir sub tasks
  = (us ← all_units loader tok dms dbs dir tasks;
     Ok (map (evaluator_of sub) us, flat_map canonical_keys us)).
Proof. unfold build_icl_evaluators. apply task_loop. Qed.

Lemma length_flat_map_keys (us : list (eval_unit DataLoader)) :
  length (flat_map canonical_keys us)
  = sum_list (map (fun u => length (unit_metric_names u)) us).
Proof.
  induction us as [|u us IH]; [reflexivity|].
  simpl. rewrite length_app, IH. unfold canonical_keys.
  rewrite length_map. reflexivity.
Qed.
End Units.

Example demo_build :
  build_icl_evaluators demo_loader demo_tokenizer 1024 4 "." (Some 1%Z)
    demo_tasks
  = Ok ([Evaluator.mk "jeopardy/10-shot/science" (SingleLoader "dl-science")
           ["InContextLearningLMAccuracy"] None;
         Evaluator.mk "jeopardy/10-shot/history" (SingleLoader "dl-history")
           ["InContextLearningLMAccuracy"] None;
         Evaluator.mk "bigbench_qa_wikidata/0-shot"
           (SingleLoader "./bigbench_qa_wikidata-0.jsonl")
           ["InContextLearningLMAccuracy"] (Some 1%Z);
         Evaluator.mk "bigbench_qa_wikidata/10-shot"
           (SingleLoader "./bigbench_qa_wikidata-10.jsonl")
           ["InContextLearningLMAccuracy"] (Some 1%Z)],
        ["metrics/jeopardy/10-shot/science/InContextLearningLMAccuracy";
         "metrics/jeopardy/10-shot/history/InContextLearningLMAccuracy";
         "metrics/bigbench_qa_wikidata/0-shot/InContextLearningLMAccuracy";
         "metrics/bigbench_qa_wikidata/10-shot/InContextLearningLMAccuracy"]).
Proof. vm_compute. reflexivity. Qed.

Section LoggerKeys.
Context {DataLoader : Type}.
Variable loader : LoaderArgs.t -> result (dataloaders DataLoader).
Variable tok : Tokenizer.t.
Variables dms dbs : Z.
Variable dir : string.

(** C1: the keys returned by [build_icl_evaluators] are, in order, the
    canonical keys of the evaluator units of every task entry and every
    value of its [num_fewshot] list:
    [metrics/{base_label}/{n}-shot/{metric_name}] for an uncategorized
    unit, [metrics/{base_label}/{n}-shot/{subcategory}/{metric_name}]
    for a categorized one, one per metric name in the task's order; the
    evaluators are the evaluators of these units, in the same order;
    and the function fails exactly when resolving a task or loading its
    data fails, with the same exception. *)
Theorem logger_keys_canonical sub (tasks : list IclCfg.t) :
  snd <$> build_icl_evaluators loader tok dms dbs dir sub tasks
    = flat_map canonical_keys <$> all_units loader tok dms dbs dir tasks
  /\
  (fun r => map Evaluator.label (fst r))
    <$> build_icl_evaluators loader tok dms dbs dir sub tasks
    = map unit_label <$> all_units loader tok dms dbs dir tasks
  /\
  (forall (u : eval_unit DataLoader) m,
     canonical_key u m =
       "metrics/" +:+ base_label u +:+ "/" +:+ str_int (fewshot u)
         +:+ "-shot/" +:+
         match subcategory u with
         | None => m
         | Some sub => sub +:+ "/" +:+ m
         end).
Proof.
  rewrite build_by_units.
  destruct (all_units loader tok dms dbs dir tasks) as [us|e].
  - split; [reflexivity|]. split.
    + cbn. rewrite map_map. reflexivity.
    + intros u m. unfold canonical_key.
      destruct (subcategory u); reflexivity.
  - split; [reflexivity|]. split; [reflexivity|].
    intros u m. unfold canonical_key.
    destruct (subcategory u); reflexivity.
Qed.

(** C3: when [build_icl_evaluators] returns, the number of logger keys
    is the sum, over the evaluators it created (one per evaluator
    unit), of the number of metric names of the evaluator's task. *)
Theorem logger_keys_length sub (tasks : list IclCfg.t) evs keys :
  build_icl_evaluators loader tok dms dbs dir sub tasks = Ok (evs, keys) ->
  length keys
    = sum_list (map (fun e => length (Evaluator.metric_names e)) evs) /\
  exists us,
    all_units loader tok dms dbs dir tasks = Ok us /\
    length evs = length us /\
    length keys
      = sum_list (map (fun u => length (unit_metric_names u)) us).
Proof.
  rewrite build_by_units.
  destruct (all_units loader tok dms dbs dir tasks) as [us|e];
    [|discriminate].
  cbn. intros [= <- <-]. split.
  - rewrite length_flat_map_keys, map_map. reflexivity.
  - exists us. split; [reflexivity|]. split.
    + rewrite length_map. reflexivity.
    + apply length_flat_map_keys.
Qed.

(** C8: the keys returned by [build_icl_evaluators] (or the exception
    it raises) are the same for any two values of
    [icl_subset_num_batches], [None] included. *)
Theorem logger_keys_independent_of_subset (sub1 sub2 : option Z)
    (tasks : list IclCfg.t) :
  snd <$> build_icl_evaluators loader tok dms dbs dir sub1 tasks
  = snd <$> build_icl_evaluators loader tok dms dbs dir sub2 tasks.
Proof.
  rewrite !build_by_units.
  destruct (all_units loader tok dms dbs dir tasks); reflexivity.
Qed.
End LoggerKeys.

Lemma logger_keys_length_witness :
  exists evs keys,
    build_icl_evaluators demo_loader demo_tokenizer 1024 4 "." (Some 1%Z)
      demo_tasks = Ok (evs, keys) /\
    length keys = 4 /\
    length keys
      = sum_list (map (fun e => length (Evaluator.metric_names e)) evs).
Proof.
  eexists. eexists. split; [exact demo_build|].
  split; [reflexivity|].
  exact (proj1 (logger_keys_length demo_loader demo_tokenizer 1024 4 "."
                  (Some 1%Z) demo_tasks _ _ demo_build)).
Defined.
End KeyIndexFacts.

(** ** Model loading: the retry loop *)

Module RetryFacts.
Import Eval RetryExample.

Section RetryLoop.
Context {Model : Type}.
Variable attempt : nat -> result Model.
Variable num_retries : Z.

(** The loop never needs more iterations than retries are left, and
    enters the [try] block at most that many times. *)
Lemma retry_loop_terminates (read_name : result string) fuel retries w :
  (Z.to_nat (num_retries - retries) <= fuel)%nat ->
  exists r w',
    retry_loop attempt read_name num_retries fuel retries w
      = Some (r, w') /\
    (attempts w <= attempts w'
       <= attempts w + Z.to_nat (num_retries - retries))%nat.
Proof.
  revert retries w. induction fuel as [|fuel IH]; intros retries w Hfuel.
  - simpl. destruct (Z.ltb_spec retries num_retries) as [Hlt|Hge]; [lia|].
    exists (Ok None), w. split; [reflexivity|lia].
  - simpl. destruct (Z.ltb_spec retries num_retries) as [Hlt|Hge].
    + destruct (attempt (attempts w)) as [m|e].
      * eexists _, _. split; [reflexivity|]. simpl. lia.
      * rewrite Z.geb_leb.
        destruct (Z.leb_spec num_retries (retries + 1)) as [Hlast|Hmore].
        -- eexists _, _. split; [reflexivity|]. simpl. lia.
        -- destruct read_name as [model_name|e0].
           ++ destruct (IH (retries + 1)%Z
                          (mk_world (S (attempts w))
                             (stdout w ++
                              [retry_msg e model_name num_retries
                                 (retries + 1)])))
                as (r & w' & Hr & Hb); [lia|].
              exists r, w'. split; [exact Hr|]. simpl in Hb. lia.
           ++ eexists _, _. split; [reflexivity|]. simpl. lia.
    + exists (Ok None), w. split; [reflexivity|lia].
Qed.

(** When the name can be read and every remaining attempt raises, the
    loop makes all of them and re-raises the exception of the last one. *)
Lemma retry_loop_all_fail (model_name : string) (e : nat -> exn) k :
  forall fuel retries w,
    Z.to_nat (num_retries - retries) = S k ->
    (S k <= fuel)%nat ->
    (forall i, (i <= k)%nat ->
               attempt (attempts w + i) = Raise (e (attempts w + i))) ->
    exists out,
      retry_loop attempt (Ok model_name) num_retries fuel retries w
        = Some (Raise (e (attempts w + k)),
                mk_world (attempts w + S k) out).
Proof.
  induction k as [|k IH]; intros fuel retries w Hk Hfuel Hfail;
    (destruct fuel as [|fuel]; [lia|]); simpl;
    (destruct (Z.ltb_spec retries num_retries) as [Hlt|Hge]; [|lia]);
    pose proof (Hfail 0%nat ltac:(lia)) as H0;
    rewrite Nat.add_0_r in H0; rewrite H0; rewrite Z.geb_leb.
  - destruct (Z.leb_spec num_retries (retries + 1)) as [Hlast|Hmore];
      [|lia].
    exists (stdout w). rewrite Nat.add_0_r, Nat.add_1_r. reflexivity.
  - destruct (Z.leb_spec num_retries (retries + 1)) as [Hlast|Hmore];
      [lia|].
    destruct (IH fuel (retries + 1)%Z
                (mk_world (S (attempts w))
                   (stdout w ++
                    [retry_msg (e (attempts w)) model_name num_retries
                       (retries + 1)])))
      as (out & Hout); [lia|lia| |].
    + intros i Hi. cbn [attempts].
      replace (S (attempts w) + i)%nat with (attempts w + S i)%nat by lia.
      apply Hfail. lia.
    + exists out. rewrite Hout. cbn [attempts].
      replace (S (attempts w) + k)%nat with (attempts w + S k)%nat by lia.
      replace (S (attempts w) + S k)%nat with (attempts w + S (S k))%nat
        by lia.
      reflexivity.
Qed.

(** When the name cannot be read, the first failing attempt ends the
    loop: with retries left the [except] block raises while it formats
    its line, and without retries left the attempt's exception, which
    the caller supplies as the same one, is re-raised. *)
Lemma retry_loop_unreadable_name (e0 : exn) w :
  (0 < num_retries)%Z ->
  attempt (attempts w) = Raise e0 ->
  retry_loop attempt (Raise e0) num_retries (Z.to_nat num_retries) 0 w
  = Some (Raise e0, mk_world (S (attempts w)) (stdout w)).
Proof.
  intros Hpos Hfail.
  destruct (Z.to_nat num_retries) as [|fuel] eqn:Hfuel; [lia|].
  cbn [retry_loop].
  destruct (Z.ltb_spec 0 num_retries) as [_|?]; [|lia].
  rewrite Hfail. destruct (0 + 1 >=? num_retries)%Z; reflexivity.
Qed.
End RetryLoop.

Example load_model_three_failures :
  load_model failing_construct read_name (Some "mpt_causal_lm")
    (Tokenizer.mk None None) 3 (mk_world 0 [])
  = Some (Raise (OtherError "RuntimeError" "2"),
          mk_world 3
            ["Got exception 0 while loading model mpt_causal_lm. 2 retries remaining";
             "Got exception 1 while loading model mpt_causal_lm. 1 retries remaining"]).
Proof. vm_compute. reflexivity. Qed.

Example load_model_no_retries :
  load_model failing_construct read_name (Some "mpt_causal_lm")
    (Tokenizer.mk None None) 0 (mk_world 0 [])
  = Some (Ok None, mk_world 0 []).
Proof. reflexivity. Qed.

(** A config without [name], three retries allowed: every attempt would
    raise, yet only one is made, and what leaves the loop is the error of
    reading [model_cfg.name], not a re-raised last exception after three
    attempts. *)
Lemma unreadable_name_ends_retries :
  (forall i,
     model_attempt failing_construct read_name None (Tokenizer.mk None None) i
     = Raise (AttributeError "name")) /\
  load_model failing_construct read_name None (Tokenizer.mk None None) 3
    (mk_world 0 [])
  = Some (Raise (AttributeError "name"), mk_world 1 []).
Proof. split; [intros i|]; reflexivity. Qed.

(** C9: [load_model] and [load_peft_model] (once [peft] is imported)
    always return, after entering the [try] block at most [num_retries]
    times, one attempt after the other.  When [num_retries] is positive,
    [model_cfg.name] can be read and every attempt raises, exactly
    [num_retries] attempts are made and the exception of the last one is
    re-raised.  When [model_cfg.name] cannot be read, the first attempt
    fails on that read and is the only one: the error of the read leaves
    the loop and nothing is printed. *)
Theorem load_model_retries_then_reraises
    {Model ModelCfg Underlying Peft : Type}
    (construct : nat -> ModelCfg -> Tokenizer.t -> result Model)
    (from_pretrained : nat -> ModelCfg -> result Underlying)
    (peft_from_pretrained : nat -> Underlying -> ModelCfg -> result Peft)
    (wrap : nat -> Peft -> Tokenizer.t -> result Model)
    (name : ModelCfg -> result string) (model_cfg : ModelCfg)
    (tokenizer : Tokenizer.t) (num_retries : Z) (e e' : nat -> exn) :
  let w0 := mk_world 0 [] in
  let load := load_model construct name model_cfg tokenizer num_retries w0 in
  let load_peft :=
    load_peft_model (Ok tt) from_pretrained peft_from_pretrained wrap name
      model_cfg tokenizer num_retries w0 in
  let attempt_model := model_attempt construct name model_cfg tokenizer in
  let attempt_peft :=
    peft_attempt from_pretrained peft_from_pretrained wrap name model_cfg
      tokenizer in
  (exists r w, load = Some (r, w) /\
               (attempts w <= Z.to_nat num_retries)%nat) /\
  (exists r w, load_peft = Some (r, w) /\
               (attempts w <= Z.to_nat num_retries)%nat) /\
  (forall model_name,
     name model_cfg = Ok model_name ->
     (0 < num_retries)%Z ->
     ((forall i, (i < Z.to_nat num_retries)%nat ->
                 attempt_model i = Raise (e i)) ->
      exists out,
        load = Some (Raise (e (Z.to_nat num_retries - 1)%nat),
                     mk_world (Z.to_nat num_retries) out)) /\
     ((forall i, (i < Z.to_nat num_retries)%nat ->
                 attempt_peft i = Raise (e' i)) ->
      exists out,
        load_peft = Some (Raise (e' (Z.to_nat num_retries - 1)%nat),
                          mk_world (Z.to_nat num_retries) out))) /\
  (forall e0,
     name model_cfg = Raise e0 ->
     (0 < num_retries)%Z ->
     (forall i, attempt_model i = Raise e0) /\
     (forall i, attempt_peft i = Raise e0) /\
     load = Some (Raise e0, mk_world 1 []) /\
     load_peft = Some (Raise e0, mk_world 1 [])).
Proof.
  intros w0 load load_peft attempt_model attempt_peft.
  subst load load_peft attempt_model attempt_peft.
  unfold load_model, load_peft_model.
  split; [|split; [|split]].
  - destruct (retry_loop_terminates
                (model_attempt construct name model_cfg tokenizer)
                num_retries (name model_cfg) (Z.to_nat num_retries) 0 w0)
      as (r & w & Hr & Hb); [rewrite Z.sub_0_r; lia|].
    exists r, w. split; [exact Hr|].
    rewrite Z.sub_0_r in Hb. simpl in Hb. lia.
  - destruct (retry_loop_terminates
                (peft_attempt from_pretrained peft_from_pretrained wrap name
                   model_cfg tokenizer)
                num_retries (name model_cfg) (Z.to_nat num_retries) 0 w0)
      as (r & w & Hr & Hb); [rewrite Z.sub_0_r; lia|].
    exists r, w. split; [exact Hr|].
    rewrite Z.sub_0_r in Hb. simpl in Hb. lia.
  - intros model_name Hname Hpos. rewrite Hname. split; intros Hfail.
    + destruct (retry_loop_all_fail
                  (model_attempt construct name model_cfg tokenizer)
                  num_retries model_name e (Z.to_nat num_retries - 1)
                  (Z.to_nat num_retries) 0 w0)
        as (out & Hout); [rewrite Z.sub_0_r; lia|lia| |].
      * intros i Hi. simpl. apply Hfail. lia.
      * exists out. rewrite Hout. simpl.
        replace (S (Z.to_nat num_retries - 1)) with (Z.to_nat num_retries)
          by lia.
        reflexivity.
    + destruct (retry_loop_all_fail
                  (peft_attempt from_pretrained peft_from_pretrained wrap
                     name model_cfg tokenizer)
                  num_retries model_name e' (Z.to_nat num_retries - 1)
                  (Z.to_nat num_retries) 0 w0)
        as (out & Hout); [rewrite Z.sub_0_r; lia|lia| |].
      * intros i Hi. simpl. apply Hfail. lia.
      * exists out. rewrite Hout. simpl.
        replace (S (Z.to_nat num_retries - 1)) with (Z.to_nat num_retries)
          by lia.
        reflexivity.
  - intros e0 Hname Hpos.
    assert (Hm : forall i,
              model_attempt construct name model_cfg tokenizer i = Raise e0).
    { intros i. unfold model_attempt. rewrite Hname. reflexivity. }
    assert (Hp : forall i,
              peft_attempt from_pretrained peft_from_pretrained wrap name
                model_cfg tokenizer i = Raise e0).
    { intros i. unfold peft_attempt. rewrite Hname. reflexivity. }
    split; [exact Hm|]. split; [exact Hp|].
    rewrite Hname. split.
    + apply (retry_loop_unreadable_name _ _ e0 w0 Hpos (Hm _)).
    + apply (retry_loop_unreadable_name _ _ e0 w0 Hpos (Hp _)).
Qed.

Lemma load_model_retries_then_reraises_witness :
  exists out,
    load_model failing_construct read_name (Some "mpt_causal_lm")
      (Tokenizer.mk None None) 3 (mk_world 0 [])
    = Some (Raise (OtherError "RuntimeError" "2"), mk_world 3 out).
Proof.
  destruct (load_model_retries_then_reraises
              (Underlying := unit) (Peft := unit)
              failing_construct
              (fun _ _ => Raise (OtherError "OSError" "no weights"))
              (fun _ _ _ => Ok tt) (fun _ _ _ => Ok tt)
              read_name (Some "mpt_causal_lm") (Tokenizer.mk None None) 3
              (fun n => OtherError "RuntimeError" (str_int (Z.of_nat n)))
              (fun _ => OtherError "OSError" "no weights"))
    as (_ & _ & Hall & _).
  destruct (Hall "mpt_causal_lm") as [Hload _].
  - reflexivity.
  - lia.
  - destruct Hload as (out & Hout).
    + intros i Hi. reflexivity.
    + exists out. exact Hout.
Defined.
End RetryFacts.


(** ** The markdown report *)

Module ReportFacts.
Import Eval ReportSpec.

Lemma upsert_keys {V} k (dflt : V) f d :
  map fst (ODict.upsert k dflt f d)
  = if bool_decide (k ∈ map fst d) then map fst d else map fst d ++ [k].
Proof.
  induction d as [|[k' v] d IH]; cbn [ODict.upsert map fst].
  - case_bool_decide as Hin; [|reflexivity].
    apply elem_of_nil in Hin. contradiction.
  - destruct (String.eqb_spec k' k) as [->|Hne]; cbn [map fst].
    + clear IH. rewrite bool_decide_eq_true_2; [reflexivity|].
      apply elem_of_cons; auto.
    + rewrite IH. clear IH. destruct (decide (k ∈ map fst d)) as [Hin|Hin].
      * rewrite !bool_decide_eq_true_2; [reflexivity| |exact Hin].
        apply elem_of_cons; auto.
      * rewrite !bool_decide_eq_false_2; [reflexivity| |exact Hin].
        intros [?|?]%elem_of_cons; congruence.
Qed.

Lemma upsert_NoDup {V} k (dflt : V) f d :
  NoDup (map fst d) -> NoDup (map fst (ODict.upsert k dflt f d)).
Proof.
  intros Hd. rewrite upsert_keys. case_bool_decide as Hin; [exact Hd|].
  apply NoDup_app. split; [exact Hd|]. split.
  - intros x Hx Hk. apply list_elem_of_singleton in Hk. subst. auto.
  - apply NoDup_singleton.
Qed.

Lemma upsert_Forall {V} (P : V -> Prop) k (dflt : V) f d :
  Forall (fun e => P (snd e)) d ->
  P (f dflt) ->
  (forall v, P v -> P (f v)) ->
  Forall (fun e => P (snd e)) (ODict.upsert k dflt f d).
Proof.
  intros Hd Hdflt Hf. induction Hd as [|[k' v] d Hv Hd IH]; simpl.
  - constructor; [exact Hdflt|constructor].
  - destruct (String.eqb k' k).
    + constructor; [apply Hf, Hv|exact Hd].
    + constructor; [exact Hv|exact IH].
Qed.

Lemma upsert_wf {V} (P : V -> Prop) k (dflt : V) f d :
  wf_dict P d -> P (f dflt) -> (forall v, P v -> P (f v)) ->
  wf_dict P (ODict.upsert k dflt f d).
Proof.
  intros [Hnd Hall] Hdflt Hf. split.
  - apply upsert_NoDup, Hnd.
  - apply upsert_Forall; assumption.
Qed.

Lemma wf_dict_nil {V} (P : V -> Prop) : wf_dict P [].
Proof. split; [apply NoDup_nil_2|constructor]. Qed.

Lemma flat_map_flat_map {A B C} (f : B -> list C) (g : A -> list B) l :
  flat_map f (flat_map g l) = flat_map (fun x => flat_map f (g x)) l.
Proof.
  induction l as [|x l IH]; [reflexivity|].
  simpl. rewrite flat_map_app, IH. reflexivity.
Qed.

Lemma flat_map_map {A B C} (f : B -> list C) (g : A -> B) l :
  flat_map f (map g l) = flat_map (fun x => f (g x)) l.
Proof.
  induction l as [|x l IH]; [reflexivity|].
  simpl. rewrite IH. reflexivity.
Qed.

Lemma for_each_invariant {S A} (I : S -> Prop) (body : S -> A -> result S)
    l s s' :
  I s -> (forall s x s', I s -> body s x = Ok s' -> I s') ->
  for_each body l s = Ok s' -> I s'.
Proof.
  intros Hs Hbody. revert s Hs. induction l as [|x l IH]; intros s Hs; simpl.
  - intros [= <-]. exact Hs.
  - destruct (body s x) as [s1|e] eqn:Hx; simpl; [|discriminate].
    apply IH. eapply Hbody; eassumption.
Qed.

Lemma for_each_total {S A} (body : S -> A -> result S) l s :
  Forall (fun x => forall s, exists s', body s x = Ok s') l ->
  exists s', for_each body l s = Ok s'.
Proof.
  intros Hl. revert s. induction Hl as [|x l Hx Hl IH]; intros s; simpl.
  - eauto.
  - destruct (Hx s) as [s1 ->]. simpl. apply IH.
Qed.

Section Report.
Context {Num : Type} {arith : Arith Num}.
Variable eval_metrics : gmap string (gmap string Num).
Variable benchmark_to_taxonomy : gmap string string.
Variable model_name : string.


Lemma collect_body_wf results key results' :
  wf_results results ->
  collect_body eval_metrics results key = Ok results' ->
  wf_results results'.
Proof.
  intros Hwf. unfold collect_body.
  destruct (last_item (split "/" key)) as [metric_name|e]; [|discriminate].
  cbn [mbind result_bind bind].
  destruct (negb (contains "Accuracy" metric_name)); [congruence|].
  destruct (default ∅ (eval_metrics !! join "/" (slice_1_m1 (split "/" key)))
              !! metric_name) as [metric|]; [|congruence].
  destruct (item (slice_1_m1 (split "/" key)) 1) as [num_shot|e];
    [|discriminate].
  cbn [mbind result_bind bind].
  destruct (item (slice_1_m1 (split "/" key)) 0) as [benchmark|e];
    [|discriminate].
  cbn [mbind result_bind bind]. intros [= <-].
  unfold wf_results.
  apply upsert_wf; [exact Hwf| |intros v Hv];
    (apply upsert_wf; [first [apply wf_dict_nil|exact Hv]| |intros v2 Hv2];
     (apply upsert_wf; [first [apply wf_dict_nil|exact Hv2]| |intros v3 Hv3];
      try discriminate)).
  all: intros Heq; apply app_eq_nil in Heq as [_ ?]; discriminate.
Qed.

Lemma collect_wf metric_keys results :
  collect eval_metrics metric_keys = Ok results -> wf_results results.
Proof.
  apply (for_each_invariant wf_results).
  - apply wf_dict_nil.
  - intros s x s'. apply collect_body_wf.
Qed.

Lemma for_each_appends {A R} (body : list R -> A -> result (list R))
    (rows : A -> list R) (P : A -> Prop) l df :
  Forall P l ->
  (forall df x, P x -> body df x = Ok (df ++ rows x)) ->
  for_each body l df = Ok (df ++ flat_map rows l).
Proof.
  intros Hl Hbody. revert df.
  induction Hl as [|x l Hx Hl IH]; intros df; simpl.
  - rewrite app_nil_r. reflexivity.
  - rewrite (Hbody df x Hx). simpl. rewrite IH, <- app_assoc. reflexivity.
Qed.

Let cat_of := category_of benchmark_to_taxonomy.

Lemma sub_loop num_shot benchmark (subscores : list (subscore Num)) df :
  fold_left (sub_body benchmark_to_taxonomy model_name num_shot benchmark)
    subscores df
  = df ++ map (fun sub =>
                 mk_row (cat_of benchmark) None (Some (subcat sub)) (val sub)
                   num_shot model_name)
              subscores.
Proof.
  revert df. induction subscores as [|s l IH]; intros df; simpl.
  - rewrite app_nil_r. reflexivity.
  - rewrite IH. unfold sub_body. rewrite <- app_assoc. reflexivity.
Qed.

(** [sum] over a list that has a first value. *)
Lemma py_sum_from (a : Num) (l : list Num) :
  fold_left py_add l (inr a) = inr (fold_left add_num l a).
Proof.
  revert a. induction l as [|x l IH]; intros a; [reflexivity|].
  simpl. apply IH.
Qed.

Lemma mean_vals_cons (s : subscore Num) (rest : list (subscore Num)) :
  mean_vals (s :: rest)
  = Ok (truediv_int
          (fold_left add_num (map val rest) (radd_int 0 (val s)))
          (Z.of_nat (length (s :: rest)))).
Proof.
  unfold mean_vals, py_sum. cbn [map fold_left py_add].
  rewrite py_sum_from. reflexivity.
Qed.

Lemma metric_step num_shot benchmark df (entry : string * list (subscore Num)) :
  snd entry <> [] ->
  metric_body benchmark_to_taxonomy model_name num_shot benchmark df entry
  = Ok (df ++ group_rows cat_of model_name
                (num_shot, benchmark, fst entry, snd entry)).
Proof.
  destruct entry as [metric subscores]; simpl. intros Hne.
  unfold metric_body; simpl.
  destruct subscores as [|s [|s' l]]; [congruence|reflexivity|].
  rewrite mean_vals_cons. cbn [mbind result_bind bind].
  rewrite sub_loop, <- app_assoc. reflexivity.
Qed.

(** On a well-formed [results] dict the three nested loops append the
    rows of every group, group by group. *)
Lemma render_by_groups results :
  wf_results results ->
  render benchmark_to_taxonomy model_name results
  = Ok (flat_map (group_rows cat_of model_name) (groups results)).
Proof.
  intros [_ H1]. unfold render, groups.
  rewrite flat_map_flat_map.
  refine (eq_trans (for_each_appends _ _ _ results [] H1 _) _);
    [|reflexivity].
  intros df [num_shot d1] [_ H2]. unfold num_shot_body; simpl in *.
  rewrite flat_map_flat_map.
  apply (for_each_appends _ _ _ _ _ H2).
  intros df' [benchmark d2] [_ H3]. unfold benchmark_body; simpl in *.
  rewrite flat_map_map.
  apply (for_each_appends _ _ _ _ _ H3).
  intros df'' e3 Hne. apply metric_step, Hne.
Qed.

Lemma last_item_cons {A} (x : A) l : exists y, last_item (x :: l) = Ok y.
Proof.
  unfold last_item. destruct (rev (x :: l)) as [|y l'] eqn:Hrev; [|eauto].
  apply (f_equal (@length A)) in Hrev. rewrite length_rev in Hrev.
  discriminate.
Qed.

Lemma collect_body_total key results :
  long_key key ->
  exists results', collect_body eval_metrics results key = Ok results'.
Proof.
  unfold long_key, collect_body.
  destruct (split "/" key) as [|a [|b [|c [|d rest]]]]; simpl; try lia.
  intros _.
  destruct (last_item_cons a (b :: c :: d :: rest)) as [metric_name ->].
  cbn [mbind result_bind bind].
  destruct (negb (contains "Accuracy" metric_name)); [eauto|].
  destruct (default ∅ _ !! metric_name); eauto.
Qed.

Lemma collect_total metric_keys :
  Forall long_key metric_keys ->
  exists results, collect eval_metrics metric_keys = Ok results.
Proof.
  intros Hkeys. apply for_each_total.
  eapply Forall_impl; [exact Hkeys|].
  intros key Hkey results. apply collect_body_total, Hkey.
Qed.

(** The report is the concatenation, group by group, of the rows of the
    groups collected from the keys. *)
Lemma report_by_groups metric_keys df :
  calculate_markdown_results eval_metrics benchmark_to_taxonomy model_name
    metric_keys = Ok df ->
  exists results,
    collect eval_metrics metric_keys = Ok results /\
    wf_results results /\
    df = flat_map (group_rows cat_of model_name) (groups results).
Proof.
  unfold calculate_markdown_results.
  destruct (collect eval_metrics metric_keys) as [results|e] eqn:Hc;
    [|discriminate].
  cbn [mbind result_bind bind].
  pose proof (collect_wf _ _ Hc) as Hwf.
  rewrite (render_by_groups _ Hwf). intros [= <-]. eauto.
Qed.

(** From keys with at least four components the report is always
    built. *)
Lemma report_built metric_keys :
  Forall long_key metric_keys ->
  exists df,
    calculate_markdown_results eval_metrics benchmark_to_taxonomy model_name
      metric_keys = Ok df.
Proof.
  intros Hkeys. destruct (collect_total _ Hkeys) as [results Hc].
  unfold calculate_markdown_results. rewrite Hc.
  cbn [mbind result_bind bind].
  rewrite (render_by_groups _ (collect_wf _ _ Hc)). eauto.
Qed.

Lemma groups_nonempty results :
  wf_results results ->
  Forall (fun g : @group Num => snd g <> []) (groups results).
Proof.
  intros [_ H1]. unfold groups.
  apply Forall_flat_map. eapply Forall_impl; [exact H1|].
  intros [num_shot d1] [_ H2]; simpl in *.
  apply Forall_flat_map. eapply Forall_impl; [exact H2|].
  intros [benchmark d2] [_ H3]; simpl in *.
  apply Forall_map. eapply Forall_impl; [exact H3|].
  intros [metric subscores] Hne. exact Hne.
Qed.

Lemma rows_match_group_rows (g : @group Num) :
  snd g <> [] -> rows_match_group g (group_rows cat_of model_name g).
Proof.
  destruct g as [[[num_shot benchmark] metric] subscores]; simpl.
  intros Hne. unfold rows_match_group; simpl. split.
  - intros s ->. eexists. repeat split; reflexivity.
  - intros Hlen.
    destruct subscores as [|s [|s' l]]; simpl in Hlen; try lia.
    eexists _, _. split; [reflexivity|].
    split; [simpl; rewrite length_map; reflexivity|].
    split; [reflexivity|]. split.
    + cbn [Accuracy map mean_of length]. rewrite length_map. reflexivity.
    + split; rewrite map_map; reflexivity.
Qed.

Lemma benchmark_column_group_rows (g : @group Num) :
  benchmark_column_ok g (group_rows cat_of model_name g).
Proof.
  destruct g as [[[num_shot benchmark] metric] subscores]; simpl.
  intros Hlen.
  destruct subscores as [|s [|s' l]]; simpl in Hlen; try lia.
  eexists _, _. split; [reflexivity|].
  split; [reflexivity|]. split; [reflexivity|].
  split; [rewrite length_map; reflexivity|].
  apply Forall_map, Forall_forall. intros sub _. reflexivity.
Qed.

(** C7: the report built by [calculate_markdown_results] is the
    concatenation of one block of rows per group of accuracy records, the
    groups having distinct (fewshot, benchmark, metric name) keys and at
    least one record each; a group with exactly one record has a block of
    exactly one row, with [Subtask = None] and the record's value as
    [Accuracy]; a group with N > 1 records has a block of N + 1 rows, first
    a row with [Subtask = "Average"] whose [Accuracy] is the mean of the N
    values as the code computes it, in the arithmetic of the values: the
    values added from left to right, starting from zero, and the total
    divided by N; then one row per record, in order, with the record's
    subcategory as [Subtask] and its value as [Accuracy]. *)
Theorem report_rows_per_group metric_keys df :
  calculate_markdown_results eval_metrics benchmark_to_taxonomy model_name
    metric_keys = Ok df ->
  exists results blocks,
    collect eval_metrics metric_keys = Ok results /\
    wf_results results /\
    Forall (fun g : @group Num => snd g <> []) (groups results) /\
    df = concat blocks /\
    Forall2 rows_match_group (groups results) blocks.
Proof.
  intros Hdf. apply report_by_groups in Hdf as (results & Hc & Hwf & ->).
  pose proof (groups_nonempty _ Hwf) as Hne.
  exists results, (map (group_rows cat_of model_name) (groups results)).
  split; [exact Hc|]. split; [exact Hwf|]. split; [exact Hne|].
  split; [apply flat_map_concat_map|].
  induction Hne as [|g gs Hg Hgs IH]; simpl; constructor.
  - apply rows_match_group_rows, Hg.
  - exact IH.
Qed.

(** C10: in the report built by [calculate_markdown_results], the block of
    rows of every group with more than one record starts with the
    ["Average"] row, which carries the benchmark name, and each of the
    rows that follow, one per record, has [Benchmark = None]. *)
Theorem report_benchmark_column metric_keys df :
  calculate_markdown_results eval_metrics benchmark_to_taxonomy model_name
    metric_keys = Ok df ->
  exists results blocks,
    collect eval_metrics metric_keys = Ok results /\
    df = concat blocks /\
    Forall2 benchmark_column_ok (groups results) blocks.
Proof.
  intros Hdf. apply report_by_groups in Hdf as (results & Hc & Hwf & ->).
  exists results, (map (group_rows cat_of model_name) (groups results)).
  split; [exact Hc|]. split; [apply flat_map_concat_map|].
  induction (groups results) as [|g gs IH]; simpl; constructor.
  - apply benchmark_column_group_rows.
  - exact IH.
Qed.
End Report.

Lemma split_nonempty sep s : split sep s <> [].
Proof.
  destruct s as [|c s]; simpl; [discriminate|].
  destruct (Ascii.eqb c sep); [discriminate|].
  destruct (split sep s); discriminate.
Qed.

Lemma split_app sep s t :
  split sep (s +:+ String sep t) = split sep s ++ split sep t.
Proof.
  induction s as [|c s IH].
  - simpl. rewrite Ascii.eqb_refl. reflexivity.
  - change (String c s +:+ String sep t) with (String c (s +:+ String sep t)).
    simpl. rewrite IH. destruct (Ascii.eqb c sep); [reflexivity|].
    pose proof (split_nonempty sep s) as Hne.
    destruct (split sep s); [congruence|reflexivity].
Qed.

Lemma length_split_pos sep s : (1 <= length (split sep s))%nat.
Proof.
  pose proof (split_nonempty sep s). destruct (split sep s); simpl;
    [congruence|lia].
Qed.

(** Every canonical key of an evaluator unit has at least four
    components. *)
Lemma canonical_key_long {DataLoader} (u : KeyIndex.eval_unit DataLoader) m :
  long_key (KeyIndex.canonical_key u m).
Proof.
  unfold long_key, KeyIndex.canonical_key.
  assert (forall rest,
            (3 <= length (split "/" rest))%nat ->
            (4 <= length (split "/" ("metrics/" +:+ rest)))%nat) as Hpre.
  { intros rest Hrest.
    change ("metrics/" +:+ rest) with ("metrics" +:+ String "/" rest).
    rewrite split_app, length_app. simpl. lia. }
  assert (forall a b c : string,
            (3 <= length (split "/" (a +:+ "/" +:+ b +:+ "-shot/" +:+ c)))%nat)
    as Hthree.
  { intros a b c.
    change (a +:+ "/" +:+ b +:+ "-shot/" +:+ c)
      with (a +:+ String "/" (b +:+ "-shot/" +:+ c)).
    rewrite split_app, length_app.
    replace (b +:+ "-shot/" +:+ c) with ((b +:+ "-shot") +:+ String "/" c).
    - rewrite split_app, length_app.
      pose proof (length_split_pos "/" a).
      pose proof (length_split_pos "/" (b +:+ "-shot")).
      pose proof (length_split_pos "/" c). lia.
    - clear. induction b as [|x b IH]; [reflexivity|].
      change (String x b +:+ "-shot") with (String x (b +:+ "-shot")).
      change (String x (b +:+ "-shot") +:+ String "/" c)
        with (String x ((b +:+ "-shot") +:+ String "/" c)).
      rewrite IH. reflexivity. }
  destruct (KeyIndex.subcategory u); apply Hpre, Hthree.
Qed.

(** The report can be built from the keys of any list of evaluator
    units, hence from the keys [build_icl_evaluators] returns. *)
Lemma report_built_from_unit_keys {DataLoader} {Num} {arith : Arith Num}
    (us : list (KeyIndex.eval_unit DataLoader))
    (eval_metrics : gmap string (gmap string Num))
    benchmark_to_taxonomy model_name :
  exists df,
    calculate_markdown_results eval_metrics benchmark_to_taxonomy model_name
      (flat_map KeyIndex.canonical_keys us) = Ok df.
Proof.
  apply report_built. apply Forall_flat_map, Forall_forall. intros u _.
  apply Forall_map, Forall_forall. intros m _. apply canonical_key_long.
Qed.

(** In float arithmetic the mean depends on the order in which the values
    are added: the report shows the mean of the records in list order. *)
Example mean_depends_on_order :
  mean_of order_sensitive <> mean_of (rev order_sensitive).
Proof.
  intros H.
  apply (f_equal
           (fun o =>
              match o, mean_of (rev order_sensitive) with
              | Some x, Some y => PrimFloat.ltb y x
              | _, _ => false
              end)) in H.
  vm_compute in H. discriminate H.
Qed.

Example demo_report_computed :
  calculate_markdown_results demo_metrics demo_taxonomy_map "mpt-7b"
    demo_keys = Ok demo_report.
Proof. vm_compute. reflexivity. Qed.

Lemma report_rows_per_group_witness :
  exists results blocks,
    collect demo_metrics demo_keys = Ok results /\
    wf_results results /\
    Forall (fun g : @group PrimFloat.float => snd g <> []) (groups results) /\
    demo_report = concat blocks /\
    Forall2 rows_match_group (groups results) blocks.
Proof.
  apply (report_rows_per_group demo_metrics demo_taxonomy_map "mpt-7b"
           demo_keys demo_report).
  vm_compute. reflexivity.
Defined.

Lemma report_benchmark_column_witness :
  exists results blocks,
    collect demo_metrics demo_keys = Ok results /\
    demo_report = concat blocks /\
    Forall2 benchmark_column_ok (groups results) blocks.
Proof.
  apply (report_benchmark_column demo_metrics demo_taxonomy_map "mpt-7b"
           demo_keys demo_report).
  vm_compute. reflexivity.
Defined.
End ReportFacts.


(** ** The composite scores *)

Module GauntletFacts.
Import ModelGauntlet GauntletSpec.

Lemma mapM_nil {A B} (f : A -> result B) : mapM f [] = Ok [].
Proof. reflexivity. Qed.

Lemma mapM_cons {A B} (f : A -> result B) x l :
  mapM f (x :: l) = (y ← f x; k ← mapM f l; Ok (y :: k)).
Proof. reflexivity. Qed.

Lemma mapM_Ok {A B} (f : A -> result B) l k :
  mapM f l = Ok k -> Forall2 (fun x y => f x = Ok y) l k.
Proof.
  revert k. induction l as [|x l IH]; intros k.
  - rewrite mapM_nil. intros [= <-]. constructor.
  - rewrite mapM_cons. destruct (f x) as [y|e] eqn:Hx; [|discriminate].
    cbn [mbind result_bind bind].
    destruct (mapM f l) as [k'|e]; [|discriminate].
    cbn [mbind result_bind bind]. intros [= <-].
    constructor; [exact Hx|]. apply IH. reflexivity.
Qed.

Lemma mapM_total {A B} (f : A -> result B) (P : B -> Prop) l :
  Forall (fun x => exists y, f x = Ok y /\ P y) l ->
  exists k, mapM f l = Ok k /\ Forall P k /\ length k = length l.
Proof.
  induction 1 as [|x l (y & Hy & Py) _ (k & Hk & Pk & Hlen)].
  - exists []. repeat split. constructor.
  - exists (y :: k). rewrite mapM_cons, Hy, Hk. repeat split.
    + constructor; assumption.
    + simpl. rewrite Hlen. reflexivity.
Qed.

Lemma mapM_rel {A B} (R : B -> B -> Prop) (f g : A -> result B) l :
  Forall (fun x => res_rel R (f x) (g x)) l ->
  res_rel (Forall2 R) (mapM f l) (mapM g l).
Proof.
  induction 1 as [|x l Hx _ IH].
  - rewrite !mapM_nil. constructor. constructor.
  - rewrite !mapM_cons. destruct Hx as [y y' Hy|e]; [|constructor].
    cbn [mbind result_bind bind].
    destruct IH as [k k' Hk|e]; [|constructor].
    constructor. constructor; assumption.
Qed.

Lemma sum_Q_all_eq (q : Q) l :
  Forall (fun v => v == q)%Q l ->
  (sum_Q l == inject_Z (Z.of_nat (length l)) * q)%Q.
Proof.
  induction 1 as [|v l Hv _ IH].
  - simpl. ring.
  - cbn [sum_Q fold_right length]. fold (sum_Q l).
    rewrite IH, Hv, Nat2Z.inj_succ. unfold Z.succ. rewrite inject_Z_plus.
    ring.
Qed.

Lemma inject_nat_pos n : (0 < n)%nat -> ~ (inject_Z (Z.of_nat n) == 0)%Q.
Proof.
  intros Hn Heq. unfold Qeq in Heq. simpl in Heq. lia.
Qed.

Lemma mean_all_eq (q : Q) l :
  l <> [] -> Forall (fun v => v == q)%Q l ->
  exists m, mean l = Some m /\ (m == q)%Q.
Proof.
  intros Hne Hall. destruct l as [|v l]; [congruence|].
  eexists. split; [reflexivity|].
  rewrite (sum_Q_all_eq q) by exact Hall.
  field. apply inject_nat_pos. simpl. lia.
Qed.

Lemma sum_Q_Forall2 l l' :
  Forall2 Qeq l l' -> (sum_Q l == sum_Q l')%Q.
Proof.
  induction 1 as [|x y l l' Hxy _ IH]; [reflexivity|].
  cbn [sum_Q fold_right]. fold (sum_Q l) (sum_Q l').
  rewrite Hxy, IH. reflexivity.
Qed.

Lemma mean_Forall2 l l' :
  Forall2 Qeq l l' -> option_Forall2 Qeq (mean l) (mean l').
Proof.
  intros H. pose proof (Forall2_length _ _ _ H) as Hlen.
  pose proof (sum_Q_Forall2 _ _ H) as Hsum.
  destruct H as [|x y l l' Hxy Hl]; [constructor|].
  constructor. rewrite Hsum, Hlen. reflexivity.
Qed.

Lemma mapM_app {A B} (f : A -> result B) l1 l2 :
  mapM f (l1 ++ l2) = (k1 ← mapM f l1; k2 ← mapM f l2; Ok (k1 ++ k2)).
Proof.
  induction l1 as [|x l1 IH]; simpl app.
  - rewrite mapM_nil. cbn [mbind result_bind bind].
    destruct (mapM f l2); reflexivity.
  - rewrite !mapM_cons, IH. destruct (f x) as [y|e]; [|reflexivity].
    cbn [mbind result_bind bind].
    destruct (mapM f l1) as [k1|e]; [|reflexivity].
    cbn [mbind result_bind bind].
    destruct (mapM f l2) as [k2|e]; reflexivity.
Qed.

Lemma fold_insert_lookup (scored : list (string * Q)) (m0 : gmap string Q)
    k v :
  fold_left (fun r e => <[result_prefix +:+ fst e := snd e]> r) scored m0
    !! k = Some v ->
  m0 !! k = Some v \/
  exists e, e ∈ scored /\ k = result_prefix +:+ fst e /\ v = snd e.
Proof.
  revert m0. induction scored as [|e scored IH]; intros m0; simpl.
  - auto.
  - intros H. apply IH in H as [H|(e' & He' & Hk & Hv)].
    + destruct (decide (result_prefix +:+ fst e = k)) as [<-|Hne].
      * rewrite lookup_insert_eq in H. injection H as <-.
        right. exists e. split; [apply elem_of_cons; auto|auto].
      * rewrite lookup_insert_ne in H by exact Hne. auto.
    + right. exists e'. split; [apply elem_of_cons; auto|auto].
Qed.

Section Scorer.
Variable taxonomy : Taxonomy.
Variable logger_keys : list string.
Variable metric_store : gmap string (gmap string Q).

Let score_b := benchmark_score taxonomy logger_keys metric_store.
Let score_c := category_score taxonomy logger_keys metric_store.

Lemma unmatched_benchmark_score b :
  unmatched logger_keys b -> score_b b = Ok None.
Proof.
  unfold unmatched, score_b, benchmark_score. intros ->. reflexivity.
Qed.

Lemma unmatched_benchmark_dropped cname bs1 b bs2 :
  unmatched logger_keys b ->
  score_c (mk_category cname (bs1 ++ b :: bs2))
  = score_c (mk_category cname (bs1 ++ bs2)).
Proof.
  intros Hb. unfold score_c, category_score; simpl.
  rewrite !mapM_app, mapM_cons.
  fold score_b. rewrite (unmatched_benchmark_score b Hb).
  destruct (mapM score_b bs1) as [k1|e]; [|reflexivity].
  cbn [mbind result_bind bind].
  destruct (mapM score_b bs2) as [k2|e]; [|reflexivity].
  cbn [mbind result_bind bind].
  rewrite !omap_app. reflexivity.
Qed.

Lemma unmatched_category_score c :
  Forall (unmatched logger_keys) (benchmarks c) -> score_c c = Ok None.
Proof.
  intros Hall. unfold score_c, category_score. fold score_b.
  destruct (mapM_total score_b (fun o => o = None) (benchmarks c))
    as (k & -> & Hk & _).
  - eapply Forall_impl; [exact Hall|].
    intros b Hb. exists None. split; [apply unmatched_benchmark_score, Hb|].
    reflexivity.
  - cbn [mbind result_bind bind].
    replace (omap id k) with (@nil Q); [reflexivity|].
    induction Hk as [|o k -> _ IH]; [reflexivity|exact IH].
Qed.

Lemma scored_categories_elem scored n v :
  scored_categories taxonomy logger_keys metric_store = Ok scored ->
  (n, v) ∈ scored ->
  exists c, c ∈ categories taxonomy /\ category_name c = n /\
            score_c c = Ok (Some v).
Proof.
  unfold scored_categories. fold score_c.
  destruct (mapM _ (categories taxonomy)) as [scores|e] eqn:Hm;
    [|discriminate].
  cbn [mbind result_bind bind]. intros [= <-] Hin.
  apply list_elem_of_omap in Hin as ([n' o] & Hin & Heq).
  simpl in Heq. destruct o as [v'|]; [|discriminate].
  simpl in Heq. injection Heq as -> ->.
  apply mapM_Ok in Hm.
  apply list_elem_of_lookup in Hin as [i Hi].
  destruct (Forall2_lookup_r _ _ _ _ _ Hm Hi) as (c & Hc & Hy).
  exists c. split; [eapply list_elem_of_lookup_2, Hc|].
  destruct (score_c c) as [s|e]; [|discriminate].
  cbn [mbind result_bind bind] in Hy. injection Hy as <- <-. auto.
Qed.

(** Every entry of the composite result is the average or the score of a
    scored category. *)
Lemma composite_entry r k v :
  eval_after_all taxonomy logger_keys metric_store = Ok r ->
  r !! k = Some v ->
  k = result_prefix +:+ "average" \/
  exists c, c ∈ categories taxonomy /\
            k = result_prefix +:+ category_name c /\
            score_c c = Ok (Some v).
Proof.
  unfold eval_after_all.
  destruct (scored_categories taxonomy logger_keys metric_store)
    as [scored|e] eqn:Hs; [|discriminate].
  cbn [mbind result_bind bind]. intros [= <-] Hk.
  assert (fold_left (fun r e => <[result_prefix +:+ fst e := snd e]> r)
            scored (∅ : gmap string Q) !! k = Some v ->
          exists c, c ∈ categories taxonomy /\
                    k = result_prefix +:+ category_name c /\
                    score_c c = Ok (Some v)) as Hfold.
  { intros H. apply fold_insert_lookup in H as [H|([n v'] & Hin & -> & ->)].
    - rewrite lookup_empty in H. discriminate.
    - destruct (scored_categories_elem _ _ _ Hs Hin) as (c & Hc & <- & Hv).
      eauto. }
  destruct (mean (map snd scored)) as [average|]; [|auto].
  destruct (decide (result_prefix +:+ "average" = k)) as [<-|Hne]; [auto|].
  rewrite lookup_insert_ne in Hk by exact Hne. auto.
Qed.

Lemma fold_insert_present (scored : list (string * Q)) (m0 : gmap string Q)
    k :
  is_Some (m0 !! k) \/ (exists e, e ∈ scored /\ k = result_prefix +:+ fst e) ->
  is_Some (fold_left (fun r e => <[result_prefix +:+ fst e := snd e]> r)
             scored m0 !! k).
Proof.
  revert m0. induction scored as [|e scored IH]; intros m0; simpl.
  - intros [H|(e & He & _)]; [exact H|]. apply elem_of_nil in He as [].
  - intros [H|(e' & He' & Hk)]; apply IH.
    + left. destruct (decide (result_prefix +:+ fst e = k)) as [<-|Hne].
      * rewrite lookup_insert_eq. eauto.
      * rewrite lookup_insert_ne by exact Hne. exact H.
    + apply elem_of_cons in He' as [->|He'].
      * left. subst k. rewrite lookup_insert_eq. eauto.
      * right. eauto.
Qed.

Section ZeroBaseline.
Hypothesis Hsubtract : subtract_random_baseline taxonomy = true.
Hypothesis Hrescale : rescale_accuracy taxonomy = true.

Lemma key_score_zero_baseline b k :
  (random_baseline b == 0)%Q ->
  res_rel Qeq (key_score taxonomy metric_store b k)
    (raw_value metric_store k).
Proof.
  intros Hb. unfold key_score.
  destruct (raw_value metric_store k) as [v|e]; [|constructor].
  cbn [mbind result_bind bind]. unfold rescale.
  rewrite Hsubtract, Hrescale.
  destruct (Qeq_bool (random_baseline b) 1) eqn:Hone.
  - apply Qeq_bool_eq in Hone. rewrite Hb in Hone. discriminate Hone.
  - constructor. rewrite Hb. field.
Qed.

Lemma benchmark_zero_baseline b :
  (~ unmatched logger_keys b -> (random_baseline b == 0)%Q) ->
  res_rel (option_Forall2 Qeq) (score_b b)
    (raw_benchmark_mean logger_keys metric_store b).
Proof.
  unfold unmatched, score_b, benchmark_score, raw_benchmark_mean.
  intros Hb.
  destruct (index logger_keys (name b) (num_fewshot b)) as [|k [|k' ks]].
  - constructor. constructor.
  - specialize (Hb ltac:(discriminate)).
    rewrite mapM_cons, mapM_nil.
    destruct (key_score_zero_baseline b k Hb) as [v v' Hv|e];
      [|constructor].
    constructor. constructor. rewrite Hv. simpl. field.
  - specialize (Hb ltac:(discriminate)).
    destruct (mapM_rel Qeq (key_score taxonomy metric_store b)
                (raw_value metric_store) (k :: k' :: ks))
      as [vs vs' Hvs|e]; [| |constructor].
    + apply Forall_forall. intros k0 _.
      apply key_score_zero_baseline, Hb.
    + constructor. apply mean_Forall2, Hvs.
Qed.

Lemma omap_id_Forall2 (l l' : list (option Q)) :
  Forall2 (option_Forall2 Qeq) l l' -> Forall2 Qeq (omap id l) (omap id l').
Proof.
  induction 1 as [|o o' l l' Ho _ IH]; [constructor|].
  destruct Ho as [v v' Hv|]; simpl; [constructor; assumption|exact IH].
Qed.

Lemma category_zero_baseline c :
  Forall (fun b => ~ unmatched logger_keys b -> (random_baseline b == 0)%Q)
         (benchmarks c) ->
  res_rel (option_Forall2 Qeq) (score_c c)
    (raw_category_mean logger_keys metric_store c).
Proof.
  intros Hc. unfold score_c, category_score, raw_category_mean.
  fold score_b.
  destruct (mapM_rel (option_Forall2 Qeq) score_b
              (raw_benchmark_mean logger_keys metric_store) (benchmarks c))
    as [os os' Hos|e]; [| |constructor].
  - eapply Forall_impl; [exact Hc|]. intros b.
    apply benchmark_zero_baseline.
  - constructor. apply mean_Forall2, omap_id_Forall2, Hos.
Qed.

Section ConstantAccuracy.
Variable q : Q.

Lemma benchmark_score_constant b :
  (~ unmatched logger_keys b -> (random_baseline b == 0)%Q) ->
  (forall k, k ∈ index logger_keys (name b) (num_fewshot b) ->
             exists v, raw_value metric_store k = Ok v /\ (v == q)%Q) ->
  exists o, score_b b = Ok o /\ forall v, o = Some v -> (v == q)%Q.
Proof.
  intros Hbase Hraw.
  pose proof (benchmark_zero_baseline b Hbase) as Hrel.
  unfold raw_benchmark_mean in Hrel.
  destruct (index logger_keys (name b) (num_fewshot b)) as [|k ks] eqn:Hidx.
  - inversion Hrel as [o o' Ho Heq1 Heq2|]; subst.
    exists o. split; [reflexivity|]. intros v ->. inversion Ho.
  - destruct (mapM_total (raw_value metric_store) (fun v => v == q)%Q
                (k :: ks)) as (vs & Hvs & Hall & Hlen).
    { apply Forall_forall. intros k0 Hk0. apply Hraw, Hk0. }
    rewrite Hvs in Hrel.
    destruct (mean_all_eq q vs) as (m & Hm & Hmq); [|exact Hall|].
    { destruct vs; [discriminate Hlen|discriminate]. }
    cbn [fmap result_fmap fmap_result bind] in Hrel. rewrite Hm in Hrel.
    inversion Hrel as [o o' Ho Heq1 Heq2|]; subst.
    exists o. split; [reflexivity|]. intros v ->.
    inversion Ho; subst. etransitivity; eassumption.
Qed.

Lemma category_score_constant c :
  reports_constant taxonomy logger_keys metric_store q ->
  c ∈ categories taxonomy ->
  exists o, score_c c = Ok o /\ forall v, o = Some v -> (v == q)%Q.
Proof.
  intros Hconst Hc. unfold score_c, category_score. fold score_b.
  destruct (mapM_total score_b (fun o => forall v, o = Some v -> v == q)%Q
              (benchmarks c)) as (os & -> & Hall & _).
  { apply Forall_forall. intros b Hb.
    destruct (Hconst c b Hc Hb) as [Hbase Hraw].
    apply benchmark_score_constant; assumption. }
  cbn [mbind result_bind bind]. eexists. split; [reflexivity|].
  assert (Forall (fun v => v == q)%Q (omap id os)) as Hvs.
  { clear -Hall. induction Hall as [|o os Ho _ IH]; [constructor|].
    destruct o as [v|]; simpl; [constructor; auto|exact IH]. }
  intros v Hv. destruct (omap id os) as [|v0 vs] eqn:Hos; [discriminate|].
  destruct (mean_all_eq q (v0 :: vs)) as (m & Hm & Hmq);
    [discriminate|exact Hvs|].
  rewrite Hm in Hv. injection Hv as <-. exact Hmq.
Qed.

Lemma scored_categories_constant :
  reports_constant taxonomy logger_keys metric_store q ->
  exists scored,
    scored_categories taxonomy logger_keys metric_store = Ok scored /\
    Forall (fun e => snd e == q)%Q scored /\
    (forall c v, c ∈ categories taxonomy -> score_c c = Ok (Some v) ->
                 (category_name c, v) ∈ scored).
Proof.
  intros Hconst. unfold scored_categories. fold score_c.
  destruct (mapM_total (fun c => s ← score_c c; Ok (category_name c, s))
              (fun e : string * option Q =>
                 forall v, snd e = Some v -> v == q)%Q
              (categories taxonomy)) as (scores & Hm & Hall & _).
  { apply Forall_forall. intros c Hc.
    destruct (category_score_constant c Hconst Hc) as (o & -> & Ho).
    cbn [mbind result_bind bind]. eexists. split; [reflexivity|exact Ho]. }
  rewrite Hm. cbn [mbind result_bind bind].
  eexists. split; [reflexivity|]. split.
  - apply Forall_forall. intros [n v] Hin.
    apply list_elem_of_omap in Hin as ([n' o] & Hin & Heq).
    destruct o as [v'|]; [|discriminate]. simpl in Heq.
    injection Heq as -> ->.
    rewrite Forall_forall in Hall.
    apply (Hall (n, Some v)); [exact Hin|reflexivity].
  - intros c v Hc Hv. apply mapM_Ok in Hm.
    apply list_elem_of_lookup in Hc as [i Hi].
    destruct (Forall2_lookup_l _ _ _ _ _ Hm Hi) as (y & Hy & Hcy).
    rewrite Hv in Hcy. cbn [mbind result_bind bind] in Hcy.
    injection Hcy as <-.
    apply list_elem_of_omap. exists (category_name c, Some v).
    split; [eapply list_elem_of_lookup_2, Hy|reflexivity].
Qed.

(** With a constant raw accuracy and zero baselines the scorer returns,
    every entry of its result is that accuracy, every scored category has
    an entry, and so has the average as soon as one category is scored. *)
Lemma composite_constant :
  reports_constant taxonomy logger_keys metric_store q ->
  exists r,
    eval_after_all taxonomy logger_keys metric_store = Ok r /\
    (forall k v, r !! k = Some v -> (v == q)%Q) /\
    (forall c v, c ∈ categories taxonomy -> score_c c = Ok (Some v) ->
       is_Some (r !! (result_prefix +:+ category_name c)) /\
       is_Some (r !! (result_prefix +:+ "average"))).
Proof.
  intros Hconst.
  destruct (scored_categories_constant Hconst) as (scored & Hs & Hall & Hin).
  unfold eval_after_all. rewrite Hs. cbn [mbind result_bind bind].
  eexists. split; [reflexivity|].
  assert (forall k v,
            fold_left (fun r e => <[result_prefix +:+ fst e := snd e]> r)
              scored (∅ : gmap string Q) !! k = Some v -> (v == q)%Q)
    as Hfold.
  { intros k v H. apply fold_insert_lookup in H as [H|(e & He & _ & ->)].
    - rewrite lookup_empty in H. discriminate.
    - rewrite Forall_forall in Hall. apply Hall, He. }
  split.
  - intros k v.
    destruct (mean (map snd scored)) as [average|] eqn:Hmean; [|apply Hfold].
    destruct (decide (result_prefix +:+ "average" = k)) as [<-|Hne].
    + rewrite lookup_insert_eq. intros [= <-].
      destruct (mean_all_eq q (map snd scored)) as (m & Hm & Hmq).
      * destruct scored; [discriminate Hmean|discriminate].
      * apply Forall_map. exact Hall.
      * rewrite Hm in Hmean. injection Hmean as <-. exact Hmq.
    + rewrite lookup_insert_ne by exact Hne. apply Hfold.
  - intros c v Hc Hv. specialize (Hin c v Hc Hv).
    destruct scored as [|e0 scored0] eqn:Hsc; [apply elem_of_nil in Hin as []|].
    rewrite <- Hsc in *. replace (mean (map snd scored)) with
      (Some (sum_Q (map snd scored)
             / inject_Z (Z.of_nat (length (map snd scored))))%Q)
      by (rewrite Hsc; reflexivity).
    split.
    + destruct (decide (result_prefix +:+ "average"
                        = result_prefix +:+ category_name c)) as [<-|Hne].
      * rewrite lookup_insert_eq. eauto.
      * rewrite lookup_insert_ne by exact Hne.
        apply fold_insert_present. right.
        exists (category_name c, v). split; [exact Hin|reflexivity].
    + rewrite lookup_insert_eq. eauto.
Qed.
End ConstantAccuracy.
End ZeroBaseline.
End Scorer.

Lemma reports_constantb_sound taxonomy logger_keys metric_store q :
  reports_constantb taxonomy logger_keys metric_store q = true ->
  reports_constant taxonomy logger_keys metric_store q.
Proof.
  unfold reports_constantb, reports_constant. intros H c b Hc Hb.
  rewrite forallb_forall in H.
  specialize (H c (proj1 (list_elem_of_In _ _) Hc)).
  rewrite forallb_forall in H.
  specialize (H b (proj1 (list_elem_of_In _ _) Hb)).
  apply andb_true_iff in H as [Hbase Hraw]. split.
  - unfold unmatched. intros Hm.
    destruct (index logger_keys (name b) (num_fewshot b)); [congruence|].
    apply Qeq_bool_eq, Hbase.
  - intros k Hk. rewrite forallb_forall in Hraw.
    specialize (Hraw k (proj1 (list_elem_of_In _ _) Hk)).
    destruct (raw_value metric_store k) as [v|e]; [|discriminate].
    exists v. split; [reflexivity|]. apply Qeq_bool_eq, Hraw.
Qed.

Example test_gauntlet_callback :
  match eval_after_all test_taxonomy test_logger_keys test_store with
  | Ok r =>
      map (fun c => Qred <$> r !! (result_prefix +:+ c))
        ["world_knowledge"; "language_understanding";
         "reading_comprehension"; "symbolic_problem_solving"; "average";
         "commonsense_reasoning"]
      = [Some (1 # 4)%Q; Some (1 # 4)%Q; Some (1 # 4)%Q; Some (1 # 4)%Q;
         Some (1 # 4)%Q; None]
  | Raise _ => False
  end.
Proof. vm_compute. reflexivity. Qed.

(** C2: with [subtract_random_baseline] and [rescale_accuracy] both set,
    the score of a category whose matched benchmarks all have baseline 0
    is the mean, over its matched benchmarks, of the means of their raw
    values (same exception otherwise); and when moreover every matched
    benchmark of the taxonomy reports raw accuracy 0.25, the scorer
    returns a result in which every scored category has the entry 0.25
    and, some category being scored, the average is 0.25. *)
Theorem zero_baseline_scores_are_raw_means (taxonomy : Taxonomy)
    (logger_keys : list string) (metric_store : gmap string (gmap string Q)) :
  subtract_random_baseline taxonomy = true ->
  rescale_accuracy taxonomy = true ->
  (forall c,
     Forall (fun b => ~ unmatched logger_keys b -> (random_baseline b == 0)%Q)
            (benchmarks c) ->
     res_rel (option_Forall2 Qeq)
       (category_score taxonomy logger_keys metric_store c)
       (raw_category_mean logger_keys metric_store c)) /\
  (reports_constant taxonomy logger_keys metric_store (1 # 4) ->
   exists r,
     eval_after_all taxonomy logger_keys metric_store = Ok r /\
     forall c v,
       c ∈ categories taxonomy ->
       category_score taxonomy logger_keys metric_store c = Ok (Some v) ->
       (exists v', r !! (result_prefix +:+ category_name c) = Some v' /\
                   (v' == 1 # 4)%Q) /\
       (exists a, r !! (result_prefix +:+ "average") = Some a /\
                  (a == 1 # 4)%Q)).
Proof.
  intros Hsub Hres. split.
  - intros c Hc. apply category_zero_baseline; assumption.
  - intros Hconst.
    destruct (composite_constant taxonomy logger_keys metric_store Hsub Hres
                (1 # 4) Hconst) as (r & Hr & Hvals & Hkeys).
    exists r. split; [exact Hr|]. intros c v Hc Hv.
    destruct (Hkeys c v Hc Hv) as [[v' Hv'] [a Ha]].
    split; [exists v'|exists a]; eauto.
Qed.

Lemma zero_baseline_scores_are_raw_means_witness :
  exists r,
    eval_after_all test_taxonomy test_logger_keys test_store = Ok r /\
    (exists v', r !! (result_prefix +:+ "world_knowledge") = Some v' /\
                (v' == 1 # 4)%Q) /\
    (exists a, r !! (result_prefix +:+ "average") = Some a /\
               (a == 1 # 4)%Q).
Proof.
  destruct (zero_baseline_scores_are_raw_means test_taxonomy test_logger_keys
              test_store eq_refl eq_refl) as [_ H].
  destruct H as (r & Hr & Hall).
  - apply reports_constantb_sound. vm_compute. reflexivity.
  - exists r. split; [exact Hr|].
    set (c := mk_category "world_knowledge"
                [mk_benchmark "jeopardy" 10 0;
                 mk_benchmark "bigbench_qa_wikidata" 10 0;
                 mk_benchmark "arc_easy" 10 (1 # 4);
                 mk_benchmark "arc_challenge" 10 (1 # 4);
                 mk_benchmark "mmlu" 10 (1 # 4);
                 mk_benchmark "bigbench_misconceptions" 10 (1 # 2)]).
    destruct (category_score test_taxonomy test_logger_keys test_store c)
      as [[v|]|e] eqn:Hv;
      [|vm_compute in Hv; discriminate Hv|vm_compute in Hv; discriminate Hv].
    apply (Hall c v); [|exact Hv].
    apply elem_of_cons. left. reflexivity.
Defined.

(** A category without a matched benchmark can be deleted from the
    taxonomy: the scorer returns the same result. *)
Lemma unmatched_category_dropped logger_keys metric_store cs1 c cs2 w s r :
  Forall (unmatched logger_keys) (benchmarks c) ->
  eval_after_all (mk_taxonomy (cs1 ++ c :: cs2) w s r) logger_keys
    metric_store
  = eval_after_all (mk_taxonomy (cs1 ++ cs2) w s r) logger_keys metric_store.
Proof.
  intros Hc. unfold eval_after_all.
  assert (scored_categories (mk_taxonomy (cs1 ++ c :: cs2) w s r)
            logger_keys metric_store
          = scored_categories (mk_taxonomy (cs1 ++ cs2) w s r) logger_keys
              metric_store) as ->; [|reflexivity].
  unfold scored_categories; simpl.
  set (f := fun c0 =>
              s0 ← category_score (mk_taxonomy (cs1 ++ cs2) w s r)
                     logger_keys metric_store c0;
              Ok (category_name c0, s0)).
  change (mapM f (cs1 ++ c :: cs2) ≫= (fun scores =>
            Ok (omap (fun e => pair (fst e) <$> snd e) scores))
          = mapM f (cs1 ++ cs2) ≫= (fun scores =>
              Ok (omap (fun e => pair (fst e) <$> snd e) scores))).
  rewrite !mapM_app, mapM_cons.
  assert (f c = Ok (category_name c, None)) as ->.
  { unfold f. rewrite unmatched_category_score by exact Hc. reflexivity. }
  destruct (mapM f cs1) as [k1|e]; [|reflexivity].
  cbn [mbind result_bind bind].
  destruct (mapM f cs2) as [k2|e]; [|reflexivity].
  cbn [mbind result_bind bind].
  rewrite !omap_app. reflexivity.
Qed.

(** C4: a benchmark of the taxonomy that matches no decomposed key is
    skipped without error (its score is undefined, not an exception) and a
    category scores the same with or without it; a category all of whose
    benchmarks are skipped has no score and can be deleted from the
    taxonomy without changing the result, and, its name being neither
    shared with a category that has matched benchmarks nor the reserved
    [average], the composite result has no entry for it. *)
Theorem unmatched_benchmarks_are_skipped (taxonomy : Taxonomy)
    (logger_keys : list string) (metric_store : gmap string (gmap string Q)) :
  (forall b, unmatched logger_keys b ->
             benchmark_score taxonomy logger_keys metric_store b = Ok None) /\
  (forall cname bs1 b bs2, unmatched logger_keys b ->
     category_score taxonomy logger_keys metric_store
       (mk_category cname (bs1 ++ b :: bs2))
     = category_score taxonomy logger_keys metric_store
         (mk_category cname (bs1 ++ bs2))) /\
  (forall c, Forall (unmatched logger_keys) (benchmarks c) ->
     category_score taxonomy logger_keys metric_store c = Ok None) /\
  (forall cs1 c cs2,
     categories taxonomy = cs1 ++ c :: cs2 ->
     Forall (unmatched logger_keys) (benchmarks c) ->
     eval_after_all taxonomy logger_keys metric_store
     = eval_after_all
         (mk_taxonomy (cs1 ++ cs2) (weighting taxonomy)
            (subtract_random_baseline taxonomy) (rescale_accuracy taxonomy))
         logger_keys metric_store) /\
  (forall c r,
     Forall (unmatched logger_keys) (benchmarks c) ->
     (forall c', c' ∈ categories taxonomy ->
                 category_name c' = category_name c ->
                 Forall (unmatched logger_keys) (benchmarks c')) ->
     category_name c <> "average" ->
     eval_after_all taxonomy logger_keys metric_store = Ok r ->
     r !! (result_prefix +:+ category_name c) = None).
Proof.
  split; [apply unmatched_benchmark_score|].
  split; [apply unmatched_benchmark_dropped|].
  split; [apply unmatched_category_score|].
  split.
  { intros cs1 c cs2 Hcats Hc. destruct taxonomy as [cats w s r].
    simpl in *. subst cats. apply unmatched_category_dropped, Hc. }
  intros c r Hc Hsame Havg Hr.
  destruct (r !! (result_prefix +:+ category_name c)) as [v|] eqn:Hk;
    [|reflexivity].
  exfalso.
  destruct (composite_entry _ _ _ _ _ _ Hr Hk) as [Heq|(c' & Hc' & Heq & Hv)].
  - apply (inj (String.app result_prefix)) in Heq. contradiction.
  - apply (inj (String.app result_prefix)) in Heq.
    rewrite (unmatched_category_score _ _ _ c') in Hv; [discriminate|].
    apply Hsame; [exact Hc'|]. symmetry. exact Heq.
Qed.

Lemma unmatched_benchmarks_are_skipped_witness :
  exists r,
    eval_after_all test_taxonomy test_logger_keys test_store = Ok r /\
    r !! (result_prefix +:+ "commonsense_reasoning") = None.
Proof.
  destruct (eval_after_all test_taxonomy test_logger_keys test_store)
    as [r|e] eqn:Hr; [|vm_compute in Hr; discriminate Hr].
  exists r. split; [reflexivity|].
  destruct (unmatched_benchmarks_are_skipped test_taxonomy test_logger_keys
              test_store) as (_ & _ & _ & _ & H).
  apply (H (mk_category "commonsense_reasoning"
              [mk_benchmark "copa" 0 (1 # 2);
               mk_benchmark "piqa" 10 (1 # 2);
               mk_benchmark "openbook_qa" 0 (1 # 4);
               mk_benchmark "bigbench_novel_concepts" 10 (1 # 4);
               mk_benchmark "bigbench_strange_stories" 10 (1 # 2);
               mk_benchmark "bigbench_strategy_qa" 10 (1 # 2)]) r).
  - repeat constructor.
  - intros c' Hc' Hname.
    repeat (apply elem_of_cons in Hc' as [->|Hc']);
      try discriminate Hname; [repeat constructor|].
    apply elem_of_nil in Hc' as [].
  - discriminate.
  - exact Hr.
Defined.
End GauntletFacts.

(** * Further properties of the code *)

(** ** More on task resolution and evaluator building *)

Module BuilderExtras.
Import Builders ResolverSpec KeyIndex ExtraSpec.

Lemma validate_complete dms dbs c c' :
  _validate_cfg dms dbs c = Ok c' -> complete c'.
Proof.
  unfold _validate_cfg, complete.
  destruct c as [l u t n ms ps ed cd msl bs pk nb hc]; simpl.
  destruct l; [|discriminate].
  destruct u as [[u|]|]; try discriminate.
  destruct t as [ty|]; [|discriminate].
  destruct n; [|discriminate].
  rewrite !bool_decide_eq_true_2 by eauto.
  unfold mbind, result_bind; simpl.
  destruct ms as [ms|]; simpl.
  - intros [= <-].
    destruct ps, ed, cd, msl, bs, pk, nb; simpl; repeat split; eauto.
  - destruct (default_metric_names ty) as [dm|]; [|discriminate]. simpl.
    intros [= <-].
    destruct ps, ed, cd, msl, bs, pk, nb; simpl; repeat split; eauto.
Qed.

Lemma validate_of_complete dms dbs c :
  complete c -> _validate_cfg dms dbs c = Ok c.
Proof.
  destruct c as [l u t n ms ps ed cd msl bs pk nb hc].
  unfold complete; simpl.
  intros ([? ->] & [? ->] & [? ->] & [? ->] & [? ->] & [? ->] & [? ->]
          & [? ->] & [? ->] & [? ->] & [? ->] & [? ->]).
  reflexivity.
Qed.

(** X1: resolving an entry that was already resolved changes nothing,
    whatever defaults the second resolution is given. *)
Theorem validate_cfg_idempotent dms dbs dms' dbs' (c c' : IclCfg.t) :
  _validate_cfg dms dbs c = Ok c' ->
  _validate_cfg dms' dbs' c' = Ok c'.
Proof.
  intros H. apply validate_of_complete. eapply validate_complete, H.
Qed.

Lemma validate_cfg_idempotent_witness :
  exists c',
    _validate_cfg 2048 8 cfg_minimal = Ok c' /\
    _validate_cfg 512 1 c' = Ok c' /\
    IclCfg.max_seq_len c' = Some 2048%Z.
Proof.
  eexists. split; [reflexivity|]. split.
  - apply (validate_cfg_idempotent 2048 8 512 1 cfg_minimal). reflexivity.
  - reflexivity.
Defined.

Lemma flat_mapM_app {A B} (f : A -> result (list B)) l1 l2 :
  flat_mapM f (l1 ++ l2)
  = (ys ← flat_mapM f l1; zs ← flat_mapM f l2; Ok (ys ++ zs)).
Proof.
  induction l1 as [|x l1 IH]; simpl.
  - destruct (flat_mapM f l2); simpl; reflexivity.
  - rewrite IH. unfold mbind, result_bind, bind.
    destruct (f x) as [y|e]; [|reflexivity].
    destruct (flat_mapM f l1) as [ys|e]; [|reflexivity].
    destruct (flat_mapM f l2) as [zs|e]; [|reflexivity].
    rewrite app_assoc. reflexivity.
Qed.

Lemma flat_mapM_Forall2 {A B} (f g : A -> result (list B)) l l' :
  Forall2 (fun x y => f x = g y) l l' -> flat_mapM f l = flat_mapM g l'.
Proof.
  induction 1 as [|x y l l' Hxy _ IH]; [reflexivity|].
  simpl. rewrite Hxy, IH. reflexivity.
Qed.

Section Building.
Context {DataLoader : Type}.
Variable loader : LoaderArgs.t -> result (dataloaders DataLoader).
Variable tok : Tokenizer.t.
Variable dir : string.

(** X2: building the evaluators again from entries that an earlier call
    resolved in place gives the outcome of building them from the raw
    entries, whatever default sequence length and batch size the second
    call is given: the defaults of the first call stay in the entries. *)
Theorem build_on_resolved_entries dms dbs dms' dbs' sub
    (tasks tasks' : list IclCfg.t) :
  Forall2 (fun c c' => _validate_cfg dms dbs c = Ok c') tasks tasks' ->
  build_icl_evaluators loader tok dms' dbs' dir sub tasks'
  = build_icl_evaluators loader tok dms dbs dir sub tasks.
Proof.
  intros Hres. rewrite !KeyIndexFacts.build_by_units.
  assert (all_units loader tok dms' dbs' dir tasks'
          = all_units loader tok dms dbs dir tasks) as ->; [|reflexivity].
  unfold all_units. symmetry. apply flat_mapM_Forall2.
  eapply Forall2_impl; [exact Hres|].
  intros c c' Hc. unfold task_units.
  rewrite Hc, (validate_of_complete dms' dbs' c' (validate_complete _ _ _ _ Hc)).
  reflexivity.
Qed.

(** X3: building from the concatenation of two task lists is building
    from the first, then from the second, and concatenating the
    evaluators and the keys; a failure in the first list comes first. *)
Theorem build_concatenates dms dbs sub (tasks1 tasks2 : list IclCfg.t) :
  build_icl_evaluators loader tok dms dbs dir sub (tasks1 ++ tasks2)
  = (r1 ← build_icl_evaluators loader tok dms dbs dir sub tasks1;
     r2 ← build_icl_evaluators loader tok dms dbs dir sub tasks2;
     Ok (fst r1 ++ fst r2, snd r1 ++ snd r2)).
Proof.
  rewrite !KeyIndexFacts.build_by_units. unfold all_units.
  rewrite flat_mapM_app. unfold mbind, result_bind, bind.
  destruct (flat_mapM _ tasks1) as [us1|e]; [|reflexivity].
  destruct (flat_mapM _ tasks2) as [us2|e]; [|reflexivity].
  simpl. rewrite map_app, flat_map_app. reflexivity.
Qed.

(** X5: every evaluator that [build_icl_evaluators] returns is the
    evaluator of a unit, in order; the subset cap
    [icl_subset_num_batches] is given to the evaluators of uncategorized
    units only, an evaluator of a subcategory never gets it. *)
Theorem subset_cap_on_uncategorized_only dms dbs sub
    (tasks : list IclCfg.t) evs keys :
  build_icl_evaluators loader tok dms dbs dir sub tasks = Ok (evs, keys) ->
  exists us,
    all_units loader tok dms dbs dir tasks = Ok us /\
    Forall2
      (fun e u =>
         Evaluator.label e = unit_label u /\
         Evaluator.dataloader e = unit_dataloader u /\
         Evaluator.subset_num_batches e
           = match subcategory u with
             | None => sub
             | Some _ => None
             end)
      evs us.
Proof.
  rewrite KeyIndexFacts.build_by_units.
  destruct (all_units loader tok dms dbs dir tasks) as [us|e];
    [|discriminate].
  cbn. intros [= <- <-]. exists us. split; [reflexivity|].
  induction us as [|u us IH]; simpl; constructor; [|exact IH].
  repeat split.
Qed.
End Building.

Lemma build_on_resolved_entries_witness :
  exists tasks',
    Forall2 (fun c c' => _validate_cfg 1024 4 c = Ok c') demo_tasks tasks' /\
    build_icl_evaluators demo_loader demo_tokenizer 64 1 "." None tasks'
    = build_icl_evaluators demo_loader demo_tokenizer 1024 4 "." None
        demo_tasks.
Proof.
  eexists. split.
  - repeat (constructor; [reflexivity|]). constructor.
  - apply (build_on_resolved_entries demo_loader demo_tokenizer "."
             1024 4 64 1 None demo_tasks).
    repeat (constructor; [reflexivity|]). constructor.
Defined.

Lemma subset_cap_on_uncategorized_only_witness :
  exists evs keys us,
    build_icl_evaluators demo_loader demo_tokenizer 1024 4 "." (Some 1%Z)
      demo_tasks = Ok (evs, keys) /\
    all_units demo_loader demo_tokenizer 1024 4 "." demo_tasks = Ok us /\
    map Evaluator.subset_num_batches evs
    = [None; None; Some 1%Z; Some 1%Z].
Proof.
  destruct (subset_cap_on_uncategorized_only demo_loader demo_tokenizer "."
              1024 4 (Some 1%Z) demo_tasks _ _ KeyIndexFacts.demo_build)
    as (us & Hus & _).
  eexists. eexists. exists us.
  split; [exact KeyIndexFacts.demo_build|]. split; [exact Hus|reflexivity].
Defined.

Lemma length_append (s t : string) :
  String.length (s +:+ t) = (String.length s + String.length t)%nat.
Proof.
  induction s as [|a s IH]; [reflexivity|].
  rewrite KeyIndexFacts.append_cons. simpl. rewrite IH. reflexivity.
Qed.

Lemma append_inj_r (s s' t : string) : s +:+ t = s' +:+ t -> s = s'.
Proof.
  revert s'. induction s as [|a s IH]; intros [|a' s'] H.
  - reflexivity.
  - apply (f_equal String.length) in H.
    rewrite !length_append in H. simpl in H. lia.
  - apply (f_equal String.length) in H.
    rewrite !length_append in H. simpl in H. lia.
  - rewrite !KeyIndexFacts.append_cons in H. injection H as -> H.
    f_equal. apply IH, H.
Qed.

Lemma to_int_not_nil z : Z.to_int z <> Decimal.Pos Decimal.Nil /\
                         Z.to_int z <> Decimal.Neg Decimal.Nil.
Proof.
  destruct z as [|p|p]; simpl; split; try discriminate;
    intros [= H]; apply (DecimalPos.Unsigned.to_uint_nonnil p H).
Qed.

Lemma str_int_inj z z' : str_int z = str_int z' -> z = z'.
Proof.
  unfold str_int. intros H.
  apply (f_equal NilZero.int_of_string) in H.
  destruct (to_int_not_nil z) as [Hp Hn].
  destruct (to_int_not_nil z') as [Hp' Hn'].
  rewrite !NilZero.isi in H by assumption.
  injection H as H. apply DecimalZ.to_int_inj, H.
Qed.

(** X6: two evaluator units of the same task and the same subcategory
    (or both without one) that differ in their few-shot count have
    different evaluator labels, and different keys for every metric. *)
Theorem fewshot_counts_give_distinct_keys {DataLoader}
    (u u' : eval_unit DataLoader) (m : string) :
  base_label u = base_label u' ->
  subcategory u = subcategory u' ->
  fewshot u <> fewshot u' ->
  unit_label u <> unit_label u' /\ canonical_key u m <> canonical_key u' m.
Proof.
  intros Hbase Hsub Hn. unfold unit_label, canonical_key.
  rewrite Hbase, Hsub. split; intros Heq; apply Hn, str_int_inj.
  - destruct (subcategory u');
      apply (inj (String.app _)), (inj (String.app _)) in Heq;
      eapply append_inj_r, Heq.
  - destruct (subcategory u');
      apply (inj (String.app _)), (inj (String.app _)),
        (inj (String.app _)) in Heq;
      eapply append_inj_r, Heq.
Qed.

Lemma fewshot_counts_give_distinct_keys_witness :
  unit_label (mk_unit "squad" 0 None ["Acc"] (SingleLoader tt))
    <> unit_label (mk_unit "squad" 10 None ["Acc"] (SingleLoader tt)) /\
  canonical_key (mk_unit "squad" 0 None ["Acc"] (SingleLoader tt)) "Acc"
    <> canonical_key (mk_unit "squad" 10 None ["Acc"] (SingleLoader tt)) "Acc".
Proof.
  apply fewshot_counts_give_distinct_keys; [reflexivity|reflexivity|].
  simpl. lia.
Defined.
End BuilderExtras.

(** ** More on the markdown report *)

Module ReportExtras.
Import Eval ReportSpec ReportExtraSpec.

Lemma get_upsert {V} k k' (dflt : V) f d :
  ODict.get k' (ODict.upsert k dflt f d)
  = if String.eqb k k' then Some (f (default dflt (ODict.get k d)))
    else ODict.get k' d.
Proof.
  induction d as [|[k0 v] d IH]; simpl.
  - destruct (String.eqb k k'); reflexivity.
  - destruct (String.eqb_spec k0 k) as [->|Hne]; simpl.
    + destruct (String.eqb_spec k k') as [->|Hne']; [reflexivity|].
      reflexivity.
    + rewrite IH. destruct (String.eqb_spec k0 k') as [->|Hne'].
      * destruct (String.eqb_spec k k') as [->|_]; [congruence|reflexivity].
      * reflexivity.
Qed.

Lemma last_item_split key :
  last_item (split "/" key) = Ok (List.last (split "/" key) "").
Proof.
  pose proof (ReportFacts.split_nonempty "/" key) as Hne.
  destruct (split "/" key) as [|x l] using rev_ind; [congruence|].
  unfold last_item. rewrite rev_app_distr, last_last. reflexivity.
Qed.

Lemma slice_parts (parts : list string) :
  nth_error (slice_1_m1 parts) 0
    = (if Nat.leb 3 (length parts) then Some (nth 1 parts "") else None) /\
  nth_error (slice_1_m1 parts) 1
    = (if Nat.leb 4 (length parts) then Some (nth 2 parts "") else None) /\
  Nat.eqb (length (slice_1_m1 parts)) 3 = Nat.eqb (length parts) 5 /\
  (length parts = 5%nat -> List.last (slice_1_m1 parts) "" = nth 3 parts "").
Proof.
  destruct parts as [|a [|b [|c [|d [|e [|f l]]]]]];
    repeat split; (reflexivity || (simpl; intros; lia)).
Qed.

Section Collect.
Context {Num : Type}.
Variable missing : Num.
Variable eval_metrics : gmap string (gmap string Num).

(** What one pass of the first loop does with a key. *)
Lemma collect_body_cases results key :
  collect_body eval_metrics results key
  = if accepted eval_metrics key then
      if short_key key then Raise (IndexError "list index out of range")
      else Ok (add_record (key_group key)
                 (key_subscore missing eval_metrics key) results)
    else Ok results.
Proof.
  unfold collect_body, accepted, short_key, key_group, key_subscore,
    add_record.
  rewrite last_item_split. cbn [mbind result_bind bind].
  set (parts := split "/" key).
  destruct (contains "Accuracy" (List.last parts "")); [|reflexivity].
  cbn [negb andb].
  destruct (default ∅ (eval_metrics !! join "/" (slice_1_m1 parts))
              !! List.last parts "") as [metric|]; [|reflexivity].
  rewrite bool_decide_eq_true_2 by eauto.
  destruct (slice_parts parts) as (H0 & H1 & H3 & _).
  unfold item. rewrite H1, H0, H3.
  destruct (Nat.ltb_spec (length parts) 4) as [Hshort|Hlong].
  - destruct (Nat.leb_spec 4 (length parts)); [lia|reflexivity].
  - destruct (Nat.leb_spec 4 (length parts)); [|lia].
    destruct (Nat.leb_spec 3 (length parts)); [|lia].
    cbn [mbind result_bind bind default fst snd].
    destruct (Nat.eqb_spec (length parts) 5) as [H5|H5]; [|reflexivity].
    destruct (slice_parts parts) as (_ & _ & _ & Hlast).
    rewrite (Hlast H5). reflexivity.
Qed.

Lemma collect_body_unaccepted results key :
  accepted eval_metrics key = false ->
  collect_body eval_metrics results key = Ok results.
Proof.
  unfold collect_body, accepted.
  rewrite last_item_split. cbn [mbind result_bind bind].
  destruct (contains "Accuracy" (List.last (split "/" key) ""));
    [|reflexivity].
  cbn [negb andb].
  destruct (default ∅ (eval_metrics !! join "/" (slice_1_m1 (split "/" key)))
              !! List.last (split "/" key) "") as [metric|]; [|reflexivity].
  rewrite bool_decide_eq_true_2 by eauto. discriminate.
Qed.
End Collect.

(** A key the report uses adds one record to its group, or raises when
    the key is short. *)
Lemma collect_body_accepted {Num}
    (eval_metrics : gmap string (gmap string Num)) key :
  accepted eval_metrics key = true ->
  exists record,
    forall results,
      collect_body eval_metrics results key
      = if short_key key then Raise (IndexError "list index out of range")
        else Ok (add_record (key_group key) record results).
Proof.
  intros Hacc.
  assert (Hv : exists v : Num, True).
  { unfold accepted in Hacc.
    destruct (last_item (split "/" key)) as [metric_name|]; [|discriminate].
    apply andb_prop in Hacc as [_ Hsome].
    apply bool_decide_eq_true in Hsome as [v _]. exists v. exact I. }
  destruct Hv as [v _].
  exists (key_subscore v eval_metrics key). intros results.
  rewrite (collect_body_cases v), Hacc. reflexivity.
Qed.

Section Counting.
Context {Num : Type} {arith : Arith Num}.


Lemma lookup_add_record g (record : subscore Num) results g' :
  lookup_group (add_record g record results) g'
  = lookup_group results g' ++ (if same_group g g' then [record] else []).
Proof.
  destruct g as [[g1 g2] g3], g' as [[h1 h2] h3].
  unfold lookup_group, add_record, same_group; cbn [fst snd].
  rewrite get_upsert.
  destruct (String.eqb_spec g1 h1) as [<-|H1]; cbn [andb];
    [|rewrite app_nil_r; reflexivity].
  cbn [mbind option_bind]. rewrite get_upsert.
  destruct (String.eqb_spec g2 h2) as [<-|H2]; cbn [andb].
  - cbn [mbind option_bind]. rewrite get_upsert.
    destruct (String.eqb_spec g3 h3) as [<-|H3].
    + destruct (ODict.get g1 results) as [d1|]; cbn; [|reflexivity].
      destruct (ODict.get g2 d1) as [d2|]; cbn; [|reflexivity].
      destruct (ODict.get g3 d2); reflexivity.
    + rewrite app_nil_r.
      destruct (ODict.get g1 results) as [d1|]; cbn; [|reflexivity].
      destruct (ODict.get g2 d1) as [d2|]; cbn; reflexivity.
  - rewrite app_nil_r.
    destruct (ODict.get g1 results) as [d1|]; cbn; reflexivity.
Qed.

Lemma sum_with_ext {A} (f g : A -> nat) l :
  (forall x, f x = g x) -> sum_list_with f l = sum_list_with g l.
Proof.
  intros H. induction l as [|x l IH]; [reflexivity|].
  simpl. rewrite H, IH. reflexivity.
Qed.

Lemma sum_with_flat_map {A B} (f : B -> nat) (g : A -> list B) l :
  sum_list_with f (flat_map g l)
  = sum_list_with (fun x => sum_list_with f (g x)) l.
Proof.
  induction l as [|x l IH]; [reflexivity|].
  simpl. rewrite sum_list_with_app, IH. reflexivity.
Qed.

Lemma sum_with_map {A B} (f : B -> nat) (g : A -> B) l :
  sum_list_with f (map g l) = sum_list_with (fun x => f (g x)) l.
Proof.
  induction l as [|x l IH]; [reflexivity|].
  simpl. rewrite IH. reflexivity.
Qed.

Lemma sum_upsert {V} (mu : V -> nat) k (dflt : V) f d :
  mu dflt = 0%nat -> (forall v, mu (f v) = S (mu v)) ->
  sum_list_with (fun e => mu (snd e)) (ODict.upsert k dflt f d)
  = S (sum_list_with (fun e => mu (snd e)) d).
Proof.
  intros H0 Hf. induction d as [|[k0 v] d IH]; simpl.
  - rewrite Hf, H0. reflexivity.
  - destruct (String.eqb k0 k); simpl.
    + rewrite Hf. reflexivity.
    + rewrite IH. lia.
Qed.

Lemma count_nested results :
  sum_list_with (fun g : @group Num => length (snd g)) (groups results)
  = sum_list_with
      (fun e1 : string * ODict.t (ODict.t (list (subscore Num))) =>
         sum_list_with
           (fun e2 : string * ODict.t (list (subscore Num)) =>
              sum_list_with
                (fun e3 : string * list (subscore Num) => length (snd e3))
                (snd e2))
           (snd e1))
      results.
Proof.
  unfold groups. rewrite sum_with_flat_map.
  apply sum_with_ext. intros e1. rewrite sum_with_flat_map.
  apply sum_with_ext. intros e2. rewrite sum_with_map. reflexivity.
Qed.

(** Adding a record adds one to the number of records in all groups. *)
Lemma count_add_record g record results :
  sum_list_with (fun g : @group Num => length (snd g))
    (groups (add_record g record results))
  = S (sum_list_with (fun g : @group Num => length (snd g)) (groups results)).
Proof.
  rewrite !count_nested. unfold add_record.
  apply (sum_upsert
           (fun d1 : ODict.t (ODict.t (list (subscore Num))) =>
              sum_list_with
                (fun e2 : string * ODict.t (list (subscore Num)) =>
                   sum_list_with
                     (fun e3 : string * list (subscore Num) => length (snd e3))
                     (snd e2))
                d1)); [reflexivity|].
  intros d1.
  apply (sum_upsert
           (fun d2 : ODict.t (list (subscore Num)) =>
              sum_list_with
                (fun e3 : string * list (subscore Num) => length (snd e3)) d2));
    [reflexivity|].
  intros d2. apply (sum_upsert (fun l : list (subscore Num) => length l));
    [reflexivity|].
  intros l. rewrite length_app. simpl. lia.
Qed.

Lemma length_group_rows cat_of model_name (gs : list (@group Num)) :
  length (flat_map (group_rows cat_of model_name) gs)
  = sum_list_with (fun g : @group Num => rows_of_size (length (snd g))) gs.
Proof.
  induction gs as [|[[[ns b] m] subs] gs IH]; [reflexivity|].
  simpl. rewrite length_app, IH. f_equal.
  destruct subs as [|s [|s' l]]; simpl; try reflexivity.
  rewrite length_map. reflexivity.
Qed.

Lemma rows_of_size_split (gs : list (@group Num)) :
  Forall (fun g : @group Num => snd g <> []) gs ->
  sum_list_with (fun g : @group Num => rows_of_size (length (snd g))) gs
  = (sum_list_with (fun g : @group Num => length (snd g)) gs
     + length (List.filter (fun g : @group Num => Nat.ltb 1 (length (snd g))) gs)
    )%nat.
Proof.
  induction 1 as [|[[[ns b] m] subs] gs Hne _ IH]; [reflexivity|].
  simpl in *. rewrite IH.
  destruct subs as [|s [|s' l]]; [congruence| |]; simpl; lia.
Qed.

End Counting.

Section ReportProperties.
Context {Num : Type} {arith : Arith Num}.
Variable eval_metrics : gmap string (gmap string Num).
Variable benchmark_to_taxonomy : gmap string string.
Variable model_name : string.


Let body := collect_body eval_metrics.

Lemma collect_skips_unaccepted metric_keys results :
  for_each body metric_keys results
  = for_each body (List.filter (accepted eval_metrics) metric_keys) results.
Proof.
  revert results. induction metric_keys as [|key keys IH]; intros results;
    [reflexivity|].
  simpl. destruct (accepted eval_metrics key) eqn:Hacc.
  - simpl. destruct (body results key); simpl; [apply IH|reflexivity].
  - unfold body at 1. rewrite (collect_body_unaccepted _ _ _ Hacc).
    simpl. apply IH.
Qed.

(** X7: keys whose metric name does not contain ["Accuracy"], and keys
    whose metric is not in the evaluation state, do not influence the
    report: dropping them from [metric_keys] gives the same outcome. *)
Theorem report_ignores_unaccepted_keys (metric_keys : list string) :
  calculate_markdown_results eval_metrics benchmark_to_taxonomy model_name
    metric_keys
  = calculate_markdown_results eval_metrics benchmark_to_taxonomy model_name
      (List.filter (accepted eval_metrics) metric_keys).
Proof.
  unfold calculate_markdown_results, collect. fold body.
  rewrite collect_skips_unaccepted. reflexivity.
Qed.

Lemma collect_raises metric_keys results :
  Exists (fun key => accepted eval_metrics key = true /\
                     short_key key = true) metric_keys ->
  for_each body metric_keys results
  = Raise (IndexError "list index out of range").
Proof.
  intros Hex. revert results.
  induction Hex as [key keys [Hacc Hshort]|key keys _ IH]; intros results;
    simpl; unfold body at 1.
  - destruct (collect_body_accepted _ _ Hacc) as [record ->].
    rewrite Hshort. reflexivity.
  - destruct (accepted eval_metrics key) eqn:Hacc.
    + destruct (collect_body_accepted _ _ Hacc) as [record ->].
      destruct (short_key key); [reflexivity|apply IH].
    + rewrite (collect_body_unaccepted _ _ _ Hacc). apply IH.
Qed.

Lemma collect_returns metric_keys results :
  Forall (fun key => accepted eval_metrics key = true ->
                     short_key key = false) metric_keys ->
  exists results', for_each body metric_keys results = Ok results'.
Proof.
  intros Hall. revert results.
  induction Hall as [|key keys Hkey _ IH]; intros results; simpl; [eauto|].
  unfold body at 1. destruct (accepted eval_metrics key) eqn:Hacc.
  - destruct (collect_body_accepted _ _ Hacc) as [record ->].
    rewrite Hkey by reflexivity. apply IH.
  - rewrite (collect_body_unaccepted _ _ _ Hacc). apply IH.
Qed.

(** X8: [calculate_markdown_results] raises exactly when some key that
    it uses has fewer than four components, and the exception is then an
    [IndexError]; otherwise it returns a report. *)
Theorem report_raises_on_short_keys (metric_keys : list string) :
  (Exists (fun key => accepted eval_metrics key = true /\
                      short_key key = true) metric_keys ->
   calculate_markdown_results eval_metrics benchmark_to_taxonomy model_name
     metric_keys = Raise (IndexError "list index out of range")) /\
  (Forall (fun key => accepted eval_metrics key = true ->
                      short_key key = false) metric_keys ->
   exists df,
     calculate_markdown_results eval_metrics benchmark_to_taxonomy model_name
       metric_keys = Ok df).
Proof.
  unfold calculate_markdown_results, collect. fold body. split.
  - intros Hex. rewrite (collect_raises _ _ Hex). reflexivity.
  - intros Hall. destruct (collect_returns _ [] Hall) as [results Hc].
    rewrite Hc. cbn [mbind result_bind bind].
    rewrite (ReportFacts.render_by_groups _ _ _
               (ReportFacts.collect_wf eval_metrics _ _ Hc)).
    eauto.
Qed.

Lemma collect_groups (missing : Num) metric_keys results results' g :
  for_each body metric_keys results = Ok results' ->
  lookup_group results' g
  = lookup_group results g
    ++ map (key_subscore missing eval_metrics)
         (List.filter
            (fun key => accepted eval_metrics key
                        && same_group (key_group key) g)
            metric_keys).
Proof.
  revert results. induction metric_keys as [|key keys IH]; intros results.
  - simpl. intros [= <-]. rewrite app_nil_r. reflexivity.
  - simpl. unfold body at 1. rewrite (collect_body_cases missing).
    destruct (accepted eval_metrics key); cbn [andb].
    + destruct (short_key key); [discriminate|]. cbn [bind].
      intros H. rewrite (IH _ H), lookup_add_record.
      destruct (same_group (key_group key) g); simpl.
      * rewrite <- app_assoc. reflexivity.
      * rewrite app_nil_r. reflexivity.
    + cbn [bind]. apply IH.
Qed.

(** X9: when the keys are collected without error, the records under
    [results[num_shot][benchmark][metric]] are, in the order of
    [metric_keys], the records of the keys the report uses whose third,
    second and last components are [num_shot], [benchmark] and
    [metric]. *)
Theorem collect_groups_keys_in_order (missing : Num)
    (metric_keys : list string) (results : results_t Num)
    (g : string * string * string) :
  collect eval_metrics metric_keys = Ok results ->
  lookup_group results g
  = map (key_subscore missing eval_metrics)
      (List.filter
         (fun key => accepted eval_metrics key
                     && same_group (key_group key) g)
         metric_keys).
Proof.
  intros Hc. apply (collect_groups missing _ [] _ g) in Hc. exact Hc.
Qed.

Lemma collect_count metric_keys results results' :
  for_each body metric_keys results = Ok results' ->
  sum_list_with (fun g : @group Num => length (snd g)) (groups results')
  = (sum_list_with (fun g : @group Num => length (snd g)) (groups results)
     + length (List.filter (accepted eval_metrics) metric_keys))%nat.
Proof.
  revert results. induction metric_keys as [|key keys IH]; intros results.
  - simpl. intros [= <-]. lia.
  - simpl. unfold body at 1. destruct (accepted eval_metrics key) eqn:Hacc.
    + destruct (collect_body_accepted _ _ Hacc) as [record ->].
      destruct (short_key key); [discriminate|]. cbn [bind].
      intros H. rewrite (IH _ H), count_add_record. simpl. lia.
    + rewrite (collect_body_unaccepted _ _ _ Hacc). cbn [bind]. apply IH.
Qed.

(** X10: the report has one row for every key it uses, plus one
    ["Average"] row for every group of more than one record. *)
Theorem report_row_count (metric_keys : list string) df :
  calculate_markdown_results eval_metrics benchmark_to_taxonomy model_name
    metric_keys = Ok df ->
  exists results,
    collect eval_metrics metric_keys = Ok results /\
    length df
    = (length (List.filter (accepted eval_metrics) metric_keys)
       + length (List.filter
                   (fun g : @group Num => Nat.ltb 1 (length (snd g)))
                   (groups results)))%nat.
Proof.
  intros Hdf.
  apply ReportFacts.report_by_groups in Hdf as (results & Hc & Hwf & ->).
  exists results. split; [exact Hc|].
  rewrite length_group_rows.
  rewrite (rows_of_size_split _ (ReportFacts.groups_nonempty _ Hwf)).
  f_equal. unfold collect in Hc. fold body in Hc.
  rewrite (collect_count _ _ _ Hc). reflexivity.
Qed.
End ReportProperties.

Lemma report_raises_on_short_keys_witness :
  calculate_markdown_results stray_metrics ∅ "mpt-7b" stray_keys
    = Raise (IndexError "list index out of range") /\
  exists df,
    calculate_markdown_results demo_metrics demo_taxonomy_map "mpt-7b"
      demo_keys = Ok df.
Proof.
  split.
  - apply (report_raises_on_short_keys stray_metrics ∅ "mpt-7b" stray_keys).
    constructor. split; vm_compute; reflexivity.
  - apply (report_raises_on_short_keys demo_metrics demo_taxonomy_map
             "mpt-7b" demo_keys).
    repeat (constructor; [intros _; vm_compute; reflexivity|]). constructor.
Defined.

Lemma collect_groups_keys_in_order_witness :
  exists results,
    collect demo_metrics demo_keys = Ok results /\
    lookup_group results ("10-shot", "jeopardy", "InContextLearningLMAccuracy")
    = [mk_subscore (ratio 1 2) "science"; mk_subscore (ratio 1 4) "history"].
Proof.
  destruct (collect demo_metrics demo_keys) as [results|e] eqn:Hc;
    [|vm_compute in Hc; discriminate Hc].
  exists results. split; [reflexivity|].
  rewrite (collect_groups_keys_in_order demo_metrics PrimFloat.zero demo_keys
             results _ Hc).
  vm_compute. reflexivity.
Defined.

Lemma report_row_count_witness :
  exists results,
    collect demo_metrics demo_keys = Ok results /\
    length demo_report
    = (length (List.filter (accepted demo_metrics) demo_keys)
       + length (List.filter
                   (fun g : @group PrimFloat.float => Nat.ltb 1 (length (snd g)))
                   (groups results)))%nat.
Proof.
  apply (report_row_count demo_metrics demo_taxonomy_map "mpt-7b" demo_keys
           demo_report).
  vm_compute. reflexivity.
Defined.
End ReportExtras.

(** ** Keys address evaluators *)

Module KeyAddressing.
Import Builders KeyIndex ExtraSpec.

Lemma split_no_sep sep s : has_char sep s = false -> split sep s = [s].
Proof.
  induction s as [|a s IH]; [reflexivity|].
  simpl. destruct (Ascii.eqb a sep); simpl; [discriminate|].
  intros H. rewrite (IH H). reflexivity.
Qed.

Lemma concat_cons_head sep c w ws :
  String.concat sep (String c w :: ws) = String c (String.concat sep (w :: ws)).
Proof. destruct ws; reflexivity. Qed.

(** ['/'.join(s.split('/'))] is [s]. *)
Lemma join_split sep s : join (String sep "") (split sep s) = s.
Proof.
  unfold join. induction s as [|a s IH]; [reflexivity|].
  simpl. destruct (Ascii.eqb_spec a sep) as [->|Hne].
  - pose proof (ReportFacts.split_nonempty sep s) as Hne.
    destruct (split sep s) as [|w ws]; [congruence|].
    change (String.concat (String sep "") ("" :: w :: ws))
      with (String sep (String.concat (String sep "") (w :: ws))).
    rewrite IH. reflexivity.
  - pose proof (ReportFacts.split_nonempty sep s) as Hne'.
    destruct (split sep s) as [|w ws]; [congruence|].
    rewrite concat_cons_head, IH. reflexivity.
Qed.

Lemma canonical_key_label {DataLoader} (u : eval_unit DataLoader) m :
  canonical_key u m = "metrics/" +:+ unit_label u +:+ "/" +:+ m.
Proof.
  unfold canonical_key, unit_label.
  destruct (subcategory u); rewrite !KeyIndexFacts.append_assoc; reflexivity.
Qed.

Lemma key_parts label m :
  has_char "/" m = false ->
  split "/" ("metrics/" +:+ label +:+ "/" +:+ m)
  = "metrics" :: split "/" label ++ [m].
Proof.
  intros Hm.
  change ("metrics/" +:+ label +:+ "/" +:+ m)
    with ("metrics" +:+ String "/" (label +:+ String "/" m)).
  rewrite !ReportFacts.split_app, (split_no_sep _ _ Hm). reflexivity.
Qed.

(** X11: every key returned by [build_icl_evaluators] is
    [metrics/{label}/{metric}] for an evaluator it returns and one of that
    evaluator's metric names, in order; and for a metric name without
    ['/'], what [calculate_markdown_results] (and [MockState]) split off
    the key is again that evaluator's label and that metric name, so the
    evaluation state is read under the label the evaluator carries. *)
Theorem keys_address_their_evaluator {DataLoader}
    (loader : LoaderArgs.t -> result (dataloaders DataLoader)) tok dms dbs
    dir sub (tasks : list IclCfg.t) evs keys :
  build_icl_evaluators loader tok dms dbs dir sub tasks = Ok (evs, keys) ->
  keys
  = flat_map
      (fun e =>
         map (fun m => "metrics/" +:+ Evaluator.label e +:+ "/" +:+ m)
             (Evaluator.metric_names e))
      evs /\
  forall e m,
    e ∈ evs -> m ∈ Evaluator.metric_names e -> has_char "/" m = false ->
    let parts := split "/" ("metrics/" +:+ Evaluator.label e +:+ "/" +:+ m) in
    join "/" (slice_1_m1 parts) = Evaluator.label e /\
    last_item parts = Ok m.
Proof.
  rewrite KeyIndexFacts.build_by_units.
  destruct (all_units loader tok dms dbs dir tasks) as [us|e];
    [|discriminate].
  cbn. intros [= <- <-]. split.
  - rewrite ReportFacts.flat_map_map. unfold canonical_keys.
    induction us as [|u us IH]; [reflexivity|].
    simpl. rewrite IH. f_equal. apply map_ext. intros m.
    apply canonical_key_label.
  - intros e m _ _ Hm. cbv zeta. rewrite (key_parts _ _ Hm).
    split.
    + unfold slice_1_m1. simpl tl. rewrite removelast_last.
      apply join_split.
    + unfold last_item.
      change ("metrics" :: split "/" (Evaluator.label e) ++ [m])
        with (("metrics" :: split "/" (Evaluator.label e)) ++ [m]).
      rewrite rev_app_distr. reflexivity.
Qed.

Lemma keys_address_their_evaluator_witness :
  let e := Evaluator.mk "jeopardy/10-shot/science" (SingleLoader "dl-science")
             ["InContextLearningLMAccuracy"] None in
  let parts :=
    split "/" ("metrics/" +:+ Evaluator.label e +:+ "/"
                 +:+ "InContextLearningLMAccuracy") in
  join "/" (slice_1_m1 parts) = "jeopardy/10-shot/science" /\
  last_item parts = Ok "InContextLearningLMAccuracy".
Proof.
  intros e.
  destruct (keys_address_their_evaluator demo_loader demo_tokenizer 1024 4
              "." (Some 1%Z) demo_tasks _ _ KeyIndexFacts.demo_build)
    as [_ H].
  apply (H e "InContextLearningLMAccuracy").
  - apply elem_of_cons. left. reflexivity.
  - apply elem_of_cons. left. reflexivity.
  - reflexivity.
Defined.
End KeyAddressing.

(** ** More on model loading *)

Module RetryExtras.
Import Eval RetryExample RetryExtraSpec.

Section Loop.
Context {Model : Type}.
Variable attempt : nat -> result Model.
Variable model_name : string.
Variable num_retries : Z.
Variable e : nat -> exn.

(** The loop passes over [k] failing attempts that leave a retry, printing
    one line for each, when the name can be read. *)
Lemma retry_loop_skips k :
  forall fuel retries w,
    (k <= fuel)%nat ->
    (retries + Z.of_nat k < num_retries)%Z ->
    (forall i, (i < k)%nat ->
               attempt (attempts w + i) = Raise (e (attempts w + i))) ->
    retry_loop attempt (Ok model_name) num_retries fuel retries w
    = retry_loop attempt (Ok model_name) num_retries (fuel - k)
        (retries + Z.of_nat k)
        (mk_world (attempts w + k)
           (stdout w ++
            map (fun i =>
                   retry_msg (e (attempts w + i)) model_name num_retries
                     (retries + Z.of_nat (S i)))
                (seq 0 k))).
Proof.
  induction k as [|k IH]; intros fuel retries w Hfuel Hleft Hfail.
  - simpl. rewrite Nat.sub_0_r, Z.add_0_r, Nat.add_0_r, app_nil_r.
    destruct w; reflexivity.
  - destruct fuel as [|fuel]; [lia|].
    cbn [retry_loop].
    destruct (Z.ltb_spec retries num_retries) as [_|?]; [|lia].
    pose proof (Hfail 0%nat ltac:(lia)) as H0.
    rewrite Nat.add_0_r in H0. rewrite H0, Z.geb_leb.
    destruct (Z.leb_spec num_retries (retries + 1)) as [?|_]; [lia|].
    rewrite IH; [| lia | lia |].
    + cbn [attempts stdout].
      replace (S fuel - S k)%nat with (fuel - k)%nat by lia.
      replace (retries + Z.of_nat (S k))%Z
        with (retries + 1 + Z.of_nat k)%Z by lia.
      replace (attempts w + S k)%nat with (S (attempts w) + k)%nat by lia.
      do 2 f_equal.
      rewrite <- app_assoc. f_equal. cbn [seq map app].
      rewrite Nat.add_0_r. f_equal.
      rewrite <- seq_shift, map_map. apply map_ext. intros i.
      replace (attempts w + S i)%nat with (S (attempts w) + i)%nat by lia.
      f_equal. lia.
    + intros i Hi. cbn [attempts].
      replace (S (attempts w) + i)%nat with (attempts w + S i)%nat by lia.
      apply Hfail. lia.
Qed.
End Loop.

Section Outcome.
Context {Model : Type}.
Variable attempt : nat -> result Model.
Variable model_name : string.
Variable num_retries : Z.
Variable e : nat -> exn.

Let start :=
  retry_loop attempt (Ok model_name) num_retries (Z.to_nat num_retries) 0
    (mk_world 0 []).

Lemma retry_skips_from_start k :
  (k < Z.to_nat num_retries)%nat ->
  (forall i, (i < k)%nat -> attempt i = Raise (e i)) ->
  start
  = retry_loop attempt (Ok model_name) num_retries
      (Z.to_nat num_retries - k) (Z.of_nat k)
      (mk_world k (diagnostics e model_name num_retries k)).
Proof.
  intros Hk Hfail. unfold start.
  rewrite (retry_loop_skips attempt model_name num_retries e k);
    [reflexivity|lia|lia|].
  intros i Hi. apply Hfail, Hi.
Qed.

Lemma retry_first_success k m :
  (k < Z.to_nat num_retries)%nat ->
  (forall i, (i < k)%nat -> attempt i = Raise (e i)) ->
  attempt k = Ok m ->
  start
  = Some (Ok (Some m),
          mk_world (S k) (diagnostics e model_name num_retries k)).
Proof.
  intros Hk Hfail Hok. rewrite (retry_skips_from_start k Hk Hfail).
  destruct (Z.to_nat num_retries - k)%nat as [|fuel] eqn:Hfuel; [lia|].
  cbn [retry_loop attempts stdout].
  destruct (Z.ltb_spec (Z.of_nat k) num_retries) as [_|?]; [|lia].
  rewrite Hok. reflexivity.
Qed.

Lemma retry_exhausted :
  (0 < num_retries)%Z ->
  (forall i, (i < Z.to_nat num_retries)%nat -> attempt i = Raise (e i)) ->
  start
  = Some (Raise (e (Z.to_nat num_retries - 1)%nat),
          mk_world (Z.to_nat num_retries)
            (diagnostics e model_name num_retries
               (Z.to_nat num_retries - 1))).
Proof.
  intros Hpos Hfail.
  rewrite (retry_skips_from_start (Z.to_nat num_retries - 1));
    [|lia|intros i Hi; apply Hfail; lia].
  destruct (Z.to_nat num_retries - (Z.to_nat num_retries - 1))%nat
    as [|fuel] eqn:Hfuel; [lia|].
  cbn [retry_loop attempts stdout].
  destruct (Z.ltb_spec (Z.of_nat (Z.to_nat num_retries - 1)) num_retries)
    as [_|?]; [|lia].
  rewrite (Hfail (Z.to_nat num_retries - 1)%nat) by lia.
  rewrite Z.geb_leb.
  destruct (Z.leb_spec num_retries
              (Z.of_nat (Z.to_nat num_retries - 1) + 1)) as [_|?]; [|lia].
  replace (S (Z.to_nat num_retries - 1)) with (Z.to_nat num_retries) by lia.
  reflexivity.
Qed.

End Outcome.

Section Edge.
Context {Model : Type}.
Variable attempt : nat -> result Model.
Variable num_retries : Z.

Lemma retry_none (read_name : result string) w :
  (num_retries <= 0)%Z ->
  retry_loop attempt read_name num_retries (Z.to_nat num_retries) 0 w
  = Some (Ok None, w).
Proof.
  intros Hn. replace (Z.to_nat num_retries) with 0%nat by lia.
  cbn [retry_loop].
  destruct (Z.ltb_spec 0 num_retries); [lia|reflexivity].
Qed.

(** Without a readable name the first failure is the end. *)
Lemma retry_unreadable (e0 : exn) :
  (0 < num_retries)%Z ->
  attempt 0%nat = Raise e0 ->
  retry_loop attempt (Raise e0) num_retries (Z.to_nat num_retries) 0
    (mk_world 0 [])
  = Some (Raise e0, mk_world 1 []).
Proof.
  intros Hpos Hfail.
  destruct (Z.to_nat num_retries) as [|fuel] eqn:Hfuel; [lia|].
  cbn [retry_loop attempts stdout].
  destruct (Z.ltb_spec 0 num_retries) as [_|?]; [|lia].
  rewrite Hfail. destruct (0 + 1 >=? num_retries)%Z; reflexivity.
Qed.
End Edge.

Section Loaders.
Context {Model ModelCfg Underlying Peft : Type}.
Variable construct : nat -> ModelCfg -> Tokenizer.t -> result Model.
Variable from_pretrained : nat -> ModelCfg -> result Underlying.
Variable peft_from_pretrained : nat -> Underlying -> ModelCfg -> result Peft.
Variable wrap : nat -> Peft -> Tokenizer.t -> result Model.
Variable name : ModelCfg -> result string.
Variable model_cfg : ModelCfg.
Variable tokenizer : Tokenizer.t.
Variable num_retries : Z.

Let load := load_model construct name model_cfg tokenizer num_retries.
Let load_peft :=
  load_peft_model (Ok tt) from_pretrained peft_from_pretrained wrap name
    model_cfg tokenizer num_retries.
Let attempt_model := model_attempt construct name model_cfg tokenizer.
Let attempt_peft :=
  peft_attempt from_pretrained peft_from_pretrained wrap name model_cfg
    tokenizer.

Lemma model_attempt_read n m :
  attempt_model n = Ok m -> exists model_name, name model_cfg = Ok model_name.
Proof.
  unfold attempt_model, model_attempt.
  destruct (name model_cfg) as [model_name|e0]; [eauto|discriminate].
Qed.

Lemma peft_attempt_read n m :
  attempt_peft n = Ok m -> exists model_name, name model_cfg = Ok model_name.
Proof.
  unfold attempt_peft, peft_attempt.
  destruct (name model_cfg) as [model_name|e0]; [eauto|discriminate].
Qed.

(** X12: when the first [k] attempts raise and attempt [k], still within
    [num_retries], returns a model, [load_model] and [load_peft_model]
    return that model after exactly [k + 1] attempts, having printed one
    line for each of the [k] failures.  The attempt that succeeded has
    read [model_cfg.name], so the lines carry that name. *)
Theorem load_returns_first_success (e : nat -> exn) (k : nat) (m : Model) :
  (k < Z.to_nat num_retries)%nat ->
  ((forall i, (i < k)%nat -> attempt_model i = Raise (e i)) ->
   attempt_model k = Ok m ->
   exists model_name,
     name model_cfg = Ok model_name /\
     load (mk_world 0 [])
     = Some (Ok (Some m),
             mk_world (S k) (diagnostics e model_name num_retries k))) /\
  ((forall i, (i < k)%nat -> attempt_peft i = Raise (e i)) ->
   attempt_peft k = Ok m ->
   exists model_name,
     name model_cfg = Ok model_name /\
     load_peft (mk_world 0 [])
     = Some (Ok (Some m),
             mk_world (S k) (diagnostics e model_name num_retries k))).
Proof.
  intros Hk. split; intros Hfail Hok.
  - destruct (model_attempt_read _ _ Hok) as [model_name Hname].
    exists model_name. split; [exact Hname|].
    unfold load, load_model. rewrite Hname.
    apply (retry_first_success attempt_model _ _ e k m Hk Hfail Hok).
  - destruct (peft_attempt_read _ _ Hok) as [model_name Hname].
    exists model_name. split; [exact Hname|].
    unfold load_peft, load_peft_model. rewrite Hname.
    apply (retry_first_success attempt_peft _ _ e k m Hk Hfail Hok).
Qed.

(** X13: when every attempt raises and the [except] block can read
    [model_cfg.name], [load_model] and [load_peft_model] print a line for
    every failure but the last: [num_retries - 1] lines, the i-th
    announcing [num_retries - i] retries remaining.  When
    [model_cfg.name] cannot be read, the first failure ends the loop:
    one attempt, and nothing is printed. *)
Theorem load_prints_one_line_per_retry (e : nat -> exn) :
  (0 < num_retries)%Z ->
  (forall model_name,
     name model_cfg = Ok model_name ->
     ((forall i, (i < Z.to_nat num_retries)%nat ->
                 attempt_model i = Raise (e i)) ->
      exists r, load (mk_world 0 [])
        = Some (r, mk_world (Z.to_nat num_retries)
                     (diagnostics e model_name num_retries
                        (Z.to_nat num_retries - 1)))) /\
     ((forall i, (i < Z.to_nat num_retries)%nat ->
                 attempt_peft i = Raise (e i)) ->
      exists r, load_peft (mk_world 0 [])
        = Some (r, mk_world (Z.to_nat num_retries)
                     (diagnostics e model_name num_retries
                        (Z.to_nat num_retries - 1)))) /\
     length (diagnostics e model_name num_retries
               (Z.to_nat num_retries - 1))
     = (Z.to_nat num_retries - 1)%nat) /\
  (forall e0,
     name model_cfg = Raise e0 ->
     load (mk_world 0 []) = Some (Raise e0, mk_world 1 []) /\
     load_peft (mk_world 0 []) = Some (Raise e0, mk_world 1 [])).
Proof.
  intros Hpos. split.
  - intros model_name Hname. split; [|split].
    + intros Hfail. eexists. unfold load, load_model. rewrite Hname.
      apply (retry_exhausted attempt_model _ _ e Hpos Hfail).
    + intros Hfail. eexists. unfold load_peft, load_peft_model.
      rewrite Hname.
      apply (retry_exhausted attempt_peft _ _ e Hpos Hfail).
    + unfold diagnostics. rewrite length_map, length_seq. reflexivity.
  - intros e0 Hname. split.
    + unfold load, load_model. rewrite Hname.
      apply (retry_unreadable _ _ e0 Hpos).
      unfold model_attempt. rewrite Hname. reflexivity.
    + unfold load_peft, load_peft_model. rewrite Hname.
      apply (retry_unreadable _ _ e0 Hpos).
      unfold peft_attempt. rewrite Hname. reflexivity.
Qed.

(** X14: with [num_retries] zero or negative neither function makes an
    attempt: both return [None] without printing anything. *)
Theorem no_retries_no_attempt (w : world) :
  (num_retries <= 0)%Z ->
  load w = Some (Ok None, w) /\ load_peft w = Some (Ok None, w).
Proof.
  intros Hn. split.
  - apply (retry_none attempt_model _ _ w Hn).
  - apply (retry_none attempt_peft _ _ w Hn).
Qed.

(** X15: a model name outside the registry of [load_peft_model] makes
    every attempt raise a [KeyError] before any model is fetched, yet the
    attempts are all made: the error comes after [num_retries] attempts
    and [num_retries - 1] printed lines, whatever the collaborators
    would have returned. *)
Theorem peft_unknown_name_is_retried (model_name : string) :
  name model_cfg = Ok model_name ->
  model_name ∉ peft_model_registry ->
  (0 < num_retries)%Z ->
  load_peft (mk_world 0 [])
  = Some (Raise (KeyError model_name),
          mk_world (Z.to_nat num_retries)
            (diagnostics (fun _ => KeyError model_name)
               model_name num_retries (Z.to_nat num_retries - 1))).
Proof.
  intros Hread Hname Hpos. unfold load_peft, load_peft_model. rewrite Hread.
  apply (retry_exhausted attempt_peft _ _
           (fun _ => KeyError model_name) Hpos).
  intros i _. unfold attempt_peft, peft_attempt. rewrite Hread.
  cbn [mbind result_bind bind].
  rewrite bool_decide_eq_false_2 by exact Hname. reflexivity.
Qed.
End Loaders.

Example flaky_load :
  load_model flaky_construct read_name (Some "mpt-7b")
    (Tokenizer.mk None None) 3 (mk_world 0 [])
  = Some (Ok (Some "model"),
          mk_world 3
            ["Got exception connection reset while loading model mpt-7b. 2 retries remaining";
             "Got exception connection reset while loading model mpt-7b. 1 retries remaining"]).
Proof. vm_compute. reflexivity. Qed.

Lemma load_returns_first_success_witness :
  exists model_name,
    read_name (Some "mpt-7b") = Ok model_name /\
    load_model flaky_construct read_name (Some "mpt-7b")
      (Tokenizer.mk None None) 3 (mk_world 0 [])
    = Some (Ok (Some "model"),
            mk_world 3
              (diagnostics (fun _ => OtherError "OSError" "connection reset")
                 model_name 3 2)).
Proof.
  apply (load_returns_first_success (Underlying := unit) (Peft := unit)
           flaky_construct (fun _ _ => Ok tt) (fun _ _ _ => Ok tt)
           (fun _ _ _ => Ok "model") read_name (Some "mpt-7b")
           (Tokenizer.mk None None) 3
           (fun _ => OtherError "OSError" "connection reset") 2 "model").
  - simpl. lia.
  - intros i Hi. destruct i as [|[|i]]; [reflexivity|reflexivity|lia].
  - reflexivity.
Defined.

Lemma load_prints_one_line_per_retry_witness :
  (exists r,
     load_model failing_construct read_name (Some "mpt_causal_lm")
       (Tokenizer.mk None None) 3 (mk_world 0 [])
     = Some (r, mk_world 3
                  (diagnostics
                     (fun n =>
                        OtherError "RuntimeError" (str_int (Z.of_nat n)))
                     "mpt_causal_lm" 3 2))) /\
  load_model failing_construct read_name None (Tokenizer.mk None None) 3
    (mk_world 0 [])
  = Some (Raise (AttributeError "name"), mk_world 1 []).
Proof.
  split.
  - destruct (load_prints_one_line_per_retry (Underlying := unit)
                (Peft := unit) failing_construct (fun _ _ => Ok tt)
                (fun _ _ _ => Ok tt) (fun _ _ _ => Ok tt) read_name
                (Some "mpt_causal_lm") (Tokenizer.mk None None) 3
                (fun n => OtherError "RuntimeError" (str_int (Z.of_nat n))))
      as [H _]; [lia|].
    destruct (H "mpt_causal_lm" eq_refl) as [Hload _].
    apply Hload. intros i Hi. reflexivity.
  - destruct (load_prints_one_line_per_retry (Underlying := unit)
                (Peft := unit) failing_construct (fun _ _ => Ok tt)
                (fun _ _ _ => Ok tt) (fun _ _ _ => Ok tt) read_name
                None (Tokenizer.mk None None) 3
                (fun n => OtherError "RuntimeError" (str_int (Z.of_nat n))))
      as [_ H]; [lia|].
    apply (H (AttributeError "name") eq_refl).
Defined.

Lemma no_retries_no_attempt_witness :
  load_model failing_construct read_name (Some "mpt_causal_lm")
    (Tokenizer.mk None None) 0 (mk_world 0 [])
  = Some (Ok None, mk_world 0 []).
Proof.
  apply (no_retries_no_attempt (Underlying := unit) (Peft := unit)
           failing_construct (fun _ _ => Ok tt) (fun _ _ _ => Ok tt)
           (fun _ _ _ => Ok tt) read_name (Some "mpt_causal_lm")
           (Tokenizer.mk None None) 0 (mk_world 0 [])).
  lia.
Defined.

Lemma peft_unknown_name_is_retried_witness :
  load_peft_model (Ok tt) (fun _ _ => Ok tt) (fun _ _ _ => Ok tt)
    (fun _ _ _ => Ok "model") read_name (Some "hf_bert")
    (Tokenizer.mk None None) 2 (mk_world 0 [])
  = Some (Raise (KeyError "hf_bert"),
          mk_world 2
            (diagnostics (fun _ => KeyError "hf_bert") "hf_bert" 2 1)).
Proof.
  apply (peft_unknown_name_is_retried (fun _ _ => Ok tt)
           (fun _ _ _ => Ok tt) (fun _ _ _ => Ok "model") read_name
           (Some "hf_bert") (Tokenizer.mk None None) 2 "hf_bert").
  - reflexivity.
  - vm_compute. intros H.
    repeat (apply elem_of_cons in H as [H|H]; [discriminate H|]).
    apply elem_of_nil in H. exact H.
  - lia.
Defined.
End RetryExtras.

(** ** The factories of builders.py *)

Module FactoryFacts.
Import Factories FactorySpec.

Lemma prefix_refl s : String.prefix s s = true.
Proof.
  induction s as [|a s IH]; [reflexivity|].
  simpl. destruct (ascii_dec a a); [exact IH|congruence].
Qed.

Lemma contains_self s : contains s s = true.
Proof.
  destruct s as [|a s]; [reflexivity|].
  change (contains (String a s) (String a s))
    with (String.prefix (String a s) (String a s) || contains (String a s) s).
  rewrite prefix_refl. reflexivity.
Qed.

Lemma contains_suffix p s : contains s (p +:+ s) = true.
Proof.
  induction p as [|a p IH]; [apply contains_self|].
  rewrite KeyIndexFacts.append_cons.
  change (contains s (String a (p +:+ s)))
    with (String.prefix s (String a (p +:+ s)) || contains s (p +:+ s)).
  rewrite IH. apply orb_true_r.
Qed.

(** Decides the identifier against the listed names. *)
Ltac unknown_name H :=
  repeat
    (match goal with
     | |- context [String.eqb ?n ?k] =>
         destruct (String.eqb_spec n k) as [->|_];
         [exfalso; apply H;
          repeat (first [apply list_elem_of_here | apply list_elem_of_further])
         |]
     end);
  reflexivity.

Section Unknown.
Context {P Obj : Type}.
Variable new : call P -> result Obj.

(** X16: each of the five factories rejects an identifier it does not
    list with a [ValueError] whose message ends with, and so names, the
    identifier; [build_callback] leaves the caller's [kwargs] as they
    were. *)
Theorem unknown_identifier_is_named (name : string)
    (kwargs : gmap string pyval) (parameters : P) :
  (name ∉ callback_names ->
   build_callback new name kwargs
   = (Raise (ValueError ("Not sure how to build callback: " +:+ name)),
      kwargs)) /\
  (name ∉ logger_names ->
   build_logger new name kwargs
   = Raise (ValueError ("Not sure how to build logger: " +:+ name))) /\
  (name ∉ algorithm_names ->
   build_algorithm new name kwargs
   = Raise (ValueError ("Not sure how to build algorithm: " +:+ name))) /\
  (name ∉ optimizer_names ->
   build_optimizer new parameters name kwargs
   = Raise (ValueError ("Not sure how to build optimizer: " +:+ name))) /\
  (name ∉ scheduler_names ->
   build_scheduler new name kwargs
   = Raise (ValueError ("Not sure how to build scheduler: " +:+ name))) /\
  forall what,
    contains name (str_exn (ValueError (what +:+ name))) = true.
Proof.
  repeat split.
  - intros H. unfold build_callback. unknown_name H.
  - intros H. unfold build_logger. unknown_name H.
  - intros H. unfold build_algorithm. unknown_name H.
  - intros H. unfold build_optimizer. unknown_name H.
  - intros H. unfold build_scheduler. unknown_name H.
  - intros what. apply contains_suffix.
Qed.
End Unknown.

Lemma unknown_identifier_is_named_witness :
  ("adam" ∉ optimizer_names) /\
  build_optimizer record_call tt "adam" ∅
  = Raise (ValueError "Not sure how to build optimizer: adam").
Proof.
  assert (H : "adam" ∉ optimizer_names).
  { intros H. unfold optimizer_names in H.
    repeat (apply elem_of_cons in H as [H|H]; [discriminate|]).
    inversion H. }
  split; [exact H|].
  destruct (unknown_identifier_is_named record_call "adam" ∅ tt)
    as (_ & _ & _ & Hopt & _).
  exact (Hopt H).
Defined.

Section Generate.
Context {P Obj : Type}.
Variable new : call P -> result Obj.

(** X17: [build_callback] with ['generate_callback'] takes [prompts] out
    of the caller's [kwargs] and leaves the other entries; without
    [prompts] it raises [KeyError]; with a list of prompts the constructor
    receives the entries the caller passed; a second call with the same
    dict raises [KeyError], whatever the first call did; and no other
    identifier changes the caller's dict. *)
Theorem generate_callback_pops_prompts (kwargs : gmap string pyval) :
  let out := build_callback new "generate_callback" kwargs in
  snd out = delete "prompts" kwargs /\
  (kwargs !! "prompts" = None -> fst out = Raise (KeyError "prompts")) /\
  (forall l, kwargs !! "prompts" = Some (PList l) ->
     fst out = new (mk_call "Generate" [] kwargs)) /\
  fst (build_callback new "generate_callback" (snd out))
  = Raise (KeyError "prompts") /\
  forall name, name <> "generate_callback" ->
    snd (build_callback new name kwargs) = kwargs.
Proof.
  assert (Hsnd : snd (build_callback new "generate_callback" kwargs)
                 = delete "prompts" kwargs).
  { unfold build_callback. simpl.
    destruct (kwargs !! "prompts") eqn:E; [reflexivity|].
    simpl. symmetry. apply delete_id, E. }
  cbv zeta. split; [exact Hsnd|]. split; [|split; [|split]].
  - intros E. unfold build_callback. simpl. rewrite E. reflexivity.
  - intros l E. unfold build_callback. simpl. rewrite E. simpl.
    rewrite insert_delete_eq, (insert_id _ _ _ E). reflexivity.
  - rewrite Hsnd. unfold build_callback. simpl.
    rewrite lookup_delete_eq. reflexivity.
  - intros name Hname. unfold build_callback.
    repeat
      (match goal with
       | |- context [String.eqb ?n ?k] =>
           destruct (String.eqb_spec n k) as [->|_]; [try reflexivity|]
       end);
      [congruence|reflexivity].
Qed.
End Generate.

Lemma generate_callback_pops_prompts_witness :
  let kwargs : gmap string pyval :=
    <["prompts" := PList [PStr "The answer is"]]>
      (<["batch_log_interval" := PInt 50]> ∅) in
  kwargs !! "prompts" = Some (PList [PStr "The answer is"]) /\
  fst (build_callback record_call "generate_callback" kwargs)
  = Ok (mk_call "Generate" [] kwargs).
Proof.
  intros kwargs.
  assert (E : kwargs !! "prompts" = Some (PList [PStr "The answer is"]))
    by apply lookup_insert_eq.
  split; [exact E|].
  destruct (generate_callback_pops_prompts record_call kwargs)
    as (_ & _ & H & _).
  exact (H _ E).
Defined.
End FactoryFacts.

(** ** The tables [main] builds around the report *)

Module MainFacts.
Import Eval EvalMain MainSpec.

Section FoldInsert.
Context {V : Type}.

Lemma fold_insert_notin (ps : list (string * V)) m k :
  k ∉ map fst ps -> fold_left assign ps m !! k = m !! k.
Proof.
  revert m. induction ps as [|[k0 v0] ps IH]; intros m Hk; [reflexivity|].
  simpl in *. apply not_elem_of_cons in Hk as [Hne Hk].
  rewrite (IH _ Hk). unfold assign. simpl.
  apply lookup_insert_ne. congruence.
Qed.

Lemma fold_insert_last (ps1 ps2 : list (string * V)) k v m :
  k ∉ map fst ps2 ->
  fold_left assign (ps1 ++ (k, v) :: ps2) m !! k = Some v.
Proof.
  intros Hk. rewrite fold_left_app. simpl.
  rewrite (fold_insert_notin _ _ _ Hk). apply lookup_insert_eq.
Qed.

Lemma last_occurrence (ps : list (string * V)) k :
  k ∈ map fst ps ->
  exists ps1 v ps2, ps = ps1 ++ (k, v) :: ps2 /\ k ∉ map fst ps2.
Proof.
  induction ps as [|[k0 v0] ps IH]; simpl; intros Hk.
  - inversion Hk.
  - destruct (decide (k ∈ map fst ps)) as [Hin|Hnin].
    + destruct (IH Hin) as (ps1 & v & ps2 & -> & Hlast).
      exists ((k0, v0) :: ps1), v, ps2. split; [reflexivity|exact Hlast].
    + apply elem_of_cons in Hk as [->|Hk]; [|contradiction].
      exists [], v0, ps. split; [reflexivity|exact Hnin].
Qed.
End FoldInsert.

Lemma fold_left_map {A B S} (f : S -> B -> S) (g : A -> B) l s :
  fold_left f (map g l) s = fold_left (fun s x => f s (g x)) l s.
Proof. revert s. induction l as [|x l IH]; intros s; simpl; auto. Qed.

Lemma taxonomy_assignments g :
  benchmark_to_taxonomy (Some g)
  = fold_left assign (assignments (GauntletCfg.categories g)) ∅.
Proof.
  unfold benchmark_to_taxonomy, assignments.
  generalize (∅ : gmap string string).
  induction (GauntletCfg.categories g) as [|t cats IH]; intros m;
    [reflexivity|].
  simpl. rewrite fold_left_app, fold_left_map. apply IH.
Qed.

Lemma assignments_keys cats n :
  n ∈ map fst (assignments cats) <-> exists t, t ∈ cats /\ lists t n.
Proof.
  unfold assignments, lists. rewrite list_elem_of_fmap. split.
  - intros ([n' c] & -> & Hin). apply list_elem_of_In, in_flat_map in Hin.
    destruct Hin as (t & Ht & Hin). apply list_elem_of_In in Ht.
    exists t. split; [exact Ht|].
    apply list_elem_of_In, list_elem_of_fmap in Hin.
    destruct Hin as (b & [= -> _] & Hb).
    apply list_elem_of_fmap. eauto.
  - intros (t & Ht & Hn). apply list_elem_of_fmap in Hn as (b & -> & Hb).
    exists (GauntletCfg.name b, GauntletCfg.category_name t).
    split; [reflexivity|].
    apply list_elem_of_In, in_flat_map. exists t.
    split; [apply list_elem_of_In, Ht|].
    apply list_elem_of_In, list_elem_of_fmap. eauto.
Qed.

Lemma assignments_app cs1 cs2 :
  assignments (cs1 ++ cs2) = assignments cs1 ++ assignments cs2.
Proof. apply flat_map_app. Qed.

(** X18: the table [main] hands to [calculate_markdown_results] maps a
    benchmark to the LAST category of the gauntlet that lists it; a
    benchmark that no category lists, and every benchmark when there is no
    gauntlet, gets the empty Category in the report. *)
Theorem benchmark_to_taxonomy_last_category (g : GauntletCfg.t)
    (n : string) :
  (forall cs1 t cs2,
     GauntletCfg.categories g = cs1 ++ t :: cs2 ->
     lists t n -> (forall t', t' ∈ cs2 -> ~ lists t' n) ->
     category_of (benchmark_to_taxonomy (Some g)) n
     = GauntletCfg.category_name t) /\
  ((forall t, t ∈ GauntletCfg.categories g -> ~ lists t n) ->
   benchmark_to_taxonomy (Some g) !! n = None /\
   category_of (benchmark_to_taxonomy (Some g)) n = "") /\
  category_of (benchmark_to_taxonomy None) n = "".
Proof.
  repeat split.
  - intros cs1 t cs2 Hcats Ht Hlater.
    unfold category_of. rewrite taxonomy_assignments, Hcats.
    apply list_elem_of_fmap in Ht as Hb. destruct Hb as (b & -> & Hb).
    assert (Hin : GauntletCfg.name b
                  ∈ map fst (assignments [t])).
    { apply assignments_keys. exists t. split; [|exact Ht].
      apply list_elem_of_here. }
    destruct (last_occurrence _ _ Hin) as (ps1 & c & ps2 & Hps & Hlast).
    assert (Hc : c = GauntletCfg.category_name t).
    { assert (Hmem : (GauntletCfg.name b, c) ∈ assignments [t]).
      { rewrite Hps. apply elem_of_app. right. apply list_elem_of_here. }
      unfold assignments in Hmem. simpl in Hmem. rewrite app_nil_r in Hmem.
      apply list_elem_of_fmap in Hmem as (b' & [= _ ->] & _). reflexivity. }
    assert (Hall : assignments (cs1 ++ t :: cs2)
                   = (assignments cs1 ++ ps1)
                       ++ (GauntletCfg.name b, c)
                            :: (ps2 ++ assignments cs2)).
    { change (cs1 ++ t :: cs2) with (cs1 ++ [t] ++ cs2).
      rewrite !assignments_app, Hps, <- !app_assoc. reflexivity. }
    rewrite Hall, fold_insert_last; [rewrite Hc; reflexivity|].
    rewrite map_app. intros Hbad. apply elem_of_app in Hbad as [Hbad|Hbad].
    + contradiction.
    + apply assignments_keys in Hbad as (t' & Ht' & Hl).
      exact (Hlater t' Ht' Hl).
  - rewrite taxonomy_assignments, fold_insert_notin; [apply lookup_empty|].
    intros Hin. apply assignments_keys in Hin as (t & Ht & Hl).
    exact (H t Ht Hl).
  - unfold category_of.
    rewrite taxonomy_assignments, fold_insert_notin;
      [rewrite lookup_empty; reflexivity|].
    intros Hin. apply assignments_keys in Hin as (t & Ht & Hl).
    exact (H t Ht Hl).
Qed.

Lemma benchmark_to_taxonomy_last_category_witness :
  category_of (benchmark_to_taxonomy (Some demo_gauntlet)) "jeopardy"
  = "reading_comprehension".
Proof.
  destruct (benchmark_to_taxonomy_last_category demo_gauntlet "jeopardy")
    as [H _].
  apply (H [GauntletCfg.mk_category "world_knowledge"
              [GauntletCfg.mk_benchmark "jeopardy" 10 0;
               GauntletCfg.mk_benchmark "triviaqa" 5 0]]
           (GauntletCfg.mk_category "reading_comprehension"
              [GauntletCfg.mk_benchmark "boolq" 10 (1 # 2);
               GauntletCfg.mk_benchmark "jeopardy" 10 0])
           []).
  - reflexivity.
  - unfold lists. simpl. apply list_elem_of_further, list_elem_of_here.
  - intros t' Ht'. inversion Ht'.
Defined.

(** *** The gauntlet row *)

Lemma get_notin {V} k (d : ODict.t V) : k ∉ map fst d -> ODict.get k d = None.
Proof.
  induction d as [|[k0 v0] d IH]; [reflexivity|].
  simpl. intros Hk. apply not_elem_of_cons in Hk as [Hne Hk].
  destruct (String.eqb_spec k0 k) as [->|_]; [congruence|]. exact (IH Hk).
Qed.

Lemma get_row_set k k' (v : cell) row :
  ODict.get k' (row_set k v row)
  = if String.eqb k k' then Some v else ODict.get k' row.
Proof. unfold row_set. apply ReportExtras.get_upsert. Qed.

(** Merging a dict with distinct keys into a row. *)
Lemma get_merge (d : ODict.t cell) row k :
  NoDup (map fst d) ->
  ODict.get k (fold_left (fun row e => row_set e.1 e.2 row) d row)
  = match ODict.get k d with
    | Some v => Some v
    | None => ODict.get k row
    end.
Proof.
  revert row. induction d as [|[k0 v0] d IH]; intros row Hd; [reflexivity|].
  simpl in Hd. apply NoDup_cons in Hd as [Hk0 Hd]. simpl.
  rewrite (IH _ Hd), get_row_set.
  destruct (String.eqb_spec k0 k) as [->|_]; [|reflexivity].
  rewrite (get_notin _ _ Hk0). reflexivity.
Qed.

Section Row.
Variable composite_scores : gmap string Q.

(** The body of the dict comprehension over the categories. *)
Lemma comprehension_step d t :
  (v ← subscript composite_scores
         ("icl/metrics/model_gauntlet/" +:+ GauntletCfg.category_name t);
   Ok (row_set (GauntletCfg.category_name t) (CNum v) d))
  = match composite_scores !! score_key t with
    | Some v => Ok (row_set (GauntletCfg.category_name t) (CNum v) d)
    | None => Raise (KeyError (score_key t))
    end.
Proof.
  unfold subscript, score_key.
  destruct (composite_scores !! _); reflexivity.
Qed.

Lemma score_key_inj t t' :
  GauntletCfg.category_name t = GauntletCfg.category_name t' ->
  score_key t = score_key t'.
Proof. unfold score_key. intros ->. reflexivity. Qed.

Lemma comprehension_ok cats d0 :
  (forall t, t ∈ cats -> is_Some (composite_scores !! score_key t)) ->
  exists d,
    for_each
      (fun d t =>
         v ← subscript composite_scores
               ("icl/metrics/model_gauntlet/"
                  +:+ GauntletCfg.category_name t);
         Ok (row_set (GauntletCfg.category_name t) (CNum v) d))
      cats d0 = Ok d /\
    (NoDup (map fst d0) -> NoDup (map fst d)) /\
    (forall k, k ∉ map GauntletCfg.category_name cats ->
       ODict.get k d = ODict.get k d0) /\
    (forall t v, t ∈ cats -> composite_scores !! score_key t = Some v ->
       ODict.get (GauntletCfg.category_name t) d = Some (CNum v)).
Proof.
  revert d0. induction cats as [|t cats IH]; intros d0 Hall.
  - exists d0. repeat split; auto. intros t v Ht. inversion Ht.
  - destruct (Hall t (list_elem_of_here _ _)) as [v Hv].
    destruct (IH (row_set (GauntletCfg.category_name t) (CNum v) d0))
      as (d & Hd & Hnd & Hother & Hcat).
    { intros t' Ht'. apply Hall, list_elem_of_further, Ht'. }
    exists d. split; [|split; [|split]].
    + cbn [for_each]. rewrite comprehension_step, Hv. exact Hd.
    + intros H0. apply Hnd. unfold row_set.
      apply ReportFacts.upsert_NoDup, H0.
    + intros k Hk. simpl in Hk. apply not_elem_of_cons in Hk as [Hne Hk].
      rewrite (Hother k Hk), get_row_set.
      destruct (String.eqb_spec (GauntletCfg.category_name t) k);
        [congruence|reflexivity].
    + intros t' v' Ht' Hv'.
      destruct (decide (GauntletCfg.category_name t'
                        ∈ map GauntletCfg.category_name cats)) as [Hin|Hnin].
      * apply list_elem_of_fmap in Hin as (t'' & Hname & Ht'').
        rewrite Hname. apply Hcat; [exact Ht''|].
        rewrite <- (score_key_inj _ _ Hname). exact Hv'.
      * apply elem_of_cons in Ht' as [->|Ht'].
        -- rewrite (Hother _ Hnin), get_row_set, String.eqb_refl.
           congruence.
        -- exfalso. apply Hnin, list_elem_of_fmap. eauto.
Qed.

Lemma comprehension_raises cs1 t cs2 d0 :
  (forall t', t' ∈ cs1 -> is_Some (composite_scores !! score_key t')) ->
  composite_scores !! score_key t = None ->
  for_each
    (fun d t =>
       v ← subscript composite_scores
             ("icl/metrics/model_gauntlet/"
                +:+ GauntletCfg.category_name t);
       Ok (row_set (GauntletCfg.category_name t) (CNum v) d))
    (cs1 ++ t :: cs2) d0 = Raise (KeyError (score_key t)).
Proof.
  revert d0. induction cs1 as [|t1 cs1 IH]; intros d0 Hall Hnone.
  - cbn [app for_each]. rewrite comprehension_step, Hnone. reflexivity.
  - destruct (Hall t1 (list_elem_of_here _ _)) as [v Hv].
    cbn [app for_each]. rewrite comprehension_step, Hv.
    apply IH; [|exact Hnone].
    intros t' Ht'. apply Hall, list_elem_of_further, Ht'.
Qed.

(** X19: the gauntlet row of [main] needs a composite score for every
    category of the gauntlet and the average: the first category without
    one, or else a missing average, raises [KeyError] with the missing
    key.  When all are there, the row has the average under [average], each
    category's score under the category's name (unless the category is
    itself called [average]), and the model name unless a category is
    called [model_name]. *)
Theorem gauntlet_row_needs_every_score (model_name : string)
    (categories : list GauntletCfg.category) :
  (forall cs1 t cs2,
     categories = cs1 ++ t :: cs2 ->
     (forall t', t' ∈ cs1 -> is_Some (composite_scores !! score_key t')) ->
     composite_scores !! score_key t = None ->
     gauntlet_row model_name categories composite_scores
     = Raise (KeyError (score_key t))) /\
  ((forall t, t ∈ categories ->
      is_Some (composite_scores !! score_key t)) ->
   match composite_scores !! average_key with
   | None =>
       gauntlet_row model_name categories composite_scores
       = Raise (KeyError average_key)
   | Some average =>
       exists row,
         gauntlet_row model_name categories composite_scores = Ok row /\
         ODict.get "average" row = Some (CNum average) /\
         (forall t v,
            t ∈ categories -> GauntletCfg.category_name t <> "average" ->
            composite_scores !! score_key t = Some v ->
            ODict.get (GauntletCfg.category_name t) row = Some (CNum v)) /\
         ("model_name" ∉ map GauntletCfg.category_name categories ->
          ODict.get "model_name" row = Some (CStr model_name))
   end).
Proof.
  split.
  - intros cs1 t cs2 -> Hall Hnone. unfold gauntlet_row.
    rewrite (comprehension_raises _ _ _ _ Hall Hnone). reflexivity.
  - intros Hall.
    destruct (comprehension_ok categories [] Hall)
      as (d & Hd & Hnd & Hother & Hcat).
    specialize (Hnd (NoDup_nil_2 : NoDup (map fst ([] : ODict.t cell)))).
    unfold gauntlet_row. rewrite Hd. cbn [mbind result_bind bind].
    unfold subscript. fold average_key.
    destruct (composite_scores !! average_key) as [average|];
      [|reflexivity].
    eexists. split; [reflexivity|]. split; [|split].
    + rewrite get_row_set. reflexivity.
    + intros t v Ht Hname Hv. rewrite get_row_set.
      destruct (String.eqb_spec "average" (GauntletCfg.category_name t));
        [congruence|].
      rewrite (get_merge _ _ _ Hnd), (Hcat t v Ht Hv). reflexivity.
    + intros Hmn. rewrite get_row_set. simpl String.eqb. cbv iota.
      rewrite (get_merge _ _ _ Hnd), (Hother _ Hmn). reflexivity.
Qed.
End Row.

Lemma gauntlet_row_needs_every_score_witness :
  exists row,
    gauntlet_row "mpt-7b" (GauntletCfg.categories demo_gauntlet) demo_scores
    = Ok row /\
    ODict.get "average" row = Some (CNum (3 # 8)) /\
    ODict.get "world_knowledge" row = Some (CNum (1 # 4)) /\
    ODict.get "model_name" row = Some (CStr "mpt-7b").
Proof.
  destruct (gauntlet_row_needs_every_score demo_scores "mpt-7b"
              (GauntletCfg.categories demo_gauntlet)) as [_ H].
  assert (Hall : forall t, t ∈ GauntletCfg.categories demo_gauntlet ->
                   is_Some (demo_scores !! score_key t)).
  { intros t Ht. simpl in Ht.
    apply elem_of_cons in Ht as [->|Ht]; [eexists; reflexivity|].
    apply elem_of_cons in Ht as [->|Ht]; [eexists; reflexivity|].
    inversion Ht. }
  specialize (H Hall).
  change (demo_scores !! average_key) with (Some (3 # 8)%Q) in H.
  destruct H as (row & Hrow & Havg & Hcat & Hmn).
  exists row. split; [exact Hrow|]. split; [exact Havg|]. split.
  - apply (Hcat (GauntletCfg.mk_category "world_knowledge"
                   [GauntletCfg.mk_benchmark "jeopardy" 10 0;
                    GauntletCfg.mk_benchmark "triviaqa" 5 0])).
    + apply list_elem_of_here.
    + discriminate.
    + reflexivity.
  - apply Hmn. simpl. intros Hbad.
    repeat (apply elem_of_cons in Hbad as [Hbad|Hbad]; [discriminate|]).
    inversion Hbad.
Defined.
End MainFacts.

(** ** [build_icl_data_and_gauntlet] *)

Module SetupFacts.
Import Builders GauntletSetup SetupSpec KeyIndex MainSpec.

Section Setup.
Context {DataLoader Callback : Type}.
Variable get_icl_task_dataloader :
  LoaderArgs.t -> result (dataloaders DataLoader).
Variable load_icl_tasks : string -> result (list IclCfg.t).
Variable load_eval_gauntlet : string -> result GauntletCfg.t.
Variable num_samples : DataLoader -> Z.
Variable EvalGauntlet :
  GauntletCfg.t -> list string -> gmap string Z -> result Callback.
Variable cwd : string.

Lemma sizes_step (sizes : gmap string Z) e dl :
  Evaluator.dataloader e = SingleLoader dl ->
  (n ← evaluator_num_samples num_samples e;
   Ok (<[Evaluator.label e := n]> sizes))
  = Ok (<[Evaluator.label e := num_samples dl]> sizes).
Proof. unfold evaluator_num_samples. intros ->. reflexivity. Qed.

Lemma sizes_spec evs (m0 m : gmap string Z) :
  for_each
    (fun sizes e =>
       n ← evaluator_num_samples num_samples e;
       Ok (<[Evaluator.label e := n]> sizes))
    evs m0 = Ok m ->
  Forall single evs /\
  (forall l, is_Some (m !! l)
             <-> is_Some (m0 !! l) \/ l ∈ map Evaluator.label evs) /\
  (forall l n, m !! l = Some n ->
     m0 !! l = Some n \/
     exists e dl, e ∈ evs /\ Evaluator.label e = l /\
                  Evaluator.dataloader e = SingleLoader dl /\
                  n = num_samples dl).
Proof.
  revert m0. induction evs as [|e evs IH]; intros m0.
  - simpl. intros [= <-]. split; [constructor|]. split.
    + intros l. split; [auto|]. intros [H|H]; [exact H|inversion H].
    + auto.
  - cbn [for_each].
    destruct (Evaluator.dataloader e) as [dl|d] eqn:Edl.
    + rewrite (sizes_step _ _ _ Edl). cbn [bind].
      intros H. destruct (IH _ H) as (Hsingle & Hdom & Hval).
      split; [constructor; [exists dl; exact Edl|exact Hsingle]|]. split.
      * intros l. rewrite Hdom, lookup_insert_is_Some. simpl.
        rewrite elem_of_cons.
        destruct (decide (Evaluator.label e = l)) as [Heq|Hne];
          intuition congruence.
      * intros l n Hl. destruct (Hval l n Hl) as [H0|(e' & dl' & He' & Hrest)].
        -- destruct (decide (Evaluator.label e = l)) as [<-|Hne].
           ++ rewrite lookup_insert_eq in H0. injection H0 as <-.
              right. exists e, dl. split; [apply list_elem_of_here|auto].
           ++ rewrite lookup_insert_ne in H0 by exact Hne. auto.
        -- right. exists e', dl'.
           split; [apply list_elem_of_further, He'|exact Hrest].
    + unfold evaluator_num_samples. rewrite Edl. discriminate.
Qed.

Lemma sizes_total evs (m0 : gmap string Z) :
  Forall single evs ->
  exists m,
    for_each
      (fun sizes e =>
         n ← evaluator_num_samples num_samples e;
         Ok (<[Evaluator.label e := n]> sizes))
      evs m0 = Ok m.
Proof.
  intros H. revert m0.
  induction H as [|e evs [dl Hdl] _ IH]; intros m0; [eexists; reflexivity|].
  cbn [for_each]. rewrite (sizes_step _ _ _ Hdl). apply IH.
Qed.

(** X20: what [build_icl_data_and_gauntlet] returns.  The evaluators and
    logger keys are those of [build_icl_evaluators], called with
    [icl_seq_len] as the default sequence length and
    [device_eval_batch_size] as the default batch size.  Without a gauntlet
    configuration the callback is [None].  With one, the callback is what
    [EvalGauntlet] built from the configuration, these same logger keys and
    a table of benchmark sizes whose keys are exactly the labels of the
    returned evaluators, each mapped to the number of samples of an
    evaluator with that label; all the evaluators then hold a single
    dataloader. *)
Theorem gauntlet_setup_returns (icl_tasks_config : tasks_config)
    (eval_gauntlet_config : option gauntlet_config) (tokenizer : Tokenizer.t)
    (device_eval_batch_size icl_seq_len : Z)
    (icl_subset_num_batches : option Z) evs keys cb :
  build_icl_data_and_gauntlet get_icl_task_dataloader load_icl_tasks
    load_eval_gauntlet num_samples EvalGauntlet cwd icl_tasks_config
    eval_gauntlet_config tokenizer device_eval_batch_size icl_seq_len
    icl_subset_num_batches = Ok (evs, keys, cb) ->
  build_icl_evaluators_from get_icl_task_dataloader load_icl_tasks cwd
    icl_tasks_config tokenizer icl_seq_len device_eval_batch_size
    icl_subset_num_batches = Ok (evs, keys) /\
  match eval_gauntlet_config with
  | None => cb = None
  | Some config =>
      exists g sizes callback,
        cb = Some callback /\
        gauntlet_source load_eval_gauntlet config g /\
        EvalGauntlet g keys sizes = Ok callback /\
        Forall single evs /\
        (forall l, is_Some (sizes !! l) <-> l ∈ map Evaluator.label evs) /\
        (forall l n, sizes !! l = Some n ->
           exists e dl, e ∈ evs /\ Evaluator.label e = l /\
                        Evaluator.dataloader e = SingleLoader dl /\
                        n = num_samples dl)
  end.
Proof.
  unfold build_icl_data_and_gauntlet.
  destruct (build_icl_evaluators_from _ _ _ _ _ _ _ _) as [[evs0 keys0]|e];
    [|discriminate].
  cbn [mbind result_bind bind fst snd].
  destruct eval_gauntlet_config as [config|].
  - assert (Hsrc : forall g,
              match config with
              | GauntletPath path => load_eval_gauntlet path
              | GauntletDict cfg => Ok cfg
              | GauntletOther type_repr =>
                  Raise (ValueError
                           ("Got invalid type for eval_gauntlet_config: "
                              +:+ type_repr))
              end = Ok g -> gauntlet_source load_eval_gauntlet config g).
    { intros g. destruct config; simpl; [auto|congruence|discriminate]. }
    destruct (match config with
              | GauntletPath _ => _ | GauntletDict _ => _
              | GauntletOther _ => _ end) as [g|e]; [|discriminate].
    cbn [mbind result_bind bind]. unfold benchmark_sizes.
    destruct (for_each _ evs0 ∅) as [sizes|e] eqn:Esizes; [|discriminate].
    cbn [mbind result_bind bind].
    destruct (EvalGauntlet g keys0 sizes) as [callback|e] eqn:Ecb;
      [|discriminate].
    cbn [mbind result_bind bind]. intros [= <- <- <-].
    split; [reflexivity|].
    destruct (sizes_spec _ _ _ Esizes) as (Hsingle & Hdom & Hval).
    exists g, sizes, callback. repeat split; auto.
    + intros Hl. apply Hdom in Hl as [Hl|Hl]; [|exact Hl].
      rewrite lookup_empty in Hl. destruct Hl; discriminate.
    + intros Hl. apply Hdom. auto.
    + intros l n Hl. destruct (Hval l n Hl) as [H0|H0]; [|exact H0].
      rewrite lookup_empty in H0. discriminate.
  - intros [= <- <- <-]. auto.
Qed.

(** X21: how [build_icl_data_and_gauntlet] fails.  An error of
    [build_icl_evaluators] comes first, whatever the gauntlet configuration
    is.  A gauntlet configuration that is neither a path nor a [DictConfig]
    is reported, with its type, only after the evaluators were built, and
    so is a gauntlet file that cannot be loaded.  Once the evaluators are
    built, each holding a single dataloader, and the gauntlet configuration
    is read, the outcome is that of [EvalGauntlet] on the benchmark sizes
    of these evaluators: its exception, or the evaluators, the keys and
    the callback it built. *)
Theorem gauntlet_setup_failures (icl_tasks_config : tasks_config)
    (eval_gauntlet_config : option gauntlet_config) (tokenizer : Tokenizer.t)
    (device_eval_batch_size icl_seq_len : Z)
    (icl_subset_num_batches : option Z) :
  (forall e,
     build_icl_evaluators_from get_icl_task_dataloader load_icl_tasks cwd
       icl_tasks_config tokenizer icl_seq_len device_eval_batch_size
       icl_subset_num_batches = Raise e ->
     build_icl_data_and_gauntlet get_icl_task_dataloader load_icl_tasks
       load_eval_gauntlet num_samples EvalGauntlet cwd icl_tasks_config
       eval_gauntlet_config tokenizer device_eval_batch_size icl_seq_len
       icl_subset_num_batches = Raise e) /\
  (forall built type_repr,
     build_icl_evaluators_from get_icl_task_dataloader load_icl_tasks cwd
       icl_tasks_config tokenizer icl_seq_len device_eval_batch_size
       icl_subset_num_batches = Ok built ->
     eval_gauntlet_config = Some (GauntletOther type_repr) ->
     build_icl_data_and_gauntlet get_icl_task_dataloader load_icl_tasks
       load_eval_gauntlet num_samples EvalGauntlet cwd icl_tasks_config
       eval_gauntlet_config tokenizer device_eval_batch_size icl_seq_len
       icl_subset_num_batches
     = Raise (ValueError ("Got invalid type for eval_gauntlet_config: "
                            +:+ type_repr))) /\
  (forall built path e,
     build_icl_evaluators_from get_icl_task_dataloader load_icl_tasks cwd
       icl_tasks_config tokenizer icl_seq_len device_eval_batch_size
       icl_subset_num_batches = Ok built ->
     eval_gauntlet_config = Some (GauntletPath path) ->
     load_eval_gauntlet path = Raise e ->
     build_icl_data_and_gauntlet get_icl_task_dataloader load_icl_tasks
       load_eval_gauntlet num_samples EvalGauntlet cwd icl_tasks_config
       eval_gauntlet_config tokenizer device_eval_batch_size icl_seq_len
       icl_subset_num_batches = Raise e) /\
  (forall evs keys config g,
     build_icl_evaluators_from get_icl_task_dataloader load_icl_tasks cwd
       icl_tasks_config tokenizer icl_seq_len device_eval_batch_size
       icl_subset_num_batches = Ok (evs, keys) ->
     Forall single evs ->
     eval_gauntlet_config = Some config ->
     gauntlet_source load_eval_gauntlet config g ->
     exists sizes,
       benchmark_sizes num_samples evs = Ok sizes /\
       build_icl_data_and_gauntlet get_icl_task_dataloader load_icl_tasks
         load_eval_gauntlet num_samples EvalGauntlet cwd icl_tasks_config
         eval_gauntlet_config tokenizer device_eval_batch_size icl_seq_len
         icl_subset_num_batches
       = (eval_gauntlet_cb ← EvalGauntlet g keys sizes;
          Ok (evs, keys, Some eval_gauntlet_cb))).
Proof.
  unfold build_icl_data_and_gauntlet. split; [|split; [|split]].
  - intros e ->. reflexivity.
  - intros built type_repr -> ->. reflexivity.
  - intros built path e -> -> Hload.
    cbn [mbind result_bind bind fst snd]. rewrite Hload. reflexivity.
  - intros evs keys config g -> Hsingle -> Hsrc.
    cbn [mbind result_bind bind fst snd].
    assert (Hg : match config with
                 | GauntletPath path => load_eval_gauntlet path
                 | GauntletDict cfg => Ok cfg
                 | GauntletOther type_repr =>
                     Raise (ValueError
                              ("Got invalid type for eval_gauntlet_config: "
                                 +:+ type_repr))
                 end = Ok g).
    { destruct config; simpl in Hsrc; [exact Hsrc|congruence|contradiction]. }
    rewrite Hg. cbn [mbind result_bind bind].
    destruct (sizes_total evs ∅ Hsingle) as [sizes Hsizes].
    exists sizes. unfold benchmark_sizes. split; [exact Hsizes|].
    rewrite Hsizes. reflexivity.
Qed.
End Setup.

Lemma gauntlet_setup_returns_witness :
  exists evs keys cb,
    build_icl_data_and_gauntlet demo_loader demo_load_icl_tasks
      demo_load_eval_gauntlet demo_num_samples demo_EvalGauntlet "."
      (TasksList demo_tasks) (Some (GauntletDict demo_gauntlet))
      demo_tokenizer 4 1024 (Some 1%Z) = Ok (evs, keys, cb) /\
    build_icl_evaluators_from demo_loader demo_load_icl_tasks "."
      (TasksList demo_tasks) demo_tokenizer 1024 4 (Some 1%Z)
    = Ok (evs, keys).
Proof.
  assert (E : exists evs keys cb,
            build_icl_data_and_gauntlet demo_loader demo_load_icl_tasks
              demo_load_eval_gauntlet demo_num_samples demo_EvalGauntlet "."
              (TasksList demo_tasks) (Some (GauntletDict demo_gauntlet))
              demo_tokenizer 4 1024 (Some 1%Z) = Ok (evs, keys, cb)).
  { unfold build_icl_data_and_gauntlet, build_icl_evaluators_from.
    cbn [mbind result_bind bind]. rewrite KeyIndexFacts.demo_build.
    eexists _, _, _. reflexivity. }
  destruct E as (evs & keys & cb & E).
  exists evs, keys, cb. split; [exact E|].
  exact (proj1 (gauntlet_setup_returns _ _ _ _ _ _ _ _ _ _ _ _ _ _ _ E)).
Defined.

Lemma gauntlet_setup_failures_witness :
  build_icl_data_and_gauntlet demo_loader demo_load_icl_tasks
    demo_load_eval_gauntlet demo_num_samples demo_EvalGauntlet "."
    (TasksList demo_tasks) (Some (GauntletOther "<class 'int'>"))
    demo_tokenizer 4 1024 (Some 1%Z)
  = Raise (ValueError
             "Got invalid type for eval_gauntlet_config: <class 'int'>") /\
  build_icl_data_and_gauntlet demo_loader demo_load_icl_tasks
    demo_load_eval_gauntlet demo_num_samples demo_EvalGauntlet "."
    (TasksList demo_tasks) (Some (GauntletPath "gauntlet.yaml"))
    demo_tokenizer 4 1024 (Some 1%Z)
  = Raise (OtherError "FileNotFoundError" "gauntlet.yaml").
Proof.
  split.
  - destruct (gauntlet_setup_failures demo_loader demo_load_icl_tasks
                demo_load_eval_gauntlet demo_num_samples demo_EvalGauntlet
                "." (TasksList demo_tasks)
                (Some (GauntletOther "<class 'int'>"))
                demo_tokenizer 4 1024 (Some 1%Z)) as (_ & H & _).
    apply (H _ "<class 'int'>" KeyIndexFacts.demo_build). reflexivity.
  - destruct (gauntlet_setup_failures demo_loader demo_load_icl_tasks
                demo_load_eval_gauntlet demo_num_samples demo_EvalGauntlet
                "." (TasksList demo_tasks)
                (Some (GauntletPath "gauntlet.yaml"))
                demo_tokenizer 4 1024 (Some 1%Z)) as (_ & _ & H & _).
    apply (H _ "gauntlet.yaml" _ KeyIndexFacts.demo_build);
      reflexivity.
Defined.
End SetupFacts.

(** ** [MockState] of the gauntlet test *)

Module MockFacts.
Import MockState MockSpec MainSpec ExtraSpec.

Lemma fold_insert_const {V} (c : V) (ks : list string) m k :
  fold_left assign (map (fun k => (k, c)) ks) m !! k
  = if decide (k ∈ ks) then Some c else m !! k.
Proof.
  revert m. induction ks as [|k0 ks IH]; intros m; simpl.
  - destruct (decide (k ∈ [])) as [H|_]; [inversion H|reflexivity].
  - rewrite IH. unfold assign. simpl.
    destruct (decide (k ∈ ks)) as [Hin|Hnin].
    + rewrite decide_True by (apply list_elem_of_further, Hin). reflexivity.
    + destruct (decide (k0 = k)) as [->|Hne].
      * rewrite decide_True by apply list_elem_of_here.
        apply lookup_insert_eq.
      * rewrite decide_False.
        -- apply lookup_insert_ne, Hne.
        -- intros H. apply elem_of_cons in H as [H|H]; congruence.
Qed.

Section Mock.
Context {Float Tensor : Type}.
Variable mul_int : Float -> Z -> Float.
Variable tensor : Float -> Tensor.
Variable tensor_int : Z -> Tensor.

Lemma eval_metrics_labels keys accuracy :
  eval_metrics mul_int tensor tensor_int keys accuracy
  = fold_left assign
      (map (fun l => (l, mock_entry mul_int tensor tensor_int accuracy))
           (map dl_name keys)) ∅.
Proof.
  unfold eval_metrics. rewrite map_map, MainFacts.fold_left_map. reflexivity.
Qed.

(** X22: the evaluation state [MockState] builds has an entry for exactly
    the dataloader labels read off the logger keys, and every entry holds
    the single metric [InContextLearningLMAccuracy], whatever metric the
    key names, with [correct] and [total] the tensors of [accuracy * 100]
    and of [100].  For a key [metrics/{label}/{metric}] whose metric has
    no ['/'] the entry is under [label]. *)
Theorem mock_state_entries (logger_keys : list string) (accuracy : Float) :
  (forall l,
     eval_metrics mul_int tensor tensor_int logger_keys accuracy !! l
     = if decide (l ∈ map dl_name logger_keys)
       then Some (mock_entry mul_int tensor tensor_int accuracy)
       else None) /\
  (forall label metric,
     has_char "/" metric = false ->
     ("metrics/" +:+ label +:+ "/" +:+ metric) ∈ logger_keys ->
     eval_metrics mul_int tensor tensor_int logger_keys accuracy !! label
     = Some (mock_entry mul_int tensor tensor_int accuracy)) /\
  (forall name v,
     mock_entry mul_int tensor tensor_int accuracy !! name = Some v ->
     name = "InContextLearningLMAccuracy" /\
     correct v = tensor (mul_int accuracy 100%Z) /\
     total v = tensor_int 100%Z).
Proof.
  assert (Hall : forall l,
            eval_metrics mul_int tensor tensor_int logger_keys accuracy !! l
            = if decide (l ∈ map dl_name logger_keys)
              then Some (mock_entry mul_int tensor tensor_int accuracy)
              else None).
  { intros l. rewrite eval_metrics_labels, fold_insert_const.
    destruct (decide _); [reflexivity|apply lookup_empty]. }
  split; [exact Hall|]. split.
  - intros label metric Hm Hkey. rewrite Hall, decide_True; [reflexivity|].
    apply list_elem_of_fmap.
    exists ("metrics/" +:+ label +:+ "/" +:+ metric). split; [|exact Hkey].
    unfold dl_name. rewrite (KeyAddressing.key_parts _ _ Hm).
    unfold slice_1_m1. simpl tl. rewrite removelast_last.
    symmetry. apply KeyAddressing.join_split.
  - intros name v. unfold mock_entry.
    destruct (decide ("InContextLearningLMAccuracy" = name)) as [<-|Hne].
    + rewrite lookup_insert_eq. intros [= <-]. repeat split.
    + rewrite lookup_insert_ne by exact Hne. rewrite lookup_empty.
      discriminate.
Qed.
End Mock.

Lemma mock_state_entries_witness :
  eval_metrics demo_mul_int demo_tensor demo_tensor_int
    ["metrics/jeopardy/10-shot/InContextLearningLMAccuracy";
     "metrics/triviaqa/3-shot/InContextLearningQAAccuracy"]
    (ReportSpec.ratio 1 4)
    !! "triviaqa/3-shot"
  = Some (mock_entry demo_mul_int demo_tensor demo_tensor_int
            (ReportSpec.ratio 1 4)).
Proof.
  destruct (mock_state_entries demo_mul_int demo_tensor demo_tensor_int
              ["metrics/jeopardy/10-shot/InContextLearningLMAccuracy";
               "metrics/triviaqa/3-shot/InContextLearningQAAccuracy"]
              (ReportSpec.ratio 1 4)) as (_ & H & _).
  apply (H "triviaqa/3-shot" "InContextLearningQAAccuracy").
  - reflexivity.
  - apply list_elem_of_further, list_elem_of_here.
Defined.
End MockFacts.
